(** * Minimal chess (scripts/chess.py): a shallow embedding and its properties

    The Python module keeps the board as a list of eight row lists of
    one-character strings, generates pseudo-legal moves per piece, detects
    check, parses four-character coordinate moves and runs a read/validate/
    commit loop.  The embedding below follows the module function by
    function.

    - Python integers are [Z]; Python strings are [string], read as
      sequences of code points below 256, with the case and white-space
      tables of those code points.
    - The rows of a board are lists that the module updates in place
      ([clone[ty][tx] = piece]); they live in a store of row objects.  The
      outer list of a board is only read and rebound, never updated in
      place, so a board is the list of the references to its rows.
    - Code that reads or writes the store is written in a store-passing
      monad whose results are a value, a raised exception or [Undef].
    - The sides ["w"] and ["b"] are an enumeration; [color] returns an
      optional side.
    - The four rejection messages are the constructors of [reason].  What
      the module prints is a list of outputs: module [Console] has
      [print_board] and the loop of [main], run on the lines that [input]
      returns. *)

From Stdlib Require Import ZArith String Ascii Lia DecimalString.
From stdpp Require Import base gmap list strings.

Local Open Scope string_scope.
Local Open Scope list_scope.
Local Open Scope Z_scope.

(** ** Python values and exceptions *)

Module Py.

(** The exceptions the modelled code can raise. *)
Inductive exn := IndexError | ValueError.

(** Result of running a piece of Python code: a value, a raised exception,
    or [Undef] for the two situations that have no Python counterpart in
    this model (reading a row reference that was never allocated, and
    exhausting the iteration bound given to a [while] loop). *)
Inductive result (A : Type) : Type :=
| Ok (a : A)
| Raise (e : exn)
| Undef.
Arguments Ok {A} a.
Arguments Raise {A} e.
Arguments Undef {A}.

Definition rbind {A B} (r : result A) (k : A -> result B) : result B :=
  match r with
  | Ok a => k a
  | Raise e => Raise e
  | Undef => Undef
  end.

(** *** Characters and strings (code points 0..255) *)

Definition code (c : ascii) : N := N_of_ascii c.

Definition between (lo hi n : N) : bool := ((lo <=? n) && (n <=? hi))%N.

(** [str.isspace] on one code point: TAB..CR, FS..US, SPACE, NEL, NBSP. *)
Definition isspace (c : ascii) : bool :=
  between 9 13 (code c) || between 28 32 (code c)
  || (code c =? 133)%N || (code c =? 160)%N.

(** Upper-case code points: A..Z and the Latin-1 capitals. *)
Definition isupper_char (c : ascii) : bool :=
  between 65 90 (code c) || between 192 214 (code c) || between 216 222 (code c).

(** Lower-case code points: a..z, the Latin-1 small letters, and the three
    lower-case symbols (feminine and masculine ordinal, micro sign). *)
Definition islower_char (c : ascii) : bool :=
  between 97 122 (code c) || between 223 246 (code c) || between 248 255 (code c)
  || (code c =? 170)%N || (code c =? 181)%N || (code c =? 186)%N.

Definition lower_char (c : ascii) : ascii :=
  if isupper_char c then ascii_of_N (code c + 32) else c.

(** [s.lower()] *)
Fixpoint lower (s : string) : string :=
  match s with
  | EmptyString => EmptyString
  | String c s => String (lower_char c) (lower s)
  end.

Fixpoint str_forall (p : ascii -> bool) (s : string) : bool :=
  match s with
  | EmptyString => true
  | String c s => p c && str_forall p s
  end.

Fixpoint str_exists (p : ascii -> bool) (s : string) : bool :=
  match s with
  | EmptyString => false
  | String c s => p c || str_exists p s
  end.

(** [s.isupper()]: no lower-case character and at least one upper-case one. *)
Definition isupper (s : string) : bool :=
  str_forall (fun c => negb (islower_char c)) s && str_exists isupper_char s.

Fixpoint lstrip (s : string) : string :=
  match s with
  | EmptyString => EmptyString
  | String c s' => if isspace c then lstrip s' else s
  end.

Fixpoint rstrip (s : string) : string :=
  match s with
  | EmptyString => EmptyString
  | String c s' =>
      match rstrip s' with
      | EmptyString => if isspace c then EmptyString else String c EmptyString
      | r => String c r
      end
  end.

(** [s.strip()] *)
Definition strip (s : string) : string := rstrip (lstrip s).

(** [s.replace(old, "")] for a one-character [old]. *)
Fixpoint remove_char (old : ascii) (s : string) : string :=
  match s with
  | EmptyString => EmptyString
  | String c s => if Ascii.eqb c old then remove_char old s
                  else String c (remove_char old s)
  end.

(** [c in s] for a one-character [c]. *)
Definition contains (s : string) (c : ascii) : bool := str_exists (Ascii.eqb c) s.

Fixpoint index_from (i : Z) (s : string) (c : ascii) : result Z :=
  match s with
  | EmptyString => Raise ValueError
  | String d s => if Ascii.eqb c d then Ok i else index_from (i + 1) s c
  end.

(** [s.index(c)] for a one-character [c]. *)
Definition str_index (s : string) (c : ascii) : result Z := index_from 0 s c.

(** [int(c)] for a one-character string: only the decimal digits convert. *)
Definition int_char (c : ascii) : result Z :=
  if between 48 57 (code c) then Ok (Z.of_N (code c) - 48) else Raise ValueError.

(** *** List indexing *)

(** [l[i]]: a negative index counts from the end; anything outside
    [-len(l), len(l)) raises [IndexError]. *)
Definition getitem {A} (l : list A) (i : Z) : result A :=
  let j := if i <? 0 then i + Z.of_nat (length l) else i in
  if j <? 0 then Raise IndexError
  else match l !! Z.to_nat j with
       | Some a => Ok a
       | None => Raise IndexError
       end.

(** [l[i] = v], same index convention. *)
Definition setitem {A} (l : list A) (i : Z) (v : A) : result (list A) :=
  let j := if i <? 0 then i + Z.of_nat (length l) else i in
  if j <? 0 then Raise IndexError
  else if j <? Z.of_nat (length l) then Ok (<[Z.to_nat j := v]> l)
       else Raise IndexError.

(** [range(n)] and [itertools.product] of two lists. *)
Definition range (n : nat) : list Z := Z.of_nat <$> seq 0 n.

Definition product {A B} (xs : list A) (ys : list B) : list (A * B) :=
  x ← xs; (fun y => (x, y)) <$> ys.

End Py.

Import Py.

(** ** The store of row objects and the monad of the embedding *)

Module Store.

(** A row object is referred to by its location. *)
Abbreviation loc := positive.

(** The store maps each allocated location to the cells of that row. *)
Abbreviation heap := (gmap positive (list string)).

(** Store-passing computations that may raise. *)
Definition M (A : Type) : Type := heap -> result A * heap.

Definition ret {A} (a : A) : M A := fun h => (Ok a, h).

Definition bind {A B} (m : M A) (k : A -> M B) : M B :=
  fun h => match m h with
           | (Ok a, h') => k a h'
           | (Raise e, h') => (Raise e, h')
           | (Undef, h') => (Undef, h')
           end.

(** A pure, possibly raising, step. *)
Definition lift {A} (r : result A) : M A := fun h => (r, h).

(** Follow a row reference. *)
Definition deref (l : loc) : M (list string) :=
  fun h => match h !! l with
           | Some cells => (Ok cells, h)
           | None => (Undef, h)
           end.

(** Overwrite the row object at [l]. *)
Definition store (l : loc) (cells : list string) : M unit :=
  fun h => (Ok tt, <[l := cells]> h).

(** Create a new row object. *)
Definition alloc (cells : list string) : M loc :=
  fun h => let l := fresh (dom h) in (Ok l, <[l := cells]> h).

Declare Scope py_scope.
Delimit Scope py_scope with py.
Notation "x <- m ;; k" := (bind m (fun x => k))
  (at level 100, m at next level, right associativity) : py_scope.

Local Open Scope py_scope.

(** [for x in xs: s = body(x, s)] *)
Fixpoint for_each {A S} (xs : list A) (s : S) (body : A -> S -> M S) : M S :=
  match xs with
  | [] => ret s
  | x :: xs => s' <- body x s ;; for_each xs s' body
  end.

(** [[f(x) for x in xs]] *)
Fixpoint list_comp {A B} (f : A -> M B) (xs : list A) : M (list B) :=
  match xs with
  | [] => ret []
  | x :: xs => y <- f x ;; ys <- list_comp f xs ;; ret (y :: ys)
  end.

(** [board[y][x]] *)
Definition getitem2 (board : list loc) (y x : Z) : M string :=
  row <- lift (getitem board y) ;;
  cells <- deref row ;;
  lift (getitem cells x).

(** [board[y][x] = v]: the row object [board[y]] is updated in place. *)
Definition setitem2 (board : list loc) (y x : Z) (v : string) : M unit :=
  row <- lift (getitem board y) ;;
  cells <- deref row ;;
  cells' <- lift (setitem cells x v) ;;
  store row cells'.

End Store.

Import Store.
Local Open Scope py_scope.

(** ** The chess module *)

Module Chess.

Definition FILES : string := "abcdefgh".
Definition RANKS : string := "12345678".

(** The two sides, ["w"] and ["b"] in the source. *)
Inductive colour := W | B.

#[global] Instance colour_eq_dec : EqDecision colour.
Proof. solve_decision. Defined.

(** [list(s)]: the one-character strings of [s]. *)
Fixpoint list_of_str (s : string) : list string :=
  match s with
  | EmptyString => []
  | String c s => String c EmptyString :: list_of_str s
  end.

Definition new_board : M (list loc) :=
  list_comp alloc
    [ list_of_str "rnbqkbnr";
      list_of_str "pppppppp";
      list_of_str "........";
      list_of_str "........";
      list_of_str "........";
      list_of_str "........";
      list_of_str "PPPPPPPP";
      list_of_str "RNBQKBNR" ].

Definition color (piece : string) : option colour :=
  if String.eqb piece "." then None
  else Some (if isupper piece then W else B).

Definition in_bounds (x y : Z) : bool :=
  (0 <=? x) && (x <? 8) && (0 <=? y) && (y <? 8).

(** The inner function [add] of [moves_for]; the list [res] it appends to
    is passed in and handed back with the returned flag. *)
Definition add (board : list loc) (c : colour) (res : list (Z * Z)) (nx ny : Z)
  : M (list (Z * Z) * bool) :=
  if negb (in_bounds nx ny) then ret (res, false)
  else
    target <- getitem2 board ny nx ;;
    if negb (String.eqb target ".") && bool_decide (color target = Some c)
    then ret (res, false)
    else ret (res ++ [(nx, ny)], String.eqb target ".").

(** The [while] loop of the inner function [ray], entered with the square
    [(nx, ny)] to test next; [fuel] bounds the number of loop bodies run. *)
Fixpoint ray_loop (fuel : nat) (board : list loc) (c : colour) (dx dy : Z)
    (res : list (Z * Z)) (nx ny : Z) : M (list (Z * Z)) :=
  if negb (in_bounds nx ny) then ret res
  else
    match fuel with
    | O => lift Undef
    | S fuel =>
        target <- getitem2 board ny nx ;;
        if negb (String.eqb target ".") && bool_decide (color target = Some c)
        then ret res
        else
          let res := res ++ [(nx, ny)] in
          if negb (String.eqb target ".") then ret res
          else ray_loop fuel board c dx dy res (nx + dx) (ny + dy)
    end.

(** The inner function [ray]: a ray has at most eight squares on the board. *)
Definition ray (board : list loc) (c : colour) (x y : Z) (res : list (Z * Z))
    (dx dy : Z) : M (list (Z * Z)) :=
  ray_loop 8 board c dx dy res (x + dx) (y + dy).

Definition knight_offsets : list (Z * Z) :=
  [(1, 2); (2, 1); (-1, 2); (-2, 1); (1, -2); (2, -1); (-1, -2); (-2, -1)].

Definition moves_for (board : list loc) (x y : Z) : M (list (Z * Z)) :=
  piece <- getitem2 board y x ;;
  match color piece with
  | None => ret []
  | Some c =>
      let res := [] in
      let p := lower piece in
      if String.eqb p "p" then
        let direction := match c with W => -1 | B => 1 end in
        let start_row := match c with W => 6 | B => 1 end in
        let one := y + direction in
        res <- (if in_bounds x one then
                  t1 <- getitem2 board one x ;;
                  if String.eqb t1 "." then
                    let res := res ++ [(x, one)] in
                    let two := y + 2 * direction in
                    if y =? start_row then
                      t2 <- getitem2 board two x ;;
                      if String.eqb t2 "." then ret (res ++ [(x, two)])
                      else ret res
                    else ret res
                  else ret res
                else ret res) ;;
        res <- for_each [-1; 1] res (fun dx res =>
                 let nx := x + dx in
                 let ny := y + direction in
                 if in_bounds nx ny then
                   t <- getitem2 board ny nx ;;
                   if negb (String.eqb t ".")
                      && negb (bool_decide (color t = Some c))
                   then ret (res ++ [(nx, ny)])
                   else ret res
                 else ret res) ;;
        ret res
      else if String.eqb p "n" then
        res <- for_each knight_offsets res (fun d res =>
                 r <- add board c res (x + d.1) (y + d.2) ;; ret r.1) ;;
        ret res
      else
        res <- (if String.eqb p "b" || String.eqb p "q" then
                  res <- ray board c x y res 1 1 ;;
                  res <- ray board c x y res 1 (-1) ;;
                  res <- ray board c x y res (-1) 1 ;;
                  ray board c x y res (-1) (-1)
                else ret res) ;;
        res <- (if String.eqb p "r" || String.eqb p "q" then
                  res <- ray board c x y res 1 0 ;;
                  res <- ray board c x y res (-1) 0 ;;
                  res <- ray board c x y res 0 1 ;;
                  ray board c x y res 0 (-1)
                else ret res) ;;
        res <- (if String.eqb p "k" then
                  for_each [-1; 0; 1] res (fun dx res =>
                    for_each [-1; 0; 1] res (fun dy res =>
                      if (dx =? 0) && (dy =? 0) then ret res
                      else r <- add board c res (x + dx) (y + dy) ;; ret r.1))
                else ret res) ;;
        ret res
  end.

(** First loop of [is_in_check]: the first square, in the order of
    [product(range(8), range(8))], that holds [king]. *)
Fixpoint find_king (board : list loc) (king : string) (sqs : list (Z * Z))
  : M (option (Z * Z)) :=
  match sqs with
  | [] => ret None
  | (y, x) :: sqs =>
      t <- getitem2 board y x ;;
      if String.eqb t king then ret (Some (x, y))
      else find_king board king sqs
  end.

(** The test of the second loop of [is_in_check] at square [(x, y)]. *)
Definition attacks (board : list loc) (side : colour) (king_pos : Z * Z)
    (x y : Z) : M bool :=
  t <- getitem2 board y x ;;
  match color t with
  | None => ret false
  | Some piece_color =>
      if negb (bool_decide (piece_color = side)) then
        l <- moves_for board x y ;;
        ret (bool_decide (king_pos ∈ l))
      else ret false
  end.

(** Second loop of [is_in_check]. *)
Fixpoint any_attacker (board : list loc) (side : colour) (king_pos : Z * Z)
    (sqs : list (Z * Z)) : M bool :=
  match sqs with
  | [] => ret false
  | (y, x) :: sqs =>
      hit <- attacks board side king_pos x y ;;
      if hit then ret true else any_attacker board side king_pos sqs
  end.

Definition is_in_check (board : list loc) (side : colour) : M bool :=
  let king := match side with W => "K" | B => "k" end in
  king_pos <- find_king board king (product (range 8) (range 8)) ;;
  match king_pos with
  | None => ret false
  | Some kp => any_attacker board side kp (product (range 8) (range 8))
  end.

(** [move.strip().lower().replace(" ", "")] *)
Definition normalize (move : string) : string :=
  remove_char " "%char (lower (strip move)).

Definition parse_move (move : string) : result (option (Z * Z * Z * Z)) :=
  let move := normalize move in
  if negb (Z.of_nat (String.length move) =? 4) then Ok None
  else
    match move with
    | String fx (String fy (String tx (String ty EmptyString))) =>
        if negb (contains FILES fx) || negb (contains FILES tx)
           || negb (contains RANKS fy) || negb (contains RANKS ty)
        then Ok None
        else
          rbind (str_index FILES fx) (fun a =>
          rbind (int_char fy) (fun b =>
          rbind (str_index FILES tx) (fun c =>
          rbind (int_char ty) (fun d =>
          Ok (Some (a, 8 - b, c, 8 - d))))))
    | _ => Raise ValueError   (* unpacking another length; not reached *)
    end.

(** The state of the loop of [main]: its two local variables. *)
Record GameState := { board : list loc; turn : colour }.

(** Why an iteration of the loop went back to the prompt without
    committing, named after the message it prints:
    "Invalid move format.", "No piece to move.", "Illegal move.",
    "Move leaves king in check." *)
Inductive reason :=
| BadFormat | NoPieceOrWrongColor | IllegalDestination | LeavesKingInCheck.

Inductive verdict := Rejected (r : reason) | Accepted.

Definition other (c : colour) : colour := match c with W => B | B => W end.

(** [[row[:] for row in board]] *)
Definition clone_board (board : list loc) : M (list loc) :=
  list_comp (fun row => cells <- deref row ;; alloc cells) board.

(** The body of the loop of [main] from [parsed = parse_move(move)] on. *)
Definition attempt_move (st : GameState) (move : string)
  : M (verdict * GameState) :=
  parsed <- lift (parse_move move) ;;
  match parsed with
  | None => ret (Rejected BadFormat, st)
  | Some (fx, fy, tx, ty) =>
      piece <- getitem2 (board st) fy fx ;;
      if String.eqb piece "." || negb (bool_decide (color piece = Some (turn st)))
      then ret (Rejected NoPieceOrWrongColor, st)
      else
        legal <- moves_for (board st) fx fy ;;
        if negb (bool_decide ((tx, ty) ∈ legal))
        then ret (Rejected IllegalDestination, st)
        else
          clone <- clone_board (board st) ;;
          _ <- setitem2 clone ty tx piece ;;
          _ <- setitem2 clone fy fx "." ;;
          _ <- (if String.eqb (lower piece) "p" && ((ty =? 0) || (ty =? 7))
                then setitem2 clone ty tx (match turn st with W => "Q" | B => "q" end)
                else ret tt) ;;
          chk <- is_in_check clone (turn st) ;;
          if chk then ret (Rejected LeavesKingInCheck, st)
          else ret (Accepted, {| board := clone; turn := other (turn st) |})
  end.

(** One pass through the loop of [main] on the line read by [input]:
    [None] when the loop is left, otherwise the verdict and the locals. *)
Definition main_iter (st : GameState) (line : string)
  : M (option (verdict * GameState)) :=
  let move := strip line in
  let cmd := lower move in
  if String.eqb cmd "q" || String.eqb cmd "quit" || String.eqb cmd "exit"
  then ret None
  else r <- attempt_move st move ;; ret (Some r).

(** The locals of [main] before its loop. *)
Definition main_init : M GameState :=
  board <- new_board ;; ret {| board := board; turn := W |}.

End Chess.

Import Chess.

(** ** The console: [print_board] and the loop of [main] *)

Module Console.

(** [str(n)] for an integer: its decimal digits, with a minus sign when
    negative. *)
Definition str_of_int (z : Z) : string := NilZero.string_of_int (Z.to_int z).

(** [sep.join(xs)] *)
Fixpoint join (sep : string) (xs : list string) : string :=
  match xs with
  | [] => EmptyString
  | [x] => x
  | x :: xs => (x ++ sep ++ join sep xs)%string
  end.

(** What reaches standard output: a line written by [print], or the prompt
    written by [input] (no newline after it). *)
Inductive output := Print (line : string) | Prompt (text : string).

(** The loop of [print_board], entered at row number [y]: the lines it
    prints. *)
Fixpoint print_rows (y : Z) (board : list loc) : M (list string) :=
  match board with
  | [] => ret []
  | row :: board =>
      cells <- deref row ;;
      rest <- print_rows (y + 1) board ;;
      ret ((str_of_int (8 - y) ++ " " ++ join " " cells)%string :: rest)
  end.

(** [print_board]: the lines it prints, in order. *)
Definition print_board (board : list loc) : M (list string) :=
  rows <- print_rows 0 board ;;
  ret ("  a b c d e f g h" :: rows ++ [EmptyString]).

(** The message printed for a rejection. *)
Definition message (r : reason) : string :=
  match r with
  | BadFormat => "Invalid move format."
  | NoPieceOrWrongColor => "No piece to move."
  | IllegalDestination => "Illegal move."
  | LeavesKingInCheck => "Move leaves king in check."
  end.

(** How a run of [main] ends: the loop is left on a quit word; [input]
    raises [EOFError] because no line is left; another exception escapes;
    or [Stuck] for a run that Python does not have ([Undef]). *)
Inductive ending := Quit | RaisedEOFError | Crash (e : exn) | Stuck.

(** A run of [main]: the locals at the end, what was printed, the store,
    the input lines left unread, and how the run ended. *)
Record run := {
  final : GameState;
  printed : list output;
  store_at_end : heap;
  unread : list string;
  how : ending
}.

(** The loop of [main] on the lines that [input] will return, from the
    locals [st], with [out] already printed. *)
Fixpoint main_loop (lines : list string) (st : GameState) (out : list output)
    (h : heap) : run :=
  match print_board (board st) h with
  | (Ok text, h) =>
      let side := match turn st with W => "White" | B => "Black" end in
      let out := out ++ (Print <$> text)
                 ++ [Prompt (side ++ " move (e2e4, q=quit): ")%string] in
      match lines with
      | [] => {| final := st; printed := out; store_at_end := h;
                 unread := []; how := RaisedEOFError |}
      | line :: lines =>
          match main_iter st line h with
          | (Ok None, h) =>
              {| final := st; printed := out; store_at_end := h;
                 unread := lines; how := Quit |}
          | (Ok (Some (Rejected r, st)), h) =>
              main_loop lines st (out ++ [Print (message r)]) h
          | (Ok (Some (Accepted, st)), h) => main_loop lines st out h
          | (Raise e, h) =>
              {| final := st; printed := out; store_at_end := h;
                 unread := lines; how := Crash e |}
          | (Undef, h) =>
              {| final := st; printed := out; store_at_end := h;
                 unread := lines; how := Stuck |}
          end
      end
  | (Raise e, h) =>
      {| final := st; printed := out; store_at_end := h;
         unread := lines; how := Crash e |}
  | (Undef, h) =>
      {| final := st; printed := out; store_at_end := h;
         unread := lines; how := Stuck |}
  end.

(** [main], run in the empty store on the given input lines. *)
Definition main (lines : list string) : run :=
  match main_init ∅ with
  | (Ok st, h) => main_loop lines st [] h
  | (Raise e, h) =>
      {| final := {| board := []; turn := W |}; printed := [];
         store_at_end := h; unread := lines; how := Crash e |}
  | (Undef, h) =>
      {| final := {| board := []; turn := W |}; printed := [];
         store_at_end := h; unread := lines; how := Stuck |}
  end.

End Console.

Import Console.

(** ** Vocabulary of the statements *)

Module Spec.

(** *** Boards in a store *)

(** What a board holds in a store: the cells of each of its rows, row by
    row ([None] for a reference that is not allocated). *)
Definition view (h : heap) (b : list loc) : list (option (list string)) :=
  (fun l => h !! l) <$> b.

(** [board[y][x]] computed on the contents alone. *)
Definition cell (v : list (option (list string))) (y x : Z) : result string :=
  rbind (getitem v y) (fun o =>
    match o with
    | Some cells => getitem cells x
    | None => Undef
    end).

(** [board[y][x] = t] computed on the contents alone, for a board whose
    rows are distinct objects. *)
Definition vset (v : list (option (list string))) (y x : Z) (t : string)
  : result (list (option (list string))) :=
  rbind (getitem v y) (fun o =>
    match o with
    | Some cells =>
        rbind (setitem cells x t) (fun cells' => setitem v y (Some cells'))
    | None => Undef
    end).

(** Every row reference of the board is allocated. *)
Definition wf_board (h : heap) (b : list loc) : Prop :=
  Forall (fun l => is_Some (h !! l)) b.

(** The board is an 8 by 8 array. *)
Definition board8 (h : heap) (b : list loc) : Prop :=
  length b = 8%nat /\
  Forall (fun l => exists cells, h !! l = Some cells /\ length cells = 8%nat) b.

(** Contents of an 8 by 8 board. *)
Definition grid8 (v : list (option (list string))) : Prop :=
  length v = 8%nat /\
  Forall (fun o => exists cells, o = Some cells /\ length cells = 8%nat) v.

(** Every square of [[0,8) x [0,8)] can be read. *)
Definition total (v : list (option (list string))) : Prop :=
  forall x y, in_bounds x y = true -> exists t, cell v y x = Ok t.

(** The store [h'] still has every row object of [h], unchanged. *)
Definition extends (h h' : heap) : Prop :=
  forall l cells, h !! l = Some cells -> h' !! l = Some cells.

(** *** Computations that only read *)

(** [robust tot al h1 h2 m1 m2 P]: run in [h1] and in [h2], the
    computations [m1] and [m2] leave their store as it was and end in the
    same way; a returned value satisfies [P]; under [tot] a value is
    returned; and under [al] the run is one that Python has (a value or an
    exception, not [Undef]). *)
Definition robust {A} (tot al : Prop) (h1 h2 : heap) (m1 m2 : M A)
    (P : A -> Prop) : Prop :=
  exists r, m1 h1 = (r, h1) /\ m2 h2 = (r, h2) /\
            (forall a, r = Ok a -> P a) /\ (tot -> exists a, r = Ok a) /\
            (al -> r <> Undef).

(** *** The move generator *)

(** A destination that is on the board and not held by side [c]. *)
Definition ok_dest (v : list (option (list string))) (c : colour)
    (d : Z * Z) : Prop :=
  in_bounds d.1 d.2 = true /\
  exists t, cell v d.2 d.1 = Ok t /\ color t <> Some c.

(** What the loop of [ray] appends when it is entered at square [(nx, ny)]:
    it stops with nothing off the board and on a square of side [c], takes
    a square of the other side and stops, takes an empty square and goes
    on one step further. *)
Inductive ray_seg (v : list (option (list string))) (c : colour) (dx dy : Z)
  : Z -> Z -> list (Z * Z) -> Prop :=
| ray_seg_out nx ny :
    in_bounds nx ny = false -> ray_seg v c dx dy nx ny []
| ray_seg_friend nx ny t :
    in_bounds nx ny = true -> cell v ny nx = Ok t -> t <> "." ->
    color t = Some c -> ray_seg v c dx dy nx ny []
| ray_seg_enemy nx ny t :
    in_bounds nx ny = true -> cell v ny nx = Ok t -> t <> "." ->
    color t <> Some c -> ray_seg v c dx dy nx ny [(nx, ny)]
| ray_seg_empty nx ny seg :
    in_bounds nx ny = true -> cell v ny nx = Ok "." ->
    ray_seg v c dx dy (nx + dx) (ny + dy) seg ->
    ray_seg v c dx dy nx ny ((nx, ny) :: seg).

(** The number of squares left on the board from coordinate [n] when
    stepping by [d]: the bound on the loop bodies [ray] can still run. *)
Definition room (d n : Z) : Z :=
  if 0 <? d then 8 - n else if d <? 0 then n + 1 else 0.

(** The directions of the calls of [ray] that [moves_for] makes for the
    piece letter [p], in the order of the calls. *)
Definition ray_directions (p : string) : list (Z * Z) :=
  (if String.eqb p "b" || String.eqb p "q"
   then [(1, 1); (1, -1); (-1, 1); (-1, -1)] else [])
  ++ (if String.eqb p "r" || String.eqb p "q"
      then [(1, 0); (-1, 0); (0, 1); (0, -1)] else []).

(** The locals [direction] and [start_row] of the pawn branch. *)
Definition pawn_direction (c : colour) : Z := match c with W => -1 | B => 1 end.
Definition pawn_start_row (c : colour) : Z := match c with W => 6 | B => 1 end.

(** *** The check detector *)

(** The piece on square [(x, y)] belongs to the side opposed to [side] and
    has [kp] among the destinations [moves_for] returns for it. *)
Definition attacker (h : heap) (b : list loc) (side : colour) (kp : Z * Z)
    (x y : Z) : Prop :=
  exists t pc l, cell (view h b) y x = Ok t /\ color t = Some pc /\
    pc <> side /\ moves_for b x y h = (Ok l, h) /\ kp ∈ l.

(** The order in which [product(range(8), range(8))] yields its pairs. *)
Definition lexlt (p q : Z * Z) : Prop :=
  p.1 < q.1 \/ (p.1 = q.1 /\ p.2 < q.2).

Definition lexltb (p q : Z * Z) : bool :=
  (p.1 <? q.1) || ((p.1 =? q.1) && (p.2 <? q.2)).

Fixpoint increasing (l : list (Z * Z)) : bool :=
  match l with
  | p :: (q :: _) as l' => lexltb p q && increasing l'
  | _ => true
  end.

(** *** The turn controller *)

(** The end of [attempt_move], from the cloning of the board on. *)
Definition commit (st : GameState) (piece : string) (fx fy tx ty : Z)
  : M (verdict * GameState) :=
  (clone <- clone_board (board st) ;;
   _ <- setitem2 clone ty tx piece ;;
   _ <- setitem2 clone fy fx "." ;;
   _ <- (if String.eqb (lower piece) "p" && ((ty =? 0) || (ty =? 7))
         then setitem2 clone ty tx (match turn st with W => "Q" | B => "q" end)
         else ret tt) ;;
   chk <- is_in_check clone (turn st) ;;
   if chk then ret (Rejected LeavesKingInCheck, st)
   else ret (Accepted, {| board := clone; turn := other (turn st) |}))%py.

(** What the clone holds once the move is played on it, computed on the
    contents of the board. *)
Definition simulate (v : list (option (list string))) (piece : string)
    (side : colour) (fx fy tx ty : Z) : result (list (option (list string))) :=
  rbind (vset v ty tx piece) (fun v1 =>
  rbind (vset v1 fy fx ".") (fun v2 =>
    if String.eqb (lower piece) "p" && ((ty =? 0) || (ty =? 7))
    then vset v2 ty tx (match side with W => "Q" | B => "q" end)
    else Ok v2)).

(** *** Positions *)

(** A board built from its rows in the empty store, one string per row, as
    [new_board] builds the starting position. *)
Definition board_of_rows (rows : list string) : M (list loc) :=
  list_comp alloc (list_of_str <$> rows).

(** The board that [new_board] builds in the empty store; every board
    built in the empty store has these row references. *)
Definition start_board : list loc := [1; 2; 3; 4; 5; 6; 7; 8]%positive.
Definition start_heap : heap := (new_board ∅).2.

(** The position after 1. e4, as the loop of [main] builds it from the
    empty store: the locals and the store. *)
Definition e4_state : GameState :=
  match (st <- main_init ;; attempt_move st "e2e4")%py ∅ with
  | (Ok (_, st), _) => st
  | _ => {| board := []; turn := W |}
  end.
Definition e4_heap : heap :=
  ((st <- main_init ;; attempt_move st "e2e4")%py ∅).2.

(** A position in which the white bishop on e2 shields its king on e1 from
    the black rook on e8. *)
Definition pinned_heap : heap :=
  (board_of_rows
     ["....r..."; "........"; "........"; "........";
      "........"; "........"; "....B..."; "....K..."] ∅).2.

(** A position in which the white pawn on a7 can step to a8. *)
Definition promo_heap : heap :=
  (board_of_rows
     ["....k..."; "P......."; "........"; "........";
      "........"; "........"; "........"; "....K..."] ∅).2.

(** A position in which the black rook on e8 gives check to the white
    king on e1. *)
Definition check_heap : heap :=
  (board_of_rows
     ["....r..."; "........"; "........"; "........";
      "........"; "........"; "........"; "....K..."] ∅).2.

End Spec.

Import Spec.

(** ** Vocabulary of the further statements *)

Module Play.

(** The number of cells of a row, and of a board, that hold glyph [g]. *)
Definition count_row (g : string) (cells : list string) : nat :=
  length (filter (fun t => t = g) cells).

Definition count_glyph (g : string) (v : list (option (list string))) : nat :=
  sum_list ((fun o => match o with
                      | Some cells => count_row g cells
                      | None => 0%nat
                      end) <$> v).

(** The glyph [is_in_check] looks for. *)
Definition king_of (side : colour) : string :=
  match side with W => "K" | B => "k" end.

(** The test of [main] for leaving its loop. *)
Definition is_quit (line : string) : bool :=
  let cmd := lower (strip line) in
  String.eqb cmd "q" || String.eqb cmd "quit" || String.eqb cmd "exit".

(** Between two turns: the board is 8 by 8, each side has one king, and
    the king of the side that has just moved is not attacked. *)
Definition kings_safe (h : heap) (st : GameState) : Prop :=
  board8 h (board st)
  /\ count_glyph "K" (view h (board st)) = 1%nat
  /\ count_glyph "k" (view h (board st)) = 1%nat
  /\ is_in_check (board st) (other (turn st)) h = (Ok false, h).

(** What [input] writes before it reads a line. *)
Definition prompt (side : colour) : output :=
  Prompt (match side with W => "White" | B => "Black" end
          ++ " move (e2e4, q=quit): ")%string.

(** Every cell of the board is a one-character string. *)
Definition one_char_cells (h : heap) (b : list loc) : Prop :=
  Forall (fun l => forall cells, h !! l = Some cells ->
                   Forall (fun t => String.length t = 1%nat) cells) b.

End Play.

Import Play.

(** A board given by its eight rows is 8 by 8: each row is looked up by
    computation. *)
Ltac board8_by_compute :=
  split; [reflexivity |];
  repeat constructor; eexists; (split; [vm_compute; reflexivity | reflexivity]).

(** ** Facts about the string primitives *)

Section StringFacts.

Lemma lower_char_isspace c : isspace (lower_char c) = isspace c.
Proof. destruct c as [[] [] [] [] [] [] [] []]; reflexivity. Qed.

Lemma eqb_space_isspace c : Ascii.eqb c " " = true -> isspace c = true.
Proof. intros H%Ascii.eqb_eq. subst. reflexivity. Qed.

Lemma lower_char_eqb_space c : Ascii.eqb (lower_char c) " " = Ascii.eqb c " ".
Proof. destruct c as [[] [] [] [] [] [] [] []]; reflexivity. Qed.

Lemma lower_char_idem c : lower_char (lower_char c) = lower_char c.
Proof. destruct c as [[] [] [] [] [] [] [] []]; reflexivity. Qed.

Lemma lower_app s t : lower (s ++ t)%string = (lower s ++ lower t)%string.
Proof. induction s as [|c s IH]; simpl; [done | by rewrite IH]. Qed.

Lemma lower_idem s : lower (lower s) = lower s.
Proof. induction s as [|c s IH]; simpl; [done | by rewrite IH, lower_char_idem]. Qed.

Lemma remove_char_app a s t :
  remove_char a (s ++ t)%string = (remove_char a s ++ remove_char a t)%string.
Proof.
  induction s as [|c s IH]; simpl; [done |].
  destruct (Ascii.eqb c a); simpl; by rewrite IH.
Qed.

Lemma lower_lstrip s : lower (lstrip s) = lstrip (lower s).
Proof.
  induction s as [|c s IH]; simpl; [done |].
  rewrite lower_char_isspace. destruct (isspace c); simpl; auto.
Qed.

Lemma lower_rstrip s : lower (rstrip s) = rstrip (lower s).
Proof.
  induction s as [|c s IH]; simpl; [done |].
  rewrite <- IH, lower_char_isspace.
  destruct (rstrip s) as [|d r]; simpl; [destruct (isspace c) |]; reflexivity.
Qed.

Lemma lower_strip s : lower (strip s) = strip (lower s).
Proof. unfold strip. by rewrite lower_rstrip, lower_lstrip. Qed.

Lemma remove_space_lstrip s :
  remove_char " " (lstrip s) = lstrip (remove_char " " s).
Proof.
  induction s as [|c s IH]; simpl; [done |].
  destruct (isspace c) eqn:Hsp.
  - destruct (Ascii.eqb c " "); simpl; [done | by rewrite Hsp].
  - destruct (Ascii.eqb c " ") eqn:Heq.
    + apply eqb_space_isspace in Heq. congruence.
    + simpl. by rewrite Heq, Hsp.
Qed.

Lemma remove_char_cons a c s :
  remove_char a (String c s) =
  if Ascii.eqb c a then remove_char a s else String c (remove_char a s).
Proof. reflexivity. Qed.

Lemma rstrip_cons c s :
  rstrip (String c s) =
  match rstrip s with
  | EmptyString => if isspace c then EmptyString else String c EmptyString
  | r => String c r
  end.
Proof. reflexivity. Qed.

(** What [rstrip] leaves ends in a non-blank, so deleting blanks cannot
    empty it. *)
Lemma rstrip_remove_space_nonempty s d r :
  rstrip s = String d r -> remove_char " " (String d r) <> EmptyString.
Proof.
  revert d r. induction s as [|c s IH]; intros d r; [discriminate |].
  rewrite rstrip_cons. destruct (rstrip s) as [|d0 r0] eqn:Hr.
  - destruct (isspace c) eqn:Hsp; [discriminate |].
    intros [= <- <-]. rewrite remove_char_cons.
    destruct (Ascii.eqb c " ") eqn:Heq; [|discriminate].
    apply eqb_space_isspace in Heq. congruence.
  - intros [= <- <-]. rewrite remove_char_cons.
    destruct (Ascii.eqb c " "); [by apply IH | discriminate].
Qed.

Lemma remove_space_rstrip s :
  remove_char " " (rstrip s) = rstrip (remove_char " " s).
Proof.
  induction s as [|c s IH]; [done |].
  rewrite rstrip_cons, (remove_char_cons _ c s).
  destruct (rstrip s) as [|d r] eqn:Hr.
  - destruct (Ascii.eqb c " ") eqn:Heq.
    + rewrite (eqb_space_isspace _ Heq). exact IH.
    + rewrite rstrip_cons, <- IH. simpl.
      destruct (isspace c); [done |]. by rewrite remove_char_cons, Heq.
  - pose proof (rstrip_remove_space_nonempty _ _ _ Hr) as Hne.
    rewrite (remove_char_cons _ c (String d r)).
    destruct (Ascii.eqb c " ") eqn:Heq; [exact IH |].
    rewrite rstrip_cons, <- IH.
    destruct (remove_char " " (String d r)); [done | reflexivity].
Qed.

(** Deleting the blanks before or after stripping gives the same string. *)
Lemma normalize_alt s : normalize s = strip (remove_char " " (lower s)).
Proof.
  unfold normalize, strip.
  by rewrite lower_rstrip, lower_lstrip, remove_space_rstrip, remove_space_lstrip.
Qed.

Lemma normalize_insert_space s1 s2 :
  normalize (s1 ++ " " ++ s2)%string = normalize (s1 ++ s2)%string.
Proof.
  rewrite !normalize_alt, !lower_app, !remove_char_app. reflexivity.
Qed.

Lemma normalize_lower s t : lower s = lower t -> normalize s = normalize t.
Proof. intros H. rewrite !normalize_alt. by rewrite H. Qed.

Lemma contains_files c :
  contains FILES c = true ->
  exists i, 0 <= i < 8 /\ str_index FILES c = Ok i /\ String.get (Z.to_nat i) FILES = Some c.
Proof.
  unfold contains, FILES; simpl. intros H.
  repeat (apply orb_prop in H as [H|H];
          [apply Ascii.eqb_eq in H; subst c; eexists; split; [|split; vm_compute; reflexivity]; lia |]).
  discriminate.
Qed.

Lemma contains_ranks c :
  contains RANKS c = true ->
  exists r, 1 <= r <= 8 /\ int_char c = Ok r /\ Z.of_N (code c) = 48 + r.
Proof.
  unfold contains, RANKS; simpl. intros H.
  repeat (apply orb_prop in H as [H|H];
          [apply Ascii.eqb_eq in H; subst c; eexists; split; [|split; vm_compute; reflexivity]; lia |]).
  discriminate.
Qed.

Lemma files_get c (i : nat) :
  String.get i FILES = Some c -> contains FILES c = true /\ str_index FILES c = Ok (Z.of_nat i).
Proof.
  unfold FILES. intros H.
  do 8 (destruct i as [|i]; [injection H as <-; split; reflexivity |]).
  discriminate.
Qed.

Lemma ranks_code c r :
  1 <= r <= 8 -> Z.of_N (code c) = 48 + r ->
  contains RANKS c = true /\ int_char c = Ok r.
Proof.
  intros Hr Hc.
  assert (c = ascii_of_N (Z.to_N (48 + r))) as ->.
  { rewrite <- Hc, N2Z.id. unfold code. by rewrite ascii_N_embedding. }
  assert (r = 1 \/ r = 2 \/ r = 3 \/ r = 4 \/ r = 5 \/ r = 6 \/ r = 7 \/ r = 8) as H by lia.
  repeat destruct H as [->|H]; [..|subst r]; split; reflexivity.
Qed.

End StringFacts.

(** ** Facts about list indexing and board contents *)

Section IndexFacts.

Context {A : Type}.
Implicit Types (l : list A) (i : Z).

Lemma getitem_nonneg l i :
  0 <= i -> getitem l i = match l !! Z.to_nat i with Some a => Ok a | None => Raise IndexError end.
Proof.
  intros Hi. unfold getitem.
  destruct (Z.ltb_spec i 0); [lia |]. destruct (Z.ltb_spec i 0); [lia | done].
Qed.

Lemma getitem_in_range l i :
  0 <= i < Z.of_nat (length l) -> exists a, getitem l i = Ok a /\ l !! Z.to_nat i = Some a.
Proof.
  intros Hi. rewrite getitem_nonneg by lia.
  destruct (lookup_lt_is_Some_2 l (Z.to_nat i)) as [a Ha]; [lia |].
  rewrite Ha. eauto.
Qed.

Lemma getitem_negative l i :
  - Z.of_nat (length l) <= i < 0 ->
  getitem l i = getitem l (i + Z.of_nat (length l)).
Proof.
  intros Hi. rewrite (getitem_nonneg l (i + _)) by lia.
  unfold getitem. destruct (Z.ltb_spec i 0); [|lia].
  destruct (Z.ltb_spec (i + Z.of_nat (length l)) 0); [lia | done].
Qed.

Lemma getitem_too_large l i :
  Z.of_nat (length l) <= i -> getitem l i = Raise IndexError.
Proof.
  intros Hi. rewrite getitem_nonneg by lia.
  rewrite lookup_ge_None_2; [done | lia].
Qed.

Lemma getitem_too_small l i :
  i < - Z.of_nat (length l) -> getitem l i = Raise IndexError.
Proof.
  intros Hi. unfold getitem. destruct (Z.ltb_spec i 0); [|lia].
  destruct (Z.ltb_spec (i + Z.of_nat (length l)) 0); [done | lia].
Qed.

Lemma getitem_not_undef l i : getitem l i <> Undef.
Proof.
  unfold getitem. destruct (_ <? 0); [done |]. by destruct (l !! _).
Qed.

(** The position a Python index denotes. *)
Lemma getitem_Ok l i a :
  getitem l i = Ok a ->
  exists j : nat, l !! j = Some a /\
    Z.of_nat j = (if i <? 0 then i + Z.of_nat (length l) else i).
Proof.
  unfold getitem. set (k := if i <? 0 then _ else _).
  destruct (Z.ltb_spec k 0); [done |].
  destruct (l !! Z.to_nat k) eqn:Hl; [|done]. intros [= ->].
  exists (Z.to_nat k). split; [done | lia].
Qed.

Lemma setitem_Ok l i a l' :
  setitem l i a = Ok l' ->
  exists j : nat, (j < length l)%nat /\ l' = <[j := a]> l /\
    Z.of_nat j = (if i <? 0 then i + Z.of_nat (length l) else i).
Proof.
  unfold setitem. set (k := if i <? 0 then _ else _).
  destruct (Z.ltb_spec k 0); [done |].
  destruct (Z.ltb_spec k (Z.of_nat (length l))); [|done]. intros [= <-].
  exists (Z.to_nat k). split; [lia | split; [done | lia]].
Qed.

Lemma setitem_not_undef l i a : setitem l i a <> Undef.
Proof.
  unfold setitem. destruct (_ <? 0); [done |]. by destruct (_ <? _).
Qed.

(** An index that can be read can be written, and conversely. *)
Lemma setitem_getitem_Ok l i a b :
  getitem l i = Ok b -> exists l', setitem l i a = Ok l'.
Proof.
  unfold getitem, setitem. set (k := if i <? 0 then _ else _).
  destruct (Z.ltb_spec k 0); [done |].
  destruct (l !! Z.to_nat k) eqn:Hl; [|done]. intros _.
  apply lookup_lt_Some in Hl.
  destruct (Z.ltb_spec k (Z.of_nat (length l))); [eauto | lia].
Qed.

Lemma setitem_getitem_err l i a e :
  getitem l i = Raise e -> setitem l i a = Raise e.
Proof.
  unfold getitem, setitem. set (k := if i <? 0 then _ else _).
  destruct (Z.ltb_spec k 0); [by intros [= <-] |].
  destruct (l !! Z.to_nat k) eqn:Hl; [done |]. intros [= <-].
  apply lookup_ge_None in Hl.
  destruct (Z.ltb_spec k (Z.of_nat (length l))); [lia | done].
Qed.

Lemma setitem_length l i a l' : setitem l i a = Ok l' -> length l' = length l.
Proof. intros (j & _ & -> & _)%setitem_Ok. apply length_insert. Qed.

Lemma getitem_setitem_same l i a l' :
  setitem l i a = Ok l' -> getitem l' i = Ok a.
Proof.
  intros Hs. pose proof (setitem_length _ _ _ _ Hs) as Hlen.
  apply setitem_Ok in Hs as (j & Hj & -> & Hk).
  unfold getitem. rewrite Hlen, <- Hk.
  destruct (Z.ltb_spec (Z.of_nat j) 0); [lia |].
  rewrite Nat2Z.id, list_lookup_insert_eq; done.
Qed.

End IndexFacts.

Section ViewFacts.

Lemma getitem_fmap {A B} (f : A -> B) (l : list A) i :
  getitem (f <$> l) i = rbind (getitem l i) (fun a => Ok (f a)).
Proof.
  unfold getitem. rewrite length_fmap, list_lookup_fmap.
  destruct (_ <? 0); [done |]. by destruct (l !! _).
Qed.

Lemma getitem2_view b y x h : getitem2 b y x h = (cell (view h b) y x, h).
Proof.
  unfold getitem2, bind, lift, deref, cell, view. rewrite getitem_fmap.
  destruct (getitem b y) as [l| |]; simpl; [|done..].
  by destruct (h !! l).
Qed.

Lemma view_length h b : length (view h b) = length b.
Proof. unfold view. by rewrite length_fmap. Qed.

Lemma view_lookup h b (j : nat) : view h b !! j = (fun l => h !! l) <$> (b !! j).
Proof. unfold view. by rewrite list_lookup_fmap. Qed.

(** Boards whose rows are untouched between two stores hold the same. *)
Lemma view_extends h h' b : wf_board h b -> extends h h' -> view h' b = view h b.
Proof.
  intros Hwf Hext. unfold view. apply list_fmap_ext.
  intros j l Hl. unfold wf_board in Hwf. rewrite Forall_lookup in Hwf.
  destruct (Hwf j l Hl) as [cells Hc]. by rewrite Hc, (Hext _ _ Hc).
Qed.

Lemma extends_refl h : extends h h.
Proof. by intros l cells. Qed.

Lemma extends_trans h1 h2 h3 : extends h1 h2 -> extends h2 h3 -> extends h1 h3.
Proof. intros H12 H23 l cells Hl. eauto. Qed.

Lemma wf_board_extends h h' b : wf_board h b -> extends h h' -> wf_board h' b.
Proof.
  unfold wf_board. intros Hwf Hext. eapply Forall_impl; [exact Hwf |].
  intros l [cells Hc]. exists cells. by apply Hext.
Qed.

Lemma wf_board_view h b : wf_board h b <-> Forall is_Some (view h b).
Proof. unfold wf_board, view. by rewrite Forall_fmap. Qed.

Lemma wf_board_same_view h1 b1 h2 b2 :
  view h1 b1 = view h2 b2 -> wf_board h1 b1 -> wf_board h2 b2.
Proof. rewrite !wf_board_view. by intros ->. Qed.

Lemma board8_wf h b : board8 h b -> wf_board h b.
Proof.
  intros [_ H]. eapply Forall_impl; [exact H |].
  intros l (cells & Hc & _). by exists cells.
Qed.

Lemma in_bounds_spec x y :
  in_bounds x y = true <-> 0 <= x < 8 /\ 0 <= y < 8.
Proof. unfold in_bounds. lia. Qed.

Lemma board8_total h b : board8 h b -> total (view h b).
Proof.
  intros [Hlen Hrows] x y [Hx Hy]%in_bounds_spec. unfold cell.
  destruct (getitem_in_range (view h b) y) as (o & -> & Ho).
  { rewrite view_length. lia. }
  rewrite view_lookup in Ho.
  destruct (b !! Z.to_nat y) as [l|] eqn:Hl; [|done]. injection Ho as <-.
  rewrite Forall_lookup in Hrows.
  destruct (Hrows _ _ Hl) as (cells & -> & Hc). simpl.
  destruct (getitem_in_range cells x) as (t & -> & _); [lia | eauto].
Qed.

End ViewFacts.

(** ** Reasoning about computations that only read the store *)

Section Robust.

Context {A B : Type}.

Lemma bind_Ok (m : M A) (k : A -> M B) h a h' :
  m h = (Ok a, h') -> bind m k h = k a h'.
Proof. unfold bind. by intros ->. Qed.

Lemma bind_Raise (m : M A) (k : A -> M B) h e h' :
  m h = (Raise e, h') -> bind m k h = (Raise e, h').
Proof. unfold bind. by intros ->. Qed.

Lemma bind_Undef (m : M A) (k : A -> M B) h h' :
  m h = (Undef, h') -> bind m k h = (Undef, h').
Proof. unfold bind. by intros ->. Qed.

Lemma robust_ret tot al h1 h2 (a : A) (P : A -> Prop) :
  P a -> robust tot al h1 h2 (ret a) (ret a) P.
Proof.
  intros HP. exists (Ok a). repeat split; [by intros ? [= <-] | eauto | done].
Qed.

Lemma robust_bind tot al h1 h2 (m1 m2 : M A) (k1 k2 : A -> M B)
    (P : A -> Prop) (Q : B -> Prop) :
  robust tot al h1 h2 m1 m2 P ->
  (forall a, P a -> robust tot al h1 h2 (k1 a) (k2 a) Q) ->
  robust tot al h1 h2 (bind m1 k1) (bind m2 k2) Q.
Proof.
  intros (r & E1 & E2 & HP & Htot & Hal) Hk. destruct r as [a|e|].
  - destruct (Hk a (HP a eq_refl)) as (r' & E1' & E2' & HQ & Htot' & Hal').
    exists r'. by rewrite (bind_Ok _ _ _ _ _ E1), (bind_Ok _ _ _ _ _ E2).
  - exists (Raise e). rewrite (bind_Raise _ _ _ _ _ E1), (bind_Raise _ _ _ _ _ E2).
    repeat split; [done | | done]. intros Ht. by destruct (Htot Ht).
  - exists Undef. rewrite (bind_Undef _ _ _ _ E1), (bind_Undef _ _ _ _ E2).
    repeat split; [done | |].
    + intros Ht. by destruct (Htot Ht).
    + intros Ha _. by apply (Hal Ha).
Qed.

Lemma robust_conseq tot tot' al h1 h2 (m1 m2 : M A) (P P' : A -> Prop) :
  robust tot al h1 h2 m1 m2 P ->
  (forall a, P a -> P' a) -> (tot' -> tot) ->
  robust tot' al h1 h2 m1 m2 P'.
Proof.
  intros (r & E1 & E2 & HP & Htot & Hal) HPP Htt.
  exists r. repeat split; auto.
Qed.

(** The value returned is the one both runs return. *)
Lemma robust_run tot al h1 h2 (m1 m2 : M A) (P : A -> Prop) :
  robust tot al h1 h2 m1 m2 P ->
  robust tot al h1 h2 m1 m2
    (fun a => P a /\ m1 h1 = (Ok a, h1) /\ m2 h2 = (Ok a, h2)).
Proof.
  intros (r & E1 & E2 & HP & Htot & Hal). exists r. repeat split; auto; by subst.
Qed.

End Robust.

Section RobustLoops.

Lemma robust_for_each {A S} tot al h1 h2 (xs : list A) (s : S)
    (body1 body2 : A -> S -> M S) (I : S -> Prop) :
  I s ->
  (forall x s, x ∈ xs -> I s -> robust tot al h1 h2 (body1 x s) (body2 x s) I) ->
  robust tot al h1 h2 (for_each xs s body1) (for_each xs s body2) I.
Proof.
  revert s. induction xs as [|x xs IH]; intros s Hs Hbody; simpl.
  - by apply robust_ret.
  - eapply robust_bind; [apply Hbody; [left | done] |].
    intros s' Hs'. apply IH; [done |]. intros y s'' Hy. apply Hbody. by right.
Qed.

(** A square of a board whose rows are allocated is read or raises. *)
Lemma cell_defined v y x : Forall is_Some v -> cell v y x <> Undef.
Proof.
  intros Hv. unfold cell.
  destruct (getitem v y) as [o|e|] eqn:Ho; simpl; [|done |].
  - apply getitem_Ok in Ho as (j & Hj & _).
    rewrite Forall_lookup in Hv. destruct (Hv _ _ Hj) as [cells ->].
    apply getitem_not_undef.
  - by apply getitem_not_undef in Ho.
Qed.

(** Reading a square of two boards that hold the same. *)
Lemma robust_getitem2 (tot al : Prop) h1 h2 b1 b2 y x :
  view h1 b1 = view h2 b2 ->
  (tot -> exists t, cell (view h1 b1) y x = Ok t) ->
  (al -> Forall is_Some (view h1 b1)) ->
  robust tot al h1 h2 (getitem2 b1 y x) (getitem2 b2 y x)
    (fun t => cell (view h1 b1) y x = Ok t).
Proof.
  intros Hv Htot Hal. exists (cell (view h1 b1) y x).
  rewrite !getitem2_view, <- Hv. repeat split; auto.
  intros Ha. by apply cell_defined, Hal.
Qed.

End RobustLoops.

(** ** The move generator reads the board and nothing else *)

Section Generator.

Variables (h1 h2 : heap) (b1 b2 : list loc).
Hypothesis Hv : view h1 b1 = view h2 b2.
Variables tot al : Prop.
Hypothesis Htot : tot -> total (view h1 b1).
Hypothesis Hal : al -> Forall is_Some (view h1 b1).

Let v := view h1 b1.

Lemma friendly_true t c :
  negb (String.eqb t ".") && bool_decide (color t = Some c) = true ->
  t <> "." /\ color t = Some c.
Proof.
  intros [Hne Hc]%andb_prop. apply bool_decide_eq_true in Hc.
  split; [|done]. intros ->. done.
Qed.

Lemma friendly_false t c :
  negb (String.eqb t ".") && bool_decide (color t = Some c) = false ->
  color t <> Some c.
Proof.
  destruct (String.eqb_spec t ".") as [->|Hne]; simpl; [done |].
  by intros Hc%bool_decide_eq_false.
Qed.

Lemma robust_read y x :
  in_bounds x y = true ->
  robust tot al h1 h2 (getitem2 b1 y x) (getitem2 b2 y x)
    (fun t => cell v y x = Ok t).
Proof. intros Hin. apply robust_getitem2; [done | | done]. intros Ht. by apply Htot. Qed.

Lemma add_robust c res nx ny :
  Forall (ok_dest v c) res ->
  robust tot al h1 h2 (add b1 c res nx ny) (add b2 c res nx ny)
    (fun r => Forall (ok_dest v c) r.1).
Proof.
  intros Hres. unfold add. destruct (in_bounds nx ny) eqn:Hin; simpl.
  2: by apply robust_ret.
  eapply robust_bind; [by apply robust_read |]. intros t Ht.
  destruct (negb _ && _) eqn:Hf; apply robust_ret; simpl; [done |].
  apply Forall_app. split; [done |]. apply Forall_singleton.
  split; [done |]. exists t. split; [done |]. by apply friendly_false.
Qed.

Lemma ray_loop_robust c dx dy fuel : forall res nx ny,
  (in_bounds nx ny = true ->
   (dx <> 0 /\ room dx nx <= Z.of_nat fuel) \/
   (dy <> 0 /\ room dy ny <= Z.of_nat fuel)) ->
  robust tot al h1 h2 (ray_loop fuel b1 c dx dy res nx ny)
    (ray_loop fuel b2 c dx dy res nx ny)
    (fun res' => exists seg, res' = res ++ seg /\ ray_seg v c dx dy nx ny seg).
Proof.
  induction fuel as [|fuel IH]; intros res nx ny Hroom; simpl;
    destruct (in_bounds nx ny) eqn:Hin; simpl.
  - specialize (Hroom eq_refl). apply in_bounds_spec in Hin. unfold room in Hroom.
    destruct (0 <? dx) eqn:?, (dx <? 0) eqn:?, (0 <? dy) eqn:?, (dy <? 0) eqn:?; lia.
  - apply robust_ret. exists []. rewrite app_nil_r. split; [done | by constructor].
  - specialize (Hroom eq_refl).
    eapply robust_bind; [by apply robust_read |]. intros t Ht.
    destruct (negb _ && _) eqn:Hf.
    { apply friendly_true in Hf as [Hne Hc]. apply robust_ret.
      exists []. rewrite app_nil_r. split; [done |]. by apply ray_seg_friend with t. }
    apply friendly_false in Hf.
    destruct (String.eqb_spec t ".") as [->|Hne]; simpl.
    + eapply robust_conseq; [apply IH | | done].
      * intros Hin'. apply in_bounds_spec in Hin, Hin'. unfold room in *.
        destruct (0 <? dx) eqn:?, (dx <? 0) eqn:?, (0 <? dy) eqn:?, (dy <? 0) eqn:?; lia.
      * intros res' (seg & -> & Hseg). exists ((nx, ny) :: seg).
        rewrite <- app_assoc. split; [done |]. by apply ray_seg_empty.
    + apply robust_ret. exists [(nx, ny)]. split; [done |]. by apply ray_seg_enemy with t.
  - apply robust_ret. exists []. rewrite app_nil_r. split; [done | by constructor].
Qed.

Lemma ray_robust c x y res dx dy :
  dx <> 0 \/ dy <> 0 ->
  robust tot al h1 h2 (ray b1 c x y res dx dy) (ray b2 c x y res dx dy)
    (fun res' => exists seg, res' = res ++ seg /\
                             ray_seg v c dx dy (x + dx) (y + dy) seg).
Proof.
  intros Hd. unfold ray. apply ray_loop_robust.
  intros Hin%in_bounds_spec. unfold room.
  destruct (0 <? dx) eqn:?, (dx <? 0) eqn:?, (0 <? dy) eqn:?, (dy <? 0) eqn:?; lia.
Qed.

Lemma ray_seg_ok c dx dy nx ny seg :
  ray_seg v c dx dy nx ny seg -> Forall (ok_dest v c) seg.
Proof.
  induction 1 as [| | nx ny t Hin Ht Hne Hc | nx ny seg Hin Ht Hseg IH]; [done.. | |].
  - apply Forall_singleton. split; [done |]. eauto.
  - apply Forall_cons. split; [|done]. split; [done |]. exists ".". done.
Qed.

Lemma ray_robust_ok c x y res dx dy :
  Forall (ok_dest v c) res -> dx <> 0 \/ dy <> 0 ->
  robust tot al h1 h2 (ray b1 c x y res dx dy) (ray b2 c x y res dx dy)
    (Forall (ok_dest v c)).
Proof.
  intros Hres Hd. eapply robust_conseq; [by apply ray_robust | | done].
  intros res' (seg & -> & Hseg). apply Forall_app. split; [done |].
  by eapply ray_seg_ok.
Qed.

Lemma moves_for_robust x y :
  (tot -> in_bounds x y = true) ->
  robust tot al h1 h2 (moves_for b1 x y) (moves_for b2 x y)
    (fun l => forall piece c, cell v y x = Ok piece -> color piece = Some c ->
              Forall (ok_dest v c) l).
Proof.
  intros Hxy. unfold moves_for.
  eapply robust_bind.
  { apply robust_getitem2; [done | | done]. intros Ht. apply Htot; auto. }
  intros piece Hp. simpl in Hp. fold v in Hp.
  destruct (color piece) as [c|] eqn:Hc.
  2: { apply robust_ret. intros piece' c' Hp'. rewrite Hp in Hp'.
       injection Hp' as <-. congruence. }
  eapply robust_conseq with (P := Forall (ok_dest v c)) (tot := tot); [| |done].
  2: { intros l Hl piece' c' Hp' Hc'. rewrite Hp in Hp'.
       injection Hp' as <-. congruence. }
  destruct (String.eqb (lower piece) "p") eqn:Epawn.
  { (* pawn *)
    set (direction := match c with W => -1 | B => 1 end).
    set (start_row := match c with W => 6 | B => 1 end).
    eapply robust_bind with (P := Forall (ok_dest v c)).
    - destruct (in_bounds x (y + direction)) eqn:Hone; [|by apply robust_ret].
      eapply robust_bind; [by apply robust_read |]. intros t1 Ht1. simpl in Ht1.
      destruct (String.eqb_spec t1 ".") as [->|]; [|by apply robust_ret].
      assert (ok_dest v c (x, y + direction)) as Hok1.
      { split; [done |]. by exists ".". }
      destruct (Z.eqb_spec y start_row) as [Hy|]; [|apply robust_ret; simpl; by apply Forall_singleton].
      eapply robust_bind.
      { apply robust_getitem2; [done | | done]. intros Ht. apply Htot; [done |].
        apply Hxy in Ht. apply in_bounds_spec in Ht. apply in_bounds_spec.
        subst start_row direction. destruct c; lia. }
      intros t2 Ht2. simpl in Ht2. fold v in Ht2.
      destruct (String.eqb_spec t2 ".") as [->|];
        apply robust_ret; simpl; [|by apply Forall_singleton].
      apply Forall_cons. split; [done |]. apply Forall_singleton.
      split; [|by exists "."]. simpl.
      apply in_bounds_spec in Hone. apply in_bounds_spec.
      subst start_row direction. destruct c; lia.
    - intros res Hres.
      eapply robust_bind; [|intros res' Hres'; apply robust_ret; exact Hres'].
      apply robust_for_each; [done |]. intros dx res' _ Hres'.
      destruct (in_bounds (x + dx) (y + direction)) eqn:Hin; [|by apply robust_ret].
      eapply robust_bind; [by apply robust_read |]. intros t Ht. simpl in Ht.
      destruct (negb (String.eqb t ".") && _) eqn:Hcap; apply robust_ret; [|done].
      apply Forall_app. split; [done |]. apply Forall_singleton.
      split; [done |]. exists t. split; [done |].
      apply andb_prop in Hcap as [_ Hcap]. apply negb_true_iff in Hcap.
      by apply bool_decide_eq_false in Hcap. }
  destruct (String.eqb (lower piece) "n") eqn:Eknight.
  { (* knight *)
    eapply robust_bind; [|intros res' Hres'; apply robust_ret; exact Hres'].
    apply robust_for_each; [done |]. intros d res _ Hres.
    eapply robust_bind; [by apply add_robust |].
    intros r Hr. by apply robust_ret. }
  eapply robust_bind with (P := Forall (ok_dest v c)).
  { destruct (_ || _); [|by apply robust_ret].
    repeat (eapply robust_bind; [apply ray_robust_ok; [done | lia] | intros ? ?]).
    apply ray_robust_ok; [done | lia]. }
  intros res Hres.
  eapply robust_bind with (P := Forall (ok_dest v c)).
  { destruct (_ || _); [|by apply robust_ret].
    repeat (eapply robust_bind; [apply ray_robust_ok; [done | lia] | intros ? ?]).
    apply ray_robust_ok; [done | lia]. }
  intros res' Hres'.
  eapply robust_bind; [|intros res'' Hres''; apply robust_ret; exact Hres''].
  destruct (String.eqb (lower piece) "k"); [|by apply robust_ret].
  apply robust_for_each; [done |]. intros dx r1 _ Hr1.
  apply robust_for_each; [done |]. intros dy r2 _ Hr2.
  destruct (_ && _); [by apply robust_ret |].
  eapply robust_bind; [by apply add_robust |].
  intros r Hr. by apply robust_ret.
Qed.

Lemma find_king_robust king sqs :
  Forall (fun sq => in_bounds sq.2 sq.1 = true) sqs ->
  robust tot al h1 h2 (find_king b1 king sqs) (find_king b2 king sqs)
    (fun o => match o with
              | None => forall y x, (y, x) ∈ sqs -> cell v y x <> Ok king
              | Some (kx, ky) =>
                  cell v ky kx = Ok king /\
                  exists pre post, sqs = pre ++ (ky, kx) :: post /\
                    forall y x, (y, x) ∈ pre -> cell v y x <> Ok king
              end).
Proof.
  induction sqs as [|[y x] sqs IH]; intros Hin; simpl.
  - apply robust_ret. intros y x Hyx. by apply elem_of_nil in Hyx.
  - apply Forall_cons in Hin as [Hyx Hin]. simpl in Hyx.
    eapply robust_bind; [by apply robust_read |]. intros t Ht. simpl in Ht.
    destruct (String.eqb_spec t king) as [->|Hne].
    + apply robust_ret. split; [done |]. exists [], sqs. split; [done |].
      intros y' x' H'. by apply elem_of_nil in H'.
    + eapply robust_conseq; [by apply IH | | done].
      intros [[kx ky]|].
      * intros (Hk & pre & post & -> & Hpre). split; [done |].
        exists ((y, x) :: pre), post. split; [done |].
        intros y' x' [[= -> ->]|H']%elem_of_cons; [congruence | by apply Hpre].
      * intros Hnone y' x' [[= -> ->]|H']%elem_of_cons; [congruence | by apply Hnone].
Qed.

Lemma attacks_robust side kp x y :
  in_bounds x y = true ->
  robust tot al h1 h2 (attacks b1 side kp x y) (attacks b2 side kp x y)
    (fun hit => hit = true <-> attacker h1 b1 side kp x y).
Proof.
  intros Hin. unfold attacks.
  eapply robust_bind; [by apply robust_read |]. intros t Ht. simpl in Ht.
  destruct (color t) as [pc|] eqn:Hc.
  2: { apply robust_ret. split; [done |].
       intros (t' & pc' & l & Ht' & Hc' & _). fold v in Ht'. congruence. }
  destruct (bool_decide (pc = side)) eqn:Hside; simpl.
  { apply bool_decide_eq_true in Hside. apply robust_ret. split; [done |].
    intros (t' & pc' & l & Ht' & Hc' & Hne & _). fold v in Ht'. congruence. }
  apply bool_decide_eq_false in Hside.
  eapply robust_bind; [apply robust_run, moves_for_robust; by intros _ |].
  intros l (_ & Hrun & _). apply robust_ret. split.
  - intros Hk%bool_decide_eq_true. by exists t, pc, l.
  - intros (t' & pc' & l' & _ & _ & _ & Hrun' & Hk).
    apply bool_decide_eq_true. congruence.
Qed.

Lemma any_attacker_robust side kp sqs :
  Forall (fun sq => in_bounds sq.2 sq.1 = true) sqs ->
  robust tot al h1 h2 (any_attacker b1 side kp sqs) (any_attacker b2 side kp sqs)
    (fun r => r = true <->
              exists y x, (y, x) ∈ sqs /\ attacker h1 b1 side kp x y).
Proof.
  induction sqs as [|[y x] sqs IH]; intros Hin; simpl.
  - apply robust_ret. split; [done |].
    intros (y & x & Hyx & _). by apply elem_of_nil in Hyx.
  - apply Forall_cons in Hin as [Hyx Hin]. simpl in Hyx.
    eapply robust_bind; [by apply attacks_robust |]. intros hit Hhit.
    destruct hit.
    + apply robust_ret. split; [|done]. intros _. exists y, x.
      split; [by left | by apply Hhit].
    + eapply robust_conseq; [by apply IH | | done].
      intros r Hr. rewrite Hr. split.
      * intros (y' & x' & H' & Ha). exists y', x'. split; [by right | done].
      * intros (y' & x' & [[= -> ->]|H']%elem_of_cons & Ha).
        -- apply Hhit in Ha. done.
        -- by exists y', x'.
Qed.

Lemma squares_in_bounds :
  Forall (fun sq : Z * Z => in_bounds sq.2 sq.1 = true) (product (range 8) (range 8)).
Proof. vm_compute. repeat constructor. Qed.

Lemma is_in_check_robust side :
  robust tot al h1 h2 (is_in_check b1 side) (is_in_check b2 side)
    (fun r => exists o,
       find_king b1 (match side with W => "K" | B => "k" end)
         (product (range 8) (range 8)) h1 = (Ok o, h1) /\
       match o with
       | None => r = false
       | Some kp => r = true <->
           exists y x, (y, x) ∈ product (range 8) (range 8) /\
                       attacker h1 b1 side kp x y
       end).
Proof.
  unfold is_in_check.
  eapply robust_bind;
    [apply robust_run, find_king_robust, squares_in_bounds |].
  intros o (_ & Hrun & _). destruct o as [kp|].
  - eapply robust_conseq;
      [apply any_attacker_robust, squares_in_bounds | | done].
    intros r Hr. by exists (Some kp).
  - apply robust_ret. by exists None.
Qed.

End Generator.

(** ** The notation parser *)

Section Parser.

Lemma contains_files_code c :
  contains FILES c = true <-> 97 <= Z.of_N (code c) <= 104.
Proof.
  split.
  - intros (i & Hi & _ & Hget)%contains_files.
    assert (i = 0 \/ i = 1 \/ i = 2 \/ i = 3 \/ i = 4 \/ i = 5 \/ i = 6 \/ i = 7)
      as H by lia.
    repeat destruct H as [->|H]; [..|subst i];
      vm_compute in Hget; injection Hget as <-; vm_compute; split; discriminate.
  - intros Hc.
    assert (c = ascii_of_N (Z.to_N (Z.of_N (code c)))) as ->.
    { rewrite N2Z.id. unfold code. by rewrite ascii_N_embedding. }
    set (n := Z.of_N (code c)) in *.
    assert (n = 97 \/ n = 98 \/ n = 99 \/ n = 100 \/ n = 101 \/ n = 102
            \/ n = 103 \/ n = 104) as H by lia.
    clearbody n. repeat destruct H as [->|H]; [..|subst n]; reflexivity.
Qed.

Lemma contains_ranks_code c :
  contains RANKS c = true <-> 49 <= Z.of_N (code c) <= 56.
Proof.
  split.
  - intros (r & Hr & _ & Hc)%contains_ranks. lia.
  - intros Hc. apply (ranks_code c (Z.of_N (code c) - 48)); lia.
Qed.

Lemma lower_remove_space s :
  lower (remove_char " " s) = remove_char " " (lower s).
Proof.
  induction s as [|c s IH]; simpl; [done |].
  rewrite lower_char_eqb_space. destruct (Ascii.eqb c " "); simpl; by rewrite IH.
Qed.

Lemma remove_char_idem a s : remove_char a (remove_char a s) = remove_char a s.
Proof.
  induction s as [|c s IH]; simpl; [done |].
  destruct (Ascii.eqb c a) eqn:E; simpl; [done | by rewrite E, IH].
Qed.

Lemma parse_move_normalize s t : normalize s = normalize t -> parse_move s = parse_move t.
Proof. unfold parse_move. by intros ->. Qed.

(** A move is returned exactly for four normalized characters in the
    pattern file, rank, file, rank; nothing is ever raised. *)
Lemma parse_move_cases move :
  (parse_move move = Ok None) \/
  (exists fx fy tx ty a b c d,
     normalize move = String fx (String fy (String tx (String ty EmptyString)))
     /\ str_index FILES fx = Ok a /\ 0 <= a < 8
     /\ int_char fy = Ok b /\ 1 <= b <= 8
     /\ str_index FILES tx = Ok c /\ 0 <= c < 8
     /\ int_char ty = Ok d /\ 1 <= d <= 8
     /\ parse_move move = Ok (Some (a, 8 - b, c, 8 - d))).
Proof.
  unfold parse_move.
  destruct (Z.eqb_spec (Z.of_nat (String.length (normalize move))) 4) as [Hlen|];
    simpl; [|auto].
  destruct (normalize move) as [|fx [|fy [|tx [|ty [|? ?]]]]];
    simpl in Hlen; try lia.
  destruct (contains FILES fx) eqn:E1; simpl; auto.
  destruct (contains FILES tx) eqn:E2; simpl; auto.
  destruct (contains RANKS fy) eqn:E3; simpl; auto.
  destruct (contains RANKS ty) eqn:E4; simpl; auto.
  apply contains_files in E1 as (a & Ha & Ea & _).
  apply contains_files in E2 as (c & Hc & Ec & _).
  apply contains_ranks in E3 as (b & Hb & Eb & _).
  apply contains_ranks in E4 as (d & Hd & Ed & _).
  right. exists fx, fy, tx, ty, a, b, c, d. rewrite Ea, Eb, Ec, Ed. simpl.
  repeat split; try done; lia.
Qed.

(** C6: parse_move maps the file letter at position i of "abcdefgh" to
    column i and the rank digit r to row 8 - r; an input whose normalized
    length is not 4, or whose normalized characters have a file outside
    a..h or a rank outside 1..8, gives None; and whatever the input, the
    result is None or a complete move with all four indices in [0,8) --
    nothing is raised. *)
Theorem C6_parse_move_spec :
  (forall move fx fy tx ty (i k : nat) (r1 r2 : Z),
     normalize move = String fx (String fy (String tx (String ty EmptyString))) ->
     String.get i FILES = Some fx -> String.get k FILES = Some tx ->
     1 <= r1 <= 8 -> Z.of_N (code fy) = 48 + r1 ->
     1 <= r2 <= 8 -> Z.of_N (code ty) = 48 + r2 ->
     parse_move move = Ok (Some (Z.of_nat i, 8 - r1, Z.of_nat k, 8 - r2)))
  /\ (forall move, String.length (normalize move) <> 4%nat ->
        parse_move move = Ok None)
  /\ (forall move fx fy tx ty,
        normalize move = String fx (String fy (String tx (String ty EmptyString))) ->
        ~ (97 <= Z.of_N (code fx) <= 104 /\ 49 <= Z.of_N (code fy) <= 56 /\
           97 <= Z.of_N (code tx) <= 104 /\ 49 <= Z.of_N (code ty) <= 56) ->
        parse_move move = Ok None)
  /\ (forall move,
        parse_move move = Ok None \/
        exists fx fy tx ty, parse_move move = Ok (Some (fx, fy, tx, ty)) /\
          in_bounds fx fy = true /\ in_bounds tx ty = true).
Proof.
  repeat split.
  - intros move fx fy tx ty i k r1 r2 Hn Hi Hk Hr1 Hc1 Hr2 Hc2.
    unfold parse_move. rewrite Hn. simpl.
    destruct (files_get _ _ Hi) as [-> ->], (files_get _ _ Hk) as [-> ->].
    destruct (ranks_code _ _ Hr1 Hc1) as [-> ->].
    destruct (ranks_code _ _ Hr2 Hc2) as [-> ->]. reflexivity.
  - intros move Hlen. unfold parse_move.
    destruct (Z.eqb_spec (Z.of_nat (String.length (normalize move))) 4); [lia | done].
  - intros move fx fy tx ty Hn Hbad. unfold parse_move. rewrite Hn. simpl.
    destruct (contains FILES fx) eqn:E1; simpl; auto.
    destruct (contains FILES tx) eqn:E2; simpl; auto.
    destruct (contains RANKS fy) eqn:E3; simpl; auto.
    destruct (contains RANKS ty) eqn:E4; simpl; auto.
    exfalso. apply Hbad.
    apply contains_files_code in E1, E2. apply contains_ranks_code in E3, E4. done.
  - intros move.
    destruct (parse_move_cases move)
      as [H | (fx & fy & tx & ty & a & b & c & d & _ & _ & Ha & _ & Hb & _ & Hc & _ & Hd & H)];
      [by left | right].
    exists a, (8 - b), c, (8 - d). split; [done |].
    split; apply in_bounds_spec; lia.
Qed.

Lemma C6_parse_move_spec_witness :
  parse_move "e2e4" = Ok (Some (4, 6, 4, 4))
  /\ parse_move "a8h1" = Ok (Some (0, 0, 7, 7))
  /\ parse_move "e2e" = Ok None
  /\ parse_move "e2i4" = Ok None
  /\ parse_move "e9e4" = Ok None.
Proof.
  destruct C6_parse_move_spec as (Hmap & Hlen & Hbad & _).
  split; [|split; [|split; [|split]]].
  - apply (Hmap "e2e4" "e"%char "2"%char "e"%char "4"%char 4%nat 4%nat 2 4);
      first [reflexivity | lia].
  - apply (Hmap "a8h1" "a"%char "8"%char "h"%char "1"%char 0%nat 7%nat 8 1);
      first [reflexivity | lia].
  - apply (Hlen "e2e"). vm_compute. discriminate.
  - apply (Hbad "e2i4" "e"%char "2"%char "i"%char "4"%char); [reflexivity |].
    intros (_ & _ & [_ H] & _). vm_compute in H. by apply H.
  - apply (Hbad "e9e4" "e"%char "9"%char "e"%char "4"%char); [reflexivity |].
    intros (_ & [_ H] & _). vm_compute in H. by apply H.
Defined.

(** C10: parse_move deletes every space of its input, wherever it stands,
    and lowercases the input before it validates: the input with its spaces
    deleted, or lowercased, parses to the same result, so inserting a space
    anywhere or rewriting the input in another letter case changes nothing;
    "e 2 e 4" and "E2E4" parse to the move of "e2e4". *)
Theorem C10_parse_move_spaces_and_case :
  (forall move, parse_move (remove_char " " move) = parse_move move)
  /\ (forall move, parse_move (lower move) = parse_move move)
  /\ (forall s1 s2, parse_move (s1 ++ " " ++ s2)%string = parse_move (s1 ++ s2)%string)
  /\ (forall s t, lower s = lower t -> parse_move s = parse_move t)
  /\ parse_move "e 2 e 4" = parse_move "e2e4"
  /\ parse_move "E2E4" = parse_move "e2e4"
  /\ parse_move "e2e4" = Ok (Some (4, 6, 4, 4)).
Proof.
  split; [|split; [|split; [|split; [|repeat split]]]].
  - intros move. apply parse_move_normalize.
    by rewrite !normalize_alt, lower_remove_space, remove_char_idem.
  - intros move. apply parse_move_normalize. apply normalize_lower, lower_idem.
  - intros s1 s2. apply parse_move_normalize, normalize_insert_space.
  - intros s t Hst. by apply parse_move_normalize, normalize_lower.
Qed.

Lemma C10_parse_move_spaces_and_case_witness :
  parse_move "E2e4" = parse_move "e2E4"
  /\ parse_move ("E2" ++ " " ++ "e4")%string = Ok (Some (4, 6, 4, 4)).
Proof.
  destruct C10_parse_move_spaces_and_case as (_ & _ & Hsp & Hcase & _).
  split.
  - apply (Hcase "E2e4" "e2E4"). reflexivity.
  - rewrite (Hsp "E2" "e4"). reflexivity.
Defined.

End Parser.

(** ** The move generator on one board *)

Section MoveGenerator.

Lemma new_board_start : new_board ∅ = (Ok start_board, start_heap).
Proof. vm_compute. reflexivity. Qed.

Lemma start_board8 : board8 start_heap start_board.
Proof.
  board8_by_compute.
Qed.

Lemma getitem2_cell h b y x t :
  getitem2 b y x h = (Ok t, h) <-> cell (view h b) y x = Ok t.
Proof. rewrite getitem2_view. split; [by intros [= ->] | by intros ->]. Qed.

(** [moves_for] leaves the store alone; what it returns avoids the squares of
    the mover's side; on an 8 by 8 board it returns for every square of the
    board. *)
Lemma moves_for_reads h b x y :
  exists r, moves_for b x y h = (r, h) /\
    (forall l, r = Ok l -> forall piece c,
       cell (view h b) y x = Ok piece -> color piece = Some c ->
       Forall (ok_dest (view h b) c) l) /\
    (board8 h b -> in_bounds x y = true -> exists l, r = Ok l) /\
    (wf_board h b -> r <> Undef).
Proof.
  destruct (moves_for_robust h h b b eq_refl
              (board8 h b /\ in_bounds x y = true) (wf_board h b)
              (fun H => board8_total _ _ (proj1 H))
              (fun H => proj1 (wf_board_view _ _) H) x y (fun H => proj2 H))
    as (r & E & _ & HP & Ht & Ha).
  exists r. repeat split; auto.
Qed.

(** On a store in which the rows of the board are allocated, every run of
    [moves_for] is one that Python has: a list or an exception. *)
Lemma moves_for_defined h b x y :
  wf_board h b -> (moves_for b x y h).1 <> Undef.
Proof.
  intros Hwf. destruct (moves_for_reads h b x y) as (r & E & _ & _ & Hd).
  rewrite E. by apply Hd.
Qed.

(** What [moves_for] returns depends on what the board holds, not on which
    row objects hold it. *)
Lemma moves_for_same_view h1 h2 b1 b2 x y :
  view h1 b1 = view h2 b2 ->
  (moves_for b1 x y h1).1 = (moves_for b2 x y h2).1.
Proof.
  intros Hv.
  destruct (moves_for_robust h1 h2 b1 b2 Hv False False) with (x := x) (y := y)
    as (r & E1 & E2 & _); [done.. |].
  by rewrite E1, E2.
Qed.

Lemma moves_for_empty h b x y piece :
  getitem2 b y x h = (Ok piece, h) -> color piece = None ->
  moves_for b x y h = (Ok [], h).
Proof.
  intros Hp Hc. unfold moves_for. rewrite (bind_Ok _ _ _ _ _ Hp), Hc. done.
Qed.

(** C2: whatever the board and the square, no destination returned by
    moves_for is occupied by a piece of the colour of the piece on the source
    square (each destination can be read, and what it holds is empty or of
    the other colour); and on an 8 by 8 board moves_for does return a list
    for every square of the board. *)
Theorem C2_no_friendly_destination h b x y :
  (forall l h' piece nx ny,
     moves_for b x y h = (Ok l, h') ->
     getitem2 b y x h = (Ok piece, h) ->
     (nx, ny) ∈ l ->
     exists target, getitem2 b ny nx h = (Ok target, h) /\
                    color target <> color piece)
  /\ (board8 h b -> in_bounds x y = true ->
      exists l, moves_for b x y h = (Ok l, h)).
Proof.
  destruct (moves_for_reads h b x y) as (r & E & HP & Ht & _). split.
  - intros l h' piece nx ny Hrun Hpiece Hin.
    rewrite E in Hrun. injection Hrun as -> <-.
    destruct (color piece) as [c|] eqn:Hc.
    + apply getitem2_cell in Hpiece.
      specialize (HP l eq_refl piece c Hpiece Hc).
      rewrite Forall_forall in HP.
      destruct (HP _ Hin) as (_ & t & Ht' & Hne). simpl in *.
      exists t. split; [by apply getitem2_cell | done].
    + rewrite (moves_for_empty _ _ _ _ _ Hpiece Hc) in E.
      injection E as <-. by apply elem_of_nil in Hin.
  - intros H8 Hin. destruct (Ht H8 Hin) as [l ->]. eauto.
Qed.

Lemma C2_no_friendly_destination_witness :
  (exists target, getitem2 start_board 5 2 start_heap = (Ok target, start_heap) /\
                  color target <> color "N")
  /\ exists l, moves_for start_board 1 7 start_heap = (Ok l, start_heap).
Proof.
  destruct (C2_no_friendly_destination start_heap start_board 1 7) as [Hno Htot].
  split.
  - apply (Hno [(2, 5); (0, 5)] start_heap "N" 2 5).
    + vm_compute. reflexivity.
    + vm_compute. reflexivity.
    + apply elem_of_cons. by left.
  - apply Htot; [exact start_board8 | reflexivity].
Defined.

(** C9: moves_for returns its list without modifying the board: the store
    after the call is the store before it, so the board holds what it held,
    and a second call with the same arguments returns what the first
    returned; on an 8 by 8 board and an in-bounds square what it returns is
    a destination list. *)
Theorem C9_moves_for_reads_only h b x y :
  (moves_for b x y h).2 = h
  /\ view (moves_for b x y h).2 b = view h b
  /\ (moves_for b x y (moves_for b x y h).2).1 = (moves_for b x y h).1
  /\ (board8 h b -> in_bounds x y = true ->
      exists l, moves_for b x y h = (Ok l, h)).
Proof.
  destruct (moves_for_reads h b x y) as (r & E & _ & Ht & _).
  rewrite E. simpl. rewrite E. simpl. repeat split; try done.
  intros H8 Hin. destruct (Ht H8 Hin) as [l ->]. eauto.
Qed.

Lemma C9_moves_for_reads_only_witness :
  exists l, moves_for start_board 4 6 start_heap = (Ok l, start_heap).
Proof.
  apply (C9_moves_for_reads_only start_heap start_board 4 6);
    [exact start_board8 | reflexivity].
Defined.

End MoveGenerator.

(** ** Out-of-range squares *)

Section OutOfRange.

Lemma getitem_wrap {A} (l : list A) i :
  - Z.of_nat (length l) <= i < Z.of_nat (length l) ->
  exists a, getitem l i = Ok a /\
            getitem l (i mod Z.of_nat (length l)) = Ok a.
Proof.
  intros Hi. destruct (Z.ltb_spec i 0).
  - rewrite getitem_negative by lia.
    destruct (getitem_in_range l (i + Z.of_nat (length l))) as (a & Ha & _); [lia |].
    exists a. split; [done |].
    replace (i mod Z.of_nat (length l)) with (i + Z.of_nat (length l)); [done |].
    apply Z.mod_unique with (-1); lia.
  - destruct (getitem_in_range l i) as (a & Ha & _); [lia |].
    exists a. split; [done |]. by rewrite Z.mod_small by lia.
Qed.

Lemma cell_wrap h b x y :
  board8 h b -> - 8 <= x < 8 -> - 8 <= y < 8 ->
  exists t, cell (view h b) y x = Ok t /\
            cell (view h b) (y mod 8) (x mod 8) = Ok t.
Proof.
  intros [Hlen Hrows] Hx Hy. unfold cell.
  destruct (getitem_wrap (view h b) y) as (o & Ho & Ho').
  { rewrite view_length. lia. }
  rewrite view_length, Hlen in Ho'. rewrite Ho. change (Z.of_nat 8) with 8 in Ho'.
  rewrite Ho'. simpl.
  apply getitem_Ok in Ho as (j & Hj & _). rewrite view_lookup in Hj.
  destruct (b !! j) as [l|] eqn:Hl; [|done]. injection Hj as <-.
  rewrite Forall_lookup in Hrows.
  destruct (Hrows _ _ Hl) as (cells & -> & Hc).
  destruct (getitem_wrap cells x) as (t & Ht & Ht'); [lia |].
  rewrite Hc in Ht'. exists t. done.
Qed.

Lemma cell_out_of_range h b x y :
  board8 h b -> x < - 8 \/ 8 <= x \/ y < - 8 \/ 8 <= y ->
  cell (view h b) y x = Raise IndexError.
Proof.
  intros H8 Hout. unfold cell.
  destruct (Z.ltb_spec y (-8)).
  { rewrite getitem_too_small; [done |]. rewrite view_length, (proj1 H8). lia. }
  destruct (Z.leb_spec 8 y).
  { rewrite getitem_too_large; [done |]. rewrite view_length, (proj1 H8). lia. }
  destruct H8 as [Hlen Hrows].
  destruct (getitem_wrap (view h b) y) as (o & Ho & _).
  { rewrite view_length. lia. }
  rewrite Ho. simpl.
  apply getitem_Ok in Ho as (j & Hj & _). rewrite view_lookup in Hj.
  destruct (b !! j) as [l|] eqn:Hl; [|done]. injection Hj as <-.
  rewrite Forall_lookup in Hrows.
  destruct (Hrows _ _ Hl) as (cells & -> & Hc).
  destruct (Z.ltb_spec x (-8)).
  { rewrite getitem_too_small; [done | lia]. }
  rewrite getitem_too_large; [done | lia].
Qed.

(** C7, as the code has it: on an 8 by 8 board, reading a square with a
    coordinate below -8 or above 7 raises IndexError, in [board[y][x]]
    and so in moves_for; a square with both coordinates in [-8, 8) is read
    without error, a negative coordinate counting from the end, so that the
    square read is (x mod 8, y mod 8). *)
Theorem C7_index_error_outside_wrap h b x y :
  board8 h b ->
  (x < - 8 \/ 8 <= x \/ y < - 8 \/ 8 <= y ->
   getitem2 b y x h = (Raise IndexError, h) /\
   moves_for b x y h = (Raise IndexError, h))
  /\ (- 8 <= x < 8 -> - 8 <= y < 8 ->
      exists t, getitem2 b y x h = (Ok t, h) /\
                getitem2 b (y mod 8) (x mod 8) h = (Ok t, h)).
Proof.
  intros H8. split.
  - intros Hout.
    assert (getitem2 b y x h = (Raise IndexError, h)) as E.
    { by rewrite getitem2_view, cell_out_of_range. }
    split; [done |]. unfold moves_for. by rewrite (bind_Raise _ _ _ _ _ E).
  - intros Hx Hy. destruct (cell_wrap h b x y H8 Hx Hy) as (t & Ht & Ht').
    exists t. by rewrite !getitem2_view, Ht, Ht'.
Qed.

Lemma C7_index_error_outside_wrap_witness :
  (getitem2 start_board 8 0 start_heap = (Raise IndexError, start_heap) /\
   moves_for start_board 0 8 start_heap = (Raise IndexError, start_heap))
  /\ exists t, getitem2 start_board (-1) (-3) start_heap = (Ok t, start_heap) /\
       getitem2 start_board ((-1) mod 8) ((-3) mod 8) start_heap
       = (Ok t, start_heap).
Proof.
  split.
  - apply (C7_index_error_outside_wrap start_heap start_board 0 8 start_board8).
    lia.
  - apply (C7_index_error_outside_wrap start_heap start_board (-3) (-1) start_board8);
      lia.
Defined.

(** C7 as stated fails: on the starting board the square (-1, -1) is
    outside [0,8) x [0,8), yet reading it returns the rook of the last row
    and last column instead of raising, and moves_for returns a list for
    it. *)
Lemma C7_counterexample :
  ~ (forall h b x y, board8 h b -> in_bounds x y = false ->
       (getitem2 b y x h).1 = Raise IndexError)
  /\ ~ (forall h b x y, board8 h b -> in_bounds x y = false ->
          (moves_for b x y h).1 = Raise IndexError).
Proof.
  split; intros H;
    specialize (H start_heap start_board (-1) (-1) start_board8 eq_refl);
    vm_compute in H; discriminate.
Qed.

End OutOfRange.

(** ** Rays *)

Section Rays.

Variables (v : list (option (list string))) (c : colour) (dx dy : Z).
Hypothesis Hd : dx <> 0 \/ dy <> 0.

Lemma ray_seg_only nx ny seg :
  ray_seg v c dx dy nx ny seg ->
  forall sq, sq ∈ seg -> exists k, 0 <= k /\ sq = (nx + k * dx, ny + k * dy).
Proof.
  induction 1 as [| | nx ny t Hin Ht Hne Hc | nx ny seg Hin Ht Hseg IH];
    intros sq Hsq.
  - by apply elem_of_nil in Hsq.
  - by apply elem_of_nil in Hsq.
  - apply list_elem_of_singleton in Hsq as ->. exists 0. split; [lia |].
    f_equal; lia.
  - apply elem_of_cons in Hsq as [->|Hsq].
    + exists 0. split; [lia |]. f_equal; lia.
    + destruct (IH _ Hsq) as (k & Hk & ->). exists (k + 1). split; [lia |].
      f_equal; lia.
Qed.

Lemma step_injective nx ny k :
  (nx + k * dx, ny + k * dy) = (nx, ny) -> k = 0.
Proof. intros [= Hx Hy]. destruct Hd; nia. Qed.

(** Square number [k] along the ray is taken exactly when it is on the
    board, every square before it is empty, and it is not held by [c]. *)
Lemma ray_seg_iff nx ny seg :
  ray_seg v c dx dy nx ny seg ->
  forall k, 0 <= k ->
    (nx + k * dx, ny + k * dy) ∈ seg <->
    in_bounds (nx + k * dx) (ny + k * dy) = true
    /\ (forall j, 0 <= j < k ->
          in_bounds (nx + j * dx) (ny + j * dy) = true /\
          cell v (ny + j * dy) (nx + j * dx) = Ok ".")
    /\ exists t, cell v (ny + k * dy) (nx + k * dx) = Ok t /\ color t <> Some c.
Proof.
  induction 1 as [nx ny Hout | nx ny t Hin Ht Hne Hc | nx ny t Hin Ht Hne Hc
                 | nx ny seg Hin Ht Hseg IH]; intros k Hk.
  - split; [by intros ?%elem_of_nil |]. intros (Hink & Hbefore & _).
    destruct (decide (k = 0)) as [->|].
    + rewrite !Z.mul_0_l, !Z.add_0_r in Hink. congruence.
    + destruct (Hbefore 0) as [H0 _]; [lia |].
      rewrite !Z.mul_0_l, !Z.add_0_r in H0. congruence.
  - split; [by intros ?%elem_of_nil |]. intros (Hink & Hbefore & t' & Ht' & Hc').
    destruct (decide (k = 0)) as [->|].
    + rewrite !Z.mul_0_l, !Z.add_0_r in Ht'. congruence.
    + destruct (Hbefore 0) as [_ H0]; [lia |].
      rewrite !Z.mul_0_l, !Z.add_0_r in H0. congruence.
  - split.
    + intros Hsq%list_elem_of_singleton. apply step_injective in Hsq as ->.
      rewrite !Z.mul_0_l, !Z.add_0_r. split; [done |]. split; [lia |]. eauto.
    + intros (Hink & Hbefore & _). destruct (decide (k = 0)) as [->|].
      * rewrite !Z.mul_0_l, !Z.add_0_r. by apply list_elem_of_singleton.
      * destruct (Hbefore 0) as [_ H0]; [lia |].
        rewrite !Z.mul_0_l, !Z.add_0_r in H0. congruence.
  - destruct (decide (k = 0)) as [->|Hk0].
    + rewrite !Z.mul_0_l, !Z.add_0_r. split; [|intros _; by left].
      intros _. split; [done |]. split; [lia |]. by exists ".".
    + assert (forall j, nx + dx + (j - 1) * dx = nx + j * dx) as Ex by (intros; lia).
      assert (forall j, ny + dy + (j - 1) * dy = ny + j * dy) as Ey by (intros; lia).
      specialize (IH (k - 1)). rewrite Ex, Ey in IH. split.
      * intros [Hsq|Hsq]%elem_of_cons.
        { apply step_injective in Hsq. lia. }
        apply IH in Hsq as (Hink & Hbefore & Hfree); [|lia].
        split; [done |]. split; [|done]. intros j Hj.
        destruct (decide (j = 0)) as [->|].
        { by rewrite !Z.mul_0_l, !Z.add_0_r. }
        specialize (Hbefore (j - 1)). rewrite Ex, Ey in Hbefore.
        apply Hbefore. lia.
      * intros (Hink & Hbefore & Hfree). right. apply IH; [lia |].
        split; [done |]. split; [|done]. intros j Hj.
        replace (nx + dx + j * dx) with (nx + (j + 1) * dx) by lia.
        replace (ny + dy + j * dy) with (ny + (j + 1) * dy) by lia.
        apply Hbefore. lia.
Qed.

End Rays.

Section SlidingPieces.

Lemma ray_run h b c x y res dx dy :
  board8 h b -> dx <> 0 \/ dy <> 0 ->
  exists seg, ray b c x y res dx dy h = (Ok (res ++ seg), h) /\
              ray_seg (view h b) c dx dy (x + dx) (y + dy) seg.
Proof.
  intros H8 Hd.
  destruct (ray_robust h h b b eq_refl (total (view h b)) False (fun H => H)
              (fun H : False => match H with end)
              c x y res dx dy Hd) as (r & E & _ & HP & Ht & _).
  destruct (Ht (board8_total _ _ H8)) as [res' ->].
  destruct (HP res' eq_refl) as (seg & -> & Hseg). eauto.
Qed.

(** The squares a ray takes, counted from the piece. *)
Lemma ray_seg_from h b c x y dx dy seg :
  in_bounds x y = true -> dx <> 0 \/ dy <> 0 ->
  ray_seg (view h b) c dx dy (x + dx) (y + dy) seg ->
  (forall sq, sq ∈ seg -> exists k, 1 <= k /\ sq = (x + k * dx, y + k * dy))
  /\ forall k, 1 <= k ->
       (x + k * dx, y + k * dy) ∈ seg <->
       in_bounds (x + k * dx) (y + k * dy) = true
       /\ (forall j, 1 <= j < k ->
             getitem2 b (y + j * dy) (x + j * dx) h = (Ok ".", h))
       /\ exists t, getitem2 b (y + k * dy) (x + k * dx) h = (Ok t, h) /\
                    color t <> Some c.
Proof.
  intros Hxy Hd Hseg. split.
  - intros sq Hsq.
    destruct (ray_seg_only _ _ _ _ _ _ _ Hseg sq Hsq) as (k & Hk & ->).
    exists (k + 1). split; [lia |]. f_equal; lia.
  - intros k Hk.
    pose proof (ray_seg_iff _ _ _ _ Hd _ _ _ Hseg (k - 1)) as Hiff.
    replace (x + dx + (k - 1) * dx) with (x + k * dx) in Hiff by lia.
    replace (y + dy + (k - 1) * dy) with (y + k * dy) in Hiff by lia.
    rewrite Hiff by lia. clear Hiff.
    split; intros (Hink & Hbefore & t & Ht & Hc).
    + split; [done |]. split; [|exists t; by rewrite getitem2_cell].
      intros j Hj. apply getitem2_cell.
      destruct (Hbefore (j - 1)) as [_ H]; [lia |].
      replace (x + dx + (j - 1) * dx) with (x + j * dx) in H by lia.
      by replace (y + dy + (j - 1) * dy) with (y + j * dy) in H by lia.
    + split; [done |]. split; [|exists t; by rewrite <- getitem2_cell].
      intros j Hj.
      replace (x + dx + j * dx) with (x + (j + 1) * dx) by lia.
      replace (y + dy + j * dy) with (y + (j + 1) * dy) by lia.
      split; [|apply getitem2_cell, Hbefore; lia].
      apply in_bounds_spec in Hxy, Hink. apply in_bounds_spec.
      assert (0 <= j + 1 <= k) as Hjk by lia. nia.
Qed.

(** C3: on an 8 by 8 board, with a piece of colour c on the in-bounds
    square (x, y), each call of ray in a direction (dx, dy) other than
    (0, 0) appends one segment to the list it is given, and that segment
    holds only squares (x + k dx, y + k dy) with k >= 1, and holds such a
    square exactly when it is on the board, every square of the ray before
    it is empty, and it is itself empty or held by the other colour.  So the
    run of empty squares is included, the first occupied square is included
    if it is an enemy and excluded if it is friendly, and nothing beyond the
    first occupied square is included.  For a bishop, rook or queen,
    moves_for returns the concatenation of such segments, one per direction
    of the piece. *)
Theorem C3_sliding_rays h b x y piece c :
  board8 h b -> in_bounds x y = true ->
  getitem2 b y x h = (Ok piece, h) -> color piece = Some c ->
  let on_ray (d : Z * Z) (seg : list (Z * Z)) :=
    (forall sq, sq ∈ seg ->
       exists k, 1 <= k /\ sq = (x + k * d.1, y + k * d.2))
    /\ forall k, 1 <= k ->
         (x + k * d.1, y + k * d.2) ∈ seg <->
         in_bounds (x + k * d.1) (y + k * d.2) = true
         /\ (forall j, 1 <= j < k ->
               getitem2 b (y + j * d.2) (x + j * d.1) h = (Ok ".", h))
         /\ exists t, getitem2 b (y + k * d.2) (x + k * d.1) h = (Ok t, h) /\
                      color t <> Some c in
  (forall res d, d.1 <> 0 \/ d.2 <> 0 ->
     exists seg, ray b c x y res d.1 d.2 h = (Ok (res ++ seg), h) /\ on_ray d seg)
  /\ (lower piece = "b" \/ lower piece = "r" \/ lower piece = "q" ->
      exists segs,
        moves_for b x y h = (Ok (concat segs), h) /\
        Forall2 on_ray (ray_directions (lower piece)) segs).
Proof.
  intros H8 Hxy Hpiece Hc on_ray.
  assert (forall res dx dy, dx <> 0 \/ dy <> 0 ->
            exists seg, ray b c x y res dx dy h = (Ok (res ++ seg), h) /\
              ray_seg (view h b) c dx dy (x + dx) (y + dy) seg) as Hray.
  { intros. by apply ray_run. }
  assert (forall d seg, d.1 <> 0 \/ d.2 <> 0 ->
            ray_seg (view h b) c d.1 d.2 (x + d.1) (y + d.2) seg ->
            on_ray d seg) as Hok.
  { intros d seg Hd Hseg. by apply ray_seg_from. }
  split.
  { intros res d Hd. destruct (Hray res d.1 d.2 Hd) as (seg & E & Hseg).
    exists seg. split; [done | by apply Hok]. }
  intros Hslide.
  unfold moves_for. rewrite (bind_Ok _ _ _ _ _ Hpiece), Hc.
  destruct Hslide as [E|[E|E]]; rewrite E; simpl.
  - destruct (Hray [] 1 1) as (s1 & E1 & R1); [lia |].
    destruct (Hray ([] ++ s1) 1 (-1)) as (s2 & E2 & R2); [lia |].
    destruct (Hray (([] ++ s1) ++ s2) (-1) 1) as (s3 & E3 & R3); [lia |].
    destruct (Hray ((([] ++ s1) ++ s2) ++ s3) (-1) (-1)) as (s4 & E4 & R4); [lia |].
    exists [s1; s2; s3; s4]. split.
    + unfold bind. rewrite E1, E2, E3, E4. simpl.
      by rewrite app_nil_r, <- !app_assoc.
    + repeat (apply Forall2_cons; split; [apply (Hok (_, _)); [simpl; lia | done] |]).
      apply Forall2_nil_2.
  - destruct (Hray [] 1 0) as (s1 & E1 & R1); [lia |].
    destruct (Hray ([] ++ s1) (-1) 0) as (s2 & E2 & R2); [lia |].
    destruct (Hray (([] ++ s1) ++ s2) 0 1) as (s3 & E3 & R3); [lia |].
    destruct (Hray ((([] ++ s1) ++ s2) ++ s3) 0 (-1)) as (s4 & E4 & R4); [lia |].
    exists [s1; s2; s3; s4]. split.
    + unfold bind. simpl. rewrite E1, E2, E3, E4. simpl.
      by rewrite app_nil_r, <- !app_assoc.
    + repeat (apply Forall2_cons; split; [apply (Hok (_, _)); [simpl; lia | done] |]).
      apply Forall2_nil_2.
  - destruct (Hray [] 1 1) as (s1 & E1 & R1); [lia |].
    destruct (Hray ([] ++ s1) 1 (-1)) as (s2 & E2 & R2); [lia |].
    destruct (Hray (([] ++ s1) ++ s2) (-1) 1) as (s3 & E3 & R3); [lia |].
    destruct (Hray ((([] ++ s1) ++ s2) ++ s3) (-1) (-1)) as (s4 & E4 & R4); [lia |].
    set (r4 := ((([] ++ s1) ++ s2) ++ s3) ++ s4) in *.
    destruct (Hray r4 1 0) as (s5 & E5 & R5); [lia |].
    destruct (Hray (r4 ++ s5) (-1) 0) as (s6 & E6 & R6); [lia |].
    destruct (Hray ((r4 ++ s5) ++ s6) 0 1) as (s7 & E7 & R7); [lia |].
    destruct (Hray (((r4 ++ s5) ++ s6) ++ s7) 0 (-1)) as (s8 & E8 & R8); [lia |].
    exists [s1; s2; s3; s4; s5; s6; s7; s8]. split.
    + unfold bind. rewrite E1, E2, E3, E4. simpl. rewrite E5, E6, E7, E8. simpl.
      subst r4. by rewrite app_nil_r, <- !app_assoc.
    + repeat (apply Forall2_cons; split; [apply (Hok (_, _)); [simpl; lia | done] |]).
      apply Forall2_nil_2.
Qed.

End SlidingPieces.

(** ** Pawns *)

Section Pawns.

Variables (h : heap) (b : list loc).
Variables tot al : Prop.
Hypothesis Htot : tot -> total (view h b).
Hypothesis Hal : al -> Forall is_Some (view h b).

Let read := robust_read h h b b eq_refl tot al Htot Hal.

(** One diagonal test of the pawn branch. *)
Lemma capture_robust c res nx ny :
  robust tot al h h
    (if in_bounds nx ny then
       t <- getitem2 b ny nx ;;
       if negb (String.eqb t ".") && negb (bool_decide (color t = Some c))
       then ret (res ++ [(nx, ny)]) else ret res
     else ret res)
    (if in_bounds nx ny then
       t <- getitem2 b ny nx ;;
       if negb (String.eqb t ".") && negb (bool_decide (color t = Some c))
       then ret (res ++ [(nx, ny)]) else ret res
     else ret res)
    (fun res' => exists caps, res' = res ++ caps /\
       ((caps = [(nx, ny)] /\ in_bounds nx ny = true /\
         exists t, getitem2 b ny nx h = (Ok t, h) /\ t <> "." /\ color t <> Some c)
        \/ (caps = [] /\
            ~ (in_bounds nx ny = true /\
               exists t, getitem2 b ny nx h = (Ok t, h) /\ t <> "." /\
                         color t <> Some c)))).
Proof.
  destruct (in_bounds nx ny) eqn:Hin.
  2: { apply robust_ret. exists []. rewrite app_nil_r. split; [done |].
       right. split; [done |]. by intros [? _]. }
  eapply robust_bind; [by apply read |]. intros t Ht. simpl in Ht.
  apply getitem2_cell in Ht.
  destruct (String.eqb_spec t ".") as [->|Hne]; simpl.
  { apply robust_ret. exists []. rewrite app_nil_r. split; [done |].
    right. split; [done |]. intros (_ & t' & Ht' & Hne' & _). congruence. }
  destruct (bool_decide (color t = Some c)) eqn:Hc; simpl.
  - apply bool_decide_eq_true in Hc. apply robust_ret.
    exists []. rewrite app_nil_r. split; [done |].
    right. split; [done |]. intros (_ & t' & Ht' & _ & Hc'). congruence.
  - apply bool_decide_eq_false in Hc. apply robust_ret.
    exists [(nx, ny)]. split; [done |]. left. eauto 10.
Qed.

End Pawns.

Section PawnMoves.

(** C8: on an 8 by 8 board, a pawn on its starting row (6 for White,
    1 for Black) with the two squares ahead of it empty gets from moves_for
    the two straight-forward destinations followed by the diagonal captures:
    at most two, each of the two forward diagonal squares being a
    destination exactly when it is on the board and held by an enemy piece;
    and on any board a pawn that is not on its starting row gets at most
    one destination in its own file. *)
Theorem C8_pawn_destinations h b x y piece c :
  getitem2 b y x h = (Ok piece, h) -> lower piece = "p" ->
  color piece = Some c ->
  (board8 h b -> in_bounds x y = true -> y = pawn_start_row c ->
   getitem2 b (y + pawn_direction c) x h = (Ok ".", h) ->
   getitem2 b (y + 2 * pawn_direction c) x h = (Ok ".", h) ->
   exists caps,
     moves_for b x y h
     = (Ok ([(x, y + pawn_direction c); (x, y + 2 * pawn_direction c)] ++ caps), h)
     /\ (length caps <= 2)%nat
     /\ NoDup caps
     /\ forall sq, sq ∈ caps <->
          (sq = (x - 1, y + pawn_direction c) \/ sq = (x + 1, y + pawn_direction c))
          /\ in_bounds sq.1 sq.2 = true
          /\ exists t, getitem2 b sq.2 sq.1 h = (Ok t, h) /\ t <> "." /\
                       color t <> Some c)
  /\ (y <> pawn_start_row c ->
      forall l h', moves_for b x y h = (Ok l, h') ->
        (length (filter (fun d : Z * Z => d.1 = x) l) <= 1)%nat).
Proof.
  intros Hpiece Hlow Hc. split.
  - intros H8 Hxy Hy H1 H2.
    assert (robust True False h h (moves_for b x y) (moves_for b x y)
      (fun l => exists caps,
         l = [(x, y + pawn_direction c); (x, y + 2 * pawn_direction c)] ++ caps
         /\ (length caps <= 2)%nat /\ NoDup caps
         /\ forall sq, sq ∈ caps <->
              (sq = (x - 1, y + pawn_direction c) \/ sq = (x + 1, y + pawn_direction c))
              /\ in_bounds sq.1 sq.2 = true
              /\ exists t, getitem2 b sq.2 sq.1 h = (Ok t, h) /\ t <> "." /\
                           color t <> Some c)) as Hrob.
    { pose proof (fun _ : True => board8_total _ _ H8) as Htot.
      assert (False -> Forall is_Some (view h b)) as Hal by done.
      pose proof (robust_read h h b b eq_refl True False Htot Hal) as read.
      unfold moves_for.
      eapply robust_bind; [by apply read |]. intros piece' Hp'. simpl in Hp'.
      apply getitem2_cell in Hp'. rewrite Hpiece in Hp'. injection Hp' as <-.
      rewrite Hc, Hlow. simpl.
      fold (pawn_direction c). fold (pawn_start_row c).
      assert (in_bounds x (y + pawn_direction c) = true) as Hone.
      { apply in_bounds_spec in Hxy. apply in_bounds_spec.
        subst y. destruct c; simpl; lia. }
      rewrite Hone.
      eapply robust_bind with
        (P := fun res => res = [(x, y + pawn_direction c); (x, y + 2 * pawn_direction c)]).
      { eapply robust_bind; [by apply read |]. intros t1 Ht1. simpl in Ht1.
        apply getitem2_cell in Ht1. rewrite H1 in Ht1. injection Ht1 as <-. simpl.
        destruct (Z.eqb_spec y (pawn_start_row c)) as [_|]; [|done].
        eapply robust_bind.
        { apply robust_getitem2; [done | | done]. intros _.
          apply getitem2_cell in H2. eauto. }
        intros t2 Ht2. simpl in Ht2. apply getitem2_cell in Ht2.
        rewrite H2 in Ht2. injection Ht2 as <-. simpl. by apply robust_ret. }
      intros res ->.
      eapply robust_bind; [|intros res' Hres'; apply robust_ret; exact Hres'].
      eapply robust_bind; [by apply capture_robust |].
      intros res1 (caps1 & -> & Hcaps1).
      eapply robust_bind; [by apply capture_robust |].
      intros res2 (caps2 & -> & Hcaps2). apply robust_ret.
      exists (caps1 ++ caps2). rewrite <- app_assoc. split; [done |].
      replace (x + -1) with (x - 1) in * by lia.
      destruct Hcaps1 as [(-> & Hi1 & He1)|[-> Hn1]],
               Hcaps2 as [(-> & Hi2 & He2)|[-> Hn2]]; simpl.
      - split; [lia |]. split.
        { apply NoDup_cons. split; [|apply NoDup_singleton].
          intros Heq%list_elem_of_singleton. injection Heq. lia. }
        intros sq. rewrite elem_of_cons, list_elem_of_singleton.
        split; [intros [->| ->]; eauto |]. tauto.
      - split; [lia |]. split; [apply NoDup_singleton |].
        intros sq. rewrite list_elem_of_singleton.
        split; [intros ->; eauto |]. intros ([->| ->] & Hi & He); [done |].
        exfalso. apply Hn2. eauto.
      - split; [lia |]. split; [apply NoDup_singleton |].
        intros sq. rewrite list_elem_of_singleton.
        split; [intros ->; eauto |]. intros ([->| ->] & Hi & He); [|done].
        exfalso. apply Hn1. eauto.
      - split; [lia |]. split; [apply NoDup_nil_2 |].
        intros sq. split; [by intros ?%elem_of_nil |].
        intros ([->| ->] & Hi & He); exfalso; [apply Hn1 | apply Hn2]; eauto. }
    destruct Hrob as (r & E & _ & HP & Ht & _). destruct (Ht I) as [l ->].
    destruct (HP l eq_refl) as (caps & -> & Hcaps). eauto.
  - intros Hy l h' Hrun.
    assert (robust False False h h (moves_for b x y) (moves_for b x y)
      (fun l => (length (filter (fun d : Z * Z => d.1 = x) l) <= 1)%nat)) as Hrob.
    { assert (False -> total (view h b)) as Htot by done.
      assert (False -> Forall is_Some (view h b)) as Hal by done.
      pose proof (robust_read h h b b eq_refl False False Htot Hal) as read.
      unfold moves_for.
      eapply robust_bind.
      { apply robust_getitem2; done. }
      intros piece' Hp'. simpl in Hp'.
      apply getitem2_cell in Hp'. rewrite Hpiece in Hp'. injection Hp' as <-.
      rewrite Hc, Hlow. simpl.
      fold (pawn_direction c). fold (pawn_start_row c).
      eapply robust_bind with
        (P := fun res => (length (filter (fun d : Z * Z => d.1 = x) res) <= 1)%nat).
      { destruct (in_bounds x (y + pawn_direction c)); [|apply robust_ret; simpl; lia].
        eapply robust_bind; [apply robust_getitem2; done |]. intros t1 _.
        destruct (String.eqb t1 "."); [|apply robust_ret; simpl; lia].
        destruct (Z.eqb_spec y (pawn_start_row c)); [done |].
        apply robust_ret. simpl. rewrite filter_cons. simpl.
        destruct (decide (x = x)); simpl; lia. }
      intros res Hres.
      eapply robust_bind; [|intros res' Hres'; apply robust_ret; exact Hres'].
      eapply robust_bind; [by apply capture_robust |].
      intros res1 (caps1 & -> & Hcaps1).
      eapply robust_bind; [by apply capture_robust |].
      intros res2 (caps2 & -> & Hcaps2). apply robust_ret.
      rewrite !filter_app, !length_app.
      assert (filter (fun d : Z * Z => d.1 = x) caps1 = []) as ->.
      { destruct Hcaps1 as [(-> & _)|[-> _]]; [|done].
        rewrite filter_cons. simpl. destruct (decide (x + -1 = x)); [lia | done]. }
      assert (filter (fun d : Z * Z => d.1 = x) caps2 = []) as ->.
      { destruct Hcaps2 as [(-> & _)|[-> _]]; [|done].
        rewrite filter_cons. simpl. destruct (decide (x + 1 = x)); [lia | done]. }
      simpl. lia. }
    destruct Hrob as (r & E & _ & HP & _). rewrite E in Hrun.
    injection Hrun as -> _. by apply HP.
Qed.

End PawnMoves.

(** ** The check detector *)

Section CheckDetector.

Lemma lexltb_spec p q : lexltb p q = true <-> lexlt p q.
Proof. unfold lexltb, lexlt. lia. Qed.

Lemma lexlt_trans p q r : lexlt p q -> lexlt q r -> lexlt p r.
Proof. unfold lexlt. lia. Qed.

Lemma increasing_head p l :
  increasing (p :: l) = true -> Forall (lexlt p) l.
Proof.
  revert p. induction l as [|q l IH]; intros p; [done |].
  simpl. intros [Hpq Hl]%andb_prop. apply lexltb_spec in Hpq.
  apply Forall_cons. split; [done |].
  eapply Forall_impl; [by apply IH |]. intros r. by apply lexlt_trans.
Qed.

Lemma increasing_split l pre p post :
  increasing l = true -> l = pre ++ p :: post -> Forall (lexlt p) post.
Proof.
  revert l. induction pre as [|q pre IH]; intros l Hl ->.
  - by apply increasing_head.
  - apply (IH (pre ++ p :: post)); [|done].
    simpl in Hl. destruct (pre ++ p :: post); [done |].
    by apply andb_prop in Hl as [_ Hl].
Qed.

Lemma squares_increasing : increasing (product (range 8) (range 8)) = true.
Proof. vm_compute. reflexivity. Qed.

Lemma elem_of_range (n : nat) (z : Z) : z ∈ range n <-> 0 <= z < Z.of_nat n.
Proof.
  unfold range. rewrite list_elem_of_fmap. split.
  - intros (k & -> & Hk%elem_of_seq). lia.
  - intros Hz. exists (Z.to_nat z). split; [lia |]. apply elem_of_seq. lia.
Qed.

Lemma elem_of_squares x y :
  (y, x) ∈ product (range 8) (range 8) <-> in_bounds x y = true.
Proof.
  unfold product. rewrite list_elem_of_bind, in_bounds_spec. split.
  - intros (y' & Hx & Hy). apply list_elem_of_fmap in Hx as (x' & [= -> ->] & Hx).
    apply elem_of_range in Hx, Hy. lia.
  - intros [Hx Hy]. exists y. split; [|apply elem_of_range; lia].
    apply list_elem_of_fmap. exists x. split; [done |]. apply elem_of_range. lia.
Qed.

(** C4: on an 8 by 8 board is_in_check returns a boolean, and leaves the
    store alone.  It returns False when no square of the board holds the
    king of the side.  Otherwise, with (kx, ky) the king's square -- the
    first one in row-major order, should several squares hold that king --
    it returns True exactly when some square of the board holds a piece of
    the opposing colour whose moves_for list contains (kx, ky). *)
Theorem C4_is_in_check h b side :
  board8 h b ->
  exists r, is_in_check b side h = (Ok r, h) /\
    ((forall x y, in_bounds x y = true ->
        getitem2 b y x h <> (Ok (match side with W => "K" | B => "k" end), h)) ->
     r = false) /\
    (forall kx ky,
       in_bounds kx ky = true ->
       getitem2 b ky kx h = (Ok (match side with W => "K" | B => "k" end), h) ->
       (forall x y, in_bounds x y = true ->
          getitem2 b y x h = (Ok (match side with W => "K" | B => "k" end), h) ->
          ky < y \/ (ky = y /\ kx <= x)) ->
       (r = true <->
        exists x y, in_bounds x y = true /\
          exists t pc l, getitem2 b y x h = (Ok t, h) /\ color t = Some pc /\
            pc <> side /\ moves_for b x y h = (Ok l, h) /\ (kx, ky) ∈ l)).
Proof.
  intros H8. set (king := match side with W => "K" | B => "k" end).
  pose proof (fun _ : True => board8_total _ _ H8) as Htot.
  assert (False -> Forall is_Some (view h b)) as Hal by done.
  destruct (is_in_check_robust h h b b eq_refl True False Htot Hal side)
    as (r0 & E & _ & HP & Ht & _).
  destruct (Ht I) as [r ->]. exists r. split; [done |].
  destruct (HP r eq_refl) as (o & Hfind & Ho). fold king in Hfind.
  destruct (find_king_robust h h b b eq_refl True False Htot Hal king _
              squares_in_bounds) as (o' & Hfind' & _ & HPk & _).
  rewrite Hfind in Hfind'. injection Hfind' as <-.
  specialize (HPk o eq_refl). split.
  - intros Hnone. destruct o as [[kx ky]|]; [|done].
    destruct HPk as (Hk & pre & post & Hsq & _). exfalso.
    apply (Hnone kx ky); [|by apply getitem2_cell].
    apply elem_of_squares. rewrite Hsq. apply elem_of_app. right. by left.
  - intros kx ky Hin Hking Hfirst.
    destruct o as [[kx' ky']|].
    2: { exfalso. apply (HPk ky kx); [by apply elem_of_squares |].
         by apply getitem2_cell. }
    destruct HPk as (Hk & pre & post & Hsq & Hpre).
    assert ((ky', kx') = (ky, kx)) as [= -> ->].
    { assert (in_bounds kx' ky' = true) as Hin'.
      { apply elem_of_squares. rewrite Hsq. apply elem_of_app. right. by left. }
      apply getitem2_cell in Hk as Hk'.
      pose proof (Hfirst kx' ky' Hin' Hk') as Hle.
      assert ((ky, kx) ∈ product (range 8) (range 8)) as Hmem
        by by apply elem_of_squares.
      rewrite Hsq in Hmem.
      apply elem_of_app in Hmem as [Hmem|Hmem].
      { exfalso. apply (Hpre _ _ Hmem). by apply getitem2_cell. }
      apply elem_of_cons in Hmem as [Hmem|Hmem]; [done |].
      pose proof (increasing_split _ _ _ _ squares_increasing Hsq) as Hpost.
      rewrite Forall_forall in Hpost. specialize (Hpost _ Hmem).
      unfold lexlt in Hpost. simpl in Hpost. lia. }
    rewrite Ho. split.
    + intros (y & x & Hyx & t & pc & l & Ha). exists x, y.
      split; [by apply elem_of_squares |]. exists t, pc, l.
      by rewrite getitem2_cell.
    + intros (x & y & Hxy & t & pc & l & Ha). exists y, x.
      split; [by apply elem_of_squares |]. exists t, pc, l.
      by rewrite <- getitem2_cell.
Qed.

(** On a store in which the rows of the board are allocated, every run of
    [is_in_check] is one that Python has, and it leaves the store alone. *)
Lemma is_in_check_defined h b side :
  wf_board h b ->
  (is_in_check b side h).2 = h /\ (is_in_check b side h).1 <> Undef.
Proof.
  intros Hwf.
  destruct (is_in_check_robust h h b b eq_refl False True) with (side := side)
    as (r & E & _ & _ & _ & Hd); [done | intros _; by apply wf_board_view |].
  rewrite E. split; [done | by apply Hd].
Qed.

End CheckDetector.

(** ** Cloning and updating a board in the store *)

Section StoreUpdates.

Lemma fresh_unallocated (h : heap) : h !! fresh (dom h) = None.
Proof. apply not_elem_of_dom, is_fresh. Qed.

Lemma extends_insert_fresh (h : heap) l cells :
  h !! l = None -> extends h (<[l := cells]> h).
Proof.
  intros Hl l' cells' Hl'. rewrite lookup_insert_ne; [done |]. congruence.
Qed.

(** The clone is made of new, pairwise distinct row objects that hold what
    the rows of the board hold; the rows of the board are untouched. *)
Lemma clone_board_run b : forall h,
  wf_board h b ->
  exists b' h',
    clone_board b h = (Ok b', h') /\ extends h h'
    /\ view h' b' = view h b /\ NoDup b'
    /\ Forall (fun l => h !! l = None) b'
    /\ (forall l, l ∉ b' -> h' !! l = h !! l).
Proof.
  unfold clone_board.
  induction b as [|x xs IH]; intros h Hwf; simpl.
  - exists [], h. repeat split; try done; [apply extends_refl | apply NoDup_nil_2].
  - apply Forall_cons in Hwf as [[cells Hx] Hwf].
    set (l := fresh (dom h)). set (h1 := <[l := cells]> h).
    assert (h !! l = None) as Hl by apply fresh_unallocated.
    assert (extends h h1) as Hext1 by by apply extends_insert_fresh.
    destruct (IH h1 (wf_board_extends _ _ _ Hwf Hext1))
      as (b' & h' & E & Hext & Hview & Hnd & Hfresh & Hframe).
    assert (l ∉ b') as Hlb.
    { intros Hin. rewrite Forall_forall in Hfresh. specialize (Hfresh _ Hin).
      unfold h1 in Hfresh. by rewrite lookup_insert_eq in Hfresh. }
    exists (l :: b'), h'. split.
    { assert ((cells <- deref x ;; alloc cells) h = (Ok l, h1)) as E0.
      { unfold bind, deref, alloc. by rewrite Hx. }
      by rewrite (bind_Ok _ _ _ _ _ E0), (bind_Ok _ _ _ _ _ E). }
    split; [by eapply extends_trans |]. split.
    { change (view h' (l :: b')) with (h' !! l :: view h' b').
      change (view h (x :: xs)) with (h !! x :: view h xs).
      rewrite Hview, (view_extends _ _ _ Hwf Hext1). f_equal.
      rewrite Hframe by done. unfold h1. by rewrite lookup_insert_eq. }
    split; [by apply NoDup_cons |]. split.
    { apply Forall_cons. split; [done |].
      eapply Forall_impl; [exact Hfresh |]. intros l' Hl'. unfold h1 in Hl'.
      apply lookup_insert_None in Hl'. tauto. }
    intros l' Hl'. apply not_elem_of_cons in Hl' as [Hne Hl'].
    rewrite Hframe by done. unfold h1. by rewrite lookup_insert_ne.
Qed.

(** Writing a square of a board whose rows are distinct objects: the
    outcome, and what the board holds afterwards, are those of [vset] on
    what the board held; no other row object changes. *)
Lemma setitem2_run b y x t h :
  NoDup b -> wf_board h b ->
  exists h',
    setitem2 b y x t h = (rbind (vset (view h b) y x t) (fun _ => Ok tt), h')
    /\ (forall l, l ∉ b -> h' !! l = h !! l)
    /\ wf_board h' b
    /\ match vset (view h b) y x t with
       | Ok v' => view h' b = v'
       | _ => h' = h
       end.
Proof.
  intros Hnd Hwf.
  assert (getitem (view h b) y = rbind (getitem b y) (fun l => Ok (h !! l))) as Hgv.
  { unfold view. apply getitem_fmap. }
  unfold setitem2, vset, bind, lift, deref, store. rewrite Hgv.
  destruct (getitem b y) as [l|e|] eqn:Hrow; simpl.
  2, 3: by exists h.
  pose proof Hrow as (j & Hj & Hjy)%getitem_Ok.
  unfold wf_board in Hwf. rewrite Forall_lookup in Hwf.
  destruct (Hwf _ _ Hj) as [cells Hc]. rewrite Hc.
  destruct (setitem cells x t) as [cells'|e|] eqn:Hset; simpl.
  2, 3: by (exists h; repeat split; try done; by apply Forall_lookup).
  assert (setitem (view h b) y (Some cells') = Ok (<[j := Some cells']> (view h b)))
    as Hsetv.
  { unfold setitem. rewrite view_length, <- Hjy.
    destruct (Z.ltb_spec (Z.of_nat j) 0); [lia |].
    apply lookup_lt_Some in Hj.
    destruct (Z.ltb_spec (Z.of_nat j) (Z.of_nat (length b))); [|lia].
    by rewrite Nat2Z.id. }
  rewrite Hsetv. simpl.
  exists (<[l := cells']> h). split; [done |]. split.
  { intros l' Hl'. rewrite lookup_insert_ne; [done |]. intros <-.
    apply Hl'. by eapply list_elem_of_lookup_2. }
  split.
  { apply Forall_lookup. intros i l' Hi.
    destruct (decide (l' = l)) as [->|Hne].
    - rewrite lookup_insert_eq. eauto.
    - rewrite lookup_insert_ne by done. eauto. }
  apply list_eq. intros i. rewrite view_lookup.
  destruct (decide (i = j)) as [->|Hij].
  - rewrite Hj. simpl. rewrite lookup_insert_eq.
    rewrite list_lookup_insert_eq; [done |].
    rewrite view_length. by eapply lookup_lt_Some.
  - rewrite list_lookup_insert_ne by done. rewrite view_lookup.
    destruct (b !! i) as [l'|] eqn:Hi; [|done]. simpl.
    rewrite lookup_insert_ne; [done |]. intros <-.
    apply Hij. by eapply NoDup_lookup.
Qed.

(** After [board[y][x] = t] the square holds [t]. *)
Lemma cell_vset_same v y x t v' : vset v y x t = Ok v' -> cell v' y x = Ok t.
Proof.
  unfold vset, cell.
  destruct (getitem v y) as [[cells|]| |]; simpl; try done.
  destruct (setitem cells x t) as [cells'| |] eqn:Hset; simpl; try done.
  intros Hv. rewrite (getitem_setitem_same _ _ _ _ Hv). simpl.
  by eapply getitem_setitem_same.
Qed.

End StoreUpdates.

(** ** The turn controller *)

Section TurnController.

Lemma attempt_move_unfold st move :
  attempt_move st move =
  (parsed <- lift (parse_move move) ;;
   match parsed with
   | None => ret (Rejected BadFormat, st)
   | Some (fx, fy, tx, ty) =>
       piece <- getitem2 (board st) fy fx ;;
       if String.eqb piece "." || negb (bool_decide (color piece = Some (turn st)))
       then ret (Rejected NoPieceOrWrongColor, st)
       else
         legal <- moves_for (board st) fx fy ;;
         if negb (bool_decide ((tx, ty) ∈ legal))
         then ret (Rejected IllegalDestination, st)
         else commit st piece fx fy tx ty
   end).
Proof. reflexivity. Qed.

Lemma is_in_check_reads h b side : exists r, is_in_check b side h = (r, h).
Proof.
  destruct (is_in_check_robust h h b b eq_refl False False) with (side := side)
    as (r & E & _); [done.. |]. eauto.
Qed.

(** The end of [attempt_move]: the move is played on a clone made of new
    row objects, the test for check reads the clone, and the row objects
    that existed before are untouched whatever the outcome. *)
Lemma commit_run b side piece fx fy tx ty h :
  wf_board h b ->
  exists b' h',
    NoDup b' /\ wf_board h' b' /\ extends h h'
    /\ match simulate (view h b) piece side fx fy tx ty with
       | Ok v3 =>
           view h' b' = v3 /\
           exists rc, is_in_check b' side h' = (rc, h') /\
             commit {| board := b; turn := side |} piece fx fy tx ty h
             = (rbind rc (fun chk : bool =>
                  Ok (if chk
                      then (Rejected LeavesKingInCheck, {| board := b; turn := side |})
                      else (Accepted, {| board := b'; turn := other side |}))), h')
       | Raise e =>
           commit {| board := b; turn := side |} piece fx fy tx ty h = (Raise e, h')
       | Undef =>
           commit {| board := b; turn := side |} piece fx fy tx ty h = (Undef, h')
       end.
Proof.
  intros Hwf. unfold commit, simulate. simpl.
  destruct (clone_board_run b h Hwf)
    as (b' & h1 & E0 & Hext & Hview & Hnd & Hfresh & Hframe).
  rewrite (bind_Ok _ _ _ _ _ E0).
  assert (wf_board h1 b') as Hwf1.
  { apply (wf_board_same_view h b); [done | done]. }
  assert (forall h', (forall l, l ∉ b' -> h' !! l = h1 !! l) -> extends h h') as Hkeep.
  { intros h' Hh' l cells Hl. rewrite Hh'; [by apply Hext |].
    intros Hin. rewrite Forall_forall in Hfresh. rewrite (Hfresh _ Hin) in Hl. done. }
  exists b'. rewrite <- Hview.
  (* clone[ty][tx] = piece *)
  destruct (setitem2_run b' ty tx piece h1 Hnd Hwf1) as (h2 & E1 & Hf1 & Hwf2 & Hv1).
  destruct (vset (view h1 b') ty tx piece) as [v1|e|] eqn:Hs1; simpl in *.
  2: { subst h2. exists h1. rewrite (bind_Raise _ _ _ _ _ E1). auto. }
  2: { subst h2. exists h1. rewrite (bind_Undef _ _ _ _ E1). auto. }
  rewrite (bind_Ok _ _ _ _ _ E1). subst v1.
  (* clone[fy][fx] = "." *)
  destruct (setitem2_run b' fy fx "." h2 Hnd Hwf2) as (h3 & E2 & Hf2 & Hwf3 & Hv2).
  assert (forall l, l ∉ b' -> h3 !! l = h1 !! l) as Hf13.
  { intros l Hl. by rewrite Hf2, Hf1. }
  destruct (vset (view h2 b') fy fx ".") as [v2|e|] eqn:Hs2; simpl in *.
  2: { subst h3. exists h2. rewrite (bind_Raise _ _ _ _ _ E2). auto. }
  2: { subst h3. exists h2. rewrite (bind_Undef _ _ _ _ E2). auto. }
  rewrite (bind_Ok _ _ _ _ _ E2). subst v2.
  (* promotion *)
  destruct (String.eqb (lower piece) "p" && ((ty =? 0) || (ty =? 7))).
  - destruct (setitem2_run b' ty tx (match side with W => "Q" | B => "q" end)
                h3 Hnd Hwf3) as (h4 & E3 & Hf3 & Hwf4 & Hv3).
    assert (forall l, l ∉ b' -> h4 !! l = h1 !! l) as Hf14.
    { intros l Hl. by rewrite Hf3, Hf13. }
    destruct (vset (view h3 b') ty tx _) as [v3|e|] eqn:Hs3; simpl in *.
    2: { subst h4. exists h3. rewrite (bind_Raise _ _ _ _ _ E3). auto. }
    2: { subst h4. exists h3. rewrite (bind_Undef _ _ _ _ E3). auto. }
    rewrite (bind_Ok _ _ _ _ _ E3). subst v3.
    exists h4. repeat split; auto.
    destruct (is_in_check_reads h4 b' side) as [rc Erc]. exists rc.
    split; [done |]. unfold bind. rewrite Erc.
    destruct rc as [[|]| |]; reflexivity.
  - exists h3. repeat split; auto.
    destruct (is_in_check_reads h3 b' side) as [rc Erc]. exists rc.
    split; [done |]. unfold bind, ret. rewrite Erc.
    destruct rc as [[|]| |]; reflexivity.
Qed.

Lemma board8_grid8 h b : board8 h b <-> grid8 (view h b).
Proof.
  unfold board8, grid8. rewrite view_length. unfold view. rewrite Forall_fmap.
  done.
Qed.

Lemma setitem_in_range {A} (l : list A) i a :
  0 <= i < Z.of_nat (length l) -> setitem l i a = Ok (<[Z.to_nat i := a]> l).
Proof.
  intros Hi. unfold setitem.
  destruct (Z.ltb_spec i 0); [lia |]. destruct (Z.ltb_spec i 0); [lia |].
  destruct (Z.ltb_spec i (Z.of_nat (length l))); [done | lia].
Qed.

Lemma vset_grid8 v y x t :
  grid8 v -> in_bounds x y = true -> exists v', vset v y x t = Ok v' /\ grid8 v'.
Proof.
  intros [Hlen Hrows] [Hx Hy]%in_bounds_spec. unfold vset.
  destruct (getitem_in_range v y) as (o & -> & Ho); [lia |]. simpl.
  rewrite Forall_lookup in Hrows. destruct (Hrows _ _ Ho) as (cells & -> & Hc).
  rewrite setitem_in_range by lia. simpl.
  rewrite setitem_in_range by lia. eexists. split; [done |]. split.
  - by rewrite length_insert.
  - apply Forall_insert; [by apply Forall_lookup |].
    eexists. split; [done |]. by rewrite length_insert.
Qed.

Lemma vset_defined v y x t :
  Forall is_Some v ->
  vset v y x t <> Undef /\ forall v', vset v y x t = Ok v' -> Forall is_Some v'.
Proof.
  intros Hv. unfold vset.
  destruct (getitem v y) as [o|e|] eqn:Ho; simpl; [|done |].
  2: by apply getitem_not_undef in Ho.
  pose proof Ho as (j & Hj & _)%getitem_Ok.
  pose proof Hv as Hv'. rewrite Forall_lookup in Hv'.
  destruct (Hv' _ _ Hj) as [cells ->].
  destruct (setitem cells x t) as [cells'|e|] eqn:Hc; simpl; [|done |].
  2: by apply setitem_not_undef in Hc.
  split; [apply setitem_not_undef |].
  intros v' (j' & _ & -> & _)%setitem_Ok. by apply Forall_insert.
Qed.

Lemma simulate_defined v piece side fx fy tx ty :
  Forall is_Some v -> simulate v piece side fx fy tx ty <> Undef.
Proof.
  intros Hv. unfold simulate.
  destruct (vset_defined v ty tx piece Hv) as [Hd1 Hk1].
  destruct (vset v ty tx piece) as [v1|e|]; simpl; [|done..].
  destruct (vset_defined v1 fy fx "." (Hk1 _ eq_refl)) as [Hd2 Hk2].
  destruct (vset v1 fy fx ".") as [v2|e|]; simpl; [|done..].
  destruct (_ && _); [|done]. by apply vset_defined, Hk2.
Qed.

Lemma simulate_grid8 v piece side fx fy tx ty :
  grid8 v -> in_bounds fx fy = true -> in_bounds tx ty = true ->
  exists v3, simulate v piece side fx fy tx ty = Ok v3 /\ grid8 v3.
Proof.
  intros Hv Hf Ht. unfold simulate.
  destruct (vset_grid8 v ty tx piece Hv Ht) as (v1 & -> & Hv1). simpl.
  destruct (vset_grid8 v1 fy fx "." Hv1 Hf) as (v2 & -> & Hv2). simpl.
  destruct (_ && _); [by apply vset_grid8 | eauto].
Qed.

(** Outcomes of [attempt_move] on two boards that hold the same, with the
    same side to move: the same verdict, and after an accepted move two
    boards that again hold the same; a rejection hands back the locals it
    was given; no row object that existed before the call is changed; and
    on an 8 by 8 board a verdict is reached and the board handed back is
    8 by 8. *)
Lemma attempt_move_rel b1 b2 side move h1 h2 :
  wf_board h1 b1 -> wf_board h2 b2 -> view h1 b1 = view h2 b2 ->
  exists r1 h1' r2 h2',
    attempt_move {| board := b1; turn := side |} move h1 = (r1, h1')
    /\ attempt_move {| board := b2; turn := side |} move h2 = (r2, h2')
    /\ extends h1 h1' /\ extends h2 h2'
    /\ match r1, r2 with
       | Ok (Rejected x, s1), Ok (Rejected y, s2) =>
           x = y /\ s1 = {| board := b1; turn := side |}
           /\ s2 = {| board := b2; turn := side |}
       | Ok (Accepted, s1), Ok (Accepted, s2) =>
           turn s1 = other side /\ turn s2 = other side
           /\ view h1' (board s1) = view h2' (board s2)
           /\ wf_board h1' (board s1) /\ wf_board h2' (board s2)
           /\ NoDup (board s1)
           /\ exists fx fy tx ty piece,
                parse_move move = Ok (Some (fx, fy, tx, ty))
                /\ cell (view h1 b1) fy fx = Ok piece
                /\ color piece = Some side
                /\ simulate (view h1 b1) piece side fx fy tx ty
                   = Ok (view h1' (board s1))
       | Raise e1, Raise e2 => e1 = e2
       | Undef, Undef => True
       | _, _ => False
       end
    /\ (board8 h1 b1 -> exists v s, r1 = Ok (v, s) /\ board8 h1' (board s))
    /\ r1 <> Undef.
Proof.
  intros Hwf1 Hwf2 Hv. rewrite !attempt_move_unfold.
  pose proof (proj1 (wf_board_view _ _) Hwf1) as Hal1.
  pose proof (extends_refl h1) as Hr1. pose proof (extends_refl h2) as Hr2.
  destruct (parse_move_cases move)
    as [Hp | (cx & cy & ctx & cty & fx & ry & tx & rty
              & _ & _ & Hfx & _ & Hry & _ & Htx & _ & Hrty & Hp)].
  { assert (forall h, lift (parse_move move) h = (Ok None, h)) as E.
    { intros h. unfold lift. by rewrite Hp. }
    rewrite (bind_Ok _ _ _ _ _ (E h1)), (bind_Ok _ _ _ _ _ (E h2)).
    eexists _, h1, _, h2. repeat split; eauto. }
  set (fy := 8 - ry) in *. set (ty := 8 - rty) in *.
  assert (in_bounds fx fy = true) as Hfrom by (apply in_bounds_spec; lia).
  assert (in_bounds tx ty = true) as Hto by (apply in_bounds_spec; lia).
  assert (forall h, lift (parse_move move) h = (Ok (Some (fx, fy, tx, ty)), h)) as E.
  { intros h. unfold lift. by rewrite Hp. }
  rewrite (bind_Ok _ _ _ _ _ (E h1)), (bind_Ok _ _ _ _ _ (E h2)). clear E.
  (* piece = board[fy][fx] *)
  pose proof (getitem2_view b1 fy fx h1) as G1.
  pose proof (getitem2_view b2 fy fx h2) as G2. rewrite <- Hv in G2.
  destruct (cell (view h1 b1) fy fx) as [piece|e|] eqn:Hcell.
  2: { rewrite (bind_Raise _ _ _ _ _ G1), (bind_Raise _ _ _ _ _ G2).
       eexists _, h1, _, h2. repeat split; try done.
       intros H8. destruct (board8_total _ _ H8 _ _ Hfrom). congruence. }
  2: { by destruct (cell_defined _ fy fx Hal1). }
  rewrite (bind_Ok _ _ _ _ _ G1), (bind_Ok _ _ _ _ _ G2). simpl.
  destruct (String.eqb piece "." || negb (bool_decide (color piece = Some side)))
    eqn:Hown.
  { eexists _, h1, _, h2. repeat split; eauto. }
  apply orb_false_elim in Hown as [_ Hown]. apply negb_false_iff in Hown.
  apply bool_decide_eq_true in Hown.
  (* legal = moves_for(board, fx, fy) *)
  destruct (moves_for_robust h1 h2 b1 b2 Hv (board8 h1 b1) True
              (board8_total _ _) (fun _ => Hal1))
    with (x := fx) (y := fy) as (rm & M1 & M2 & _ & Mt & Ma); [done |].
  destruct rm as [legal|e|].
  2: { rewrite (bind_Raise _ _ _ _ _ M1), (bind_Raise _ _ _ _ _ M2).
       eexists _, h1, _, h2. repeat split; try done.
       intros H8. by destruct (Mt H8). }
  2: { by destruct (Ma I). }
  rewrite (bind_Ok _ _ _ _ _ M1), (bind_Ok _ _ _ _ _ M2).
  destruct (negb (bool_decide ((tx, ty) ∈ legal))).
  { eexists _, h1, _, h2. repeat split; eauto. }
  (* the simulated move *)
  destruct (commit_run b1 side piece fx fy tx ty h1 Hwf1)
    as (b1' & h1' & Hnd1 & Hwf1' & Hext1 & C1).
  destruct (commit_run b2 side piece fx fy tx ty h2 Hwf2)
    as (b2' & h2' & Hnd2 & Hwf2' & Hext2 & C2).
  rewrite <- Hv in C2.
  destruct (simulate (view h1 b1) piece side fx fy tx ty) as [v3|e|] eqn:Hsim.
  2: { rewrite C1, C2. eexists _, h1', _, h2'. repeat split; try done.
       intros H8%board8_grid8.
       destruct (simulate_grid8 _ piece side _ _ _ _ H8 Hfrom Hto) as (? & ? & _).
       congruence. }
  2: { by destruct (simulate_defined _ piece side fx fy tx ty Hal1). }
  destruct C1 as (Hv1 & rc1 & K1 & C1), C2 as (Hv2 & rc2 & K2 & C2).
  rewrite C1, C2.
  destruct (is_in_check_robust h1' h2' b1' b2') with
    (tot := board8 h1' b1') (al := True) (side := side)
    as (rc & K1' & K2' & _ & Kt & Ka);
    [congruence | apply board8_total | intros _; by apply wf_board_view |].
  rewrite K1 in K1'. rewrite K2 in K2'.
  injection K1' as ->. injection K2' as ->.
  eexists _, h1', _, h2'. split; [done |]. split; [done |].
  split; [done |]. split; [done |]. split; [|split].
  - destruct rc as [[|]|e|]; simpl; try done.
    repeat split; try done; [congruence |].
    exists fx, fy, tx, ty, piece. rewrite Hv1. done.
  - intros H8. pose proof H8 as H8v%board8_grid8.
    destruct (simulate_grid8 _ piece side _ _ _ _ H8v Hfrom Hto) as (v3' & Hs' & H8').
    rewrite Hsim in Hs'. injection Hs' as <-. rewrite <- Hv1 in H8'.
    apply board8_grid8 in H8'. destruct (Kt H8') as [chk ->]. simpl.
    destruct chk; eexists _, _; (split; [done |]); simpl; [|done].
    apply board8_grid8. rewrite (view_extends _ _ _ Hwf1 Hext1).
    by apply board8_grid8.
  - destruct rc as [chk|e|]; simpl; [done.. |]. by destruct (Ka I).
Qed.

Lemma pinned_board8 : board8 pinned_heap start_board.
Proof.
  board8_by_compute.
Qed.

Lemma promo_board8 : board8 promo_heap start_board.
Proof.
  board8_by_compute.
Qed.

Lemma e4_board : board e4_state = [9; 10; 11; 12; 13; 14; 15; 16]%positive.
Proof. vm_compute. reflexivity. Qed.

Lemma e4_board8 : board8 e4_heap (board e4_state).
Proof.
  rewrite e4_board. board8_by_compute.
Qed.

(** C1: from a state whose board rows are allocated, when attempt_move
    rejects the input (whatever the reason) the locals handed back are the
    ones received -- same board, same side to move -- every row object that
    existed before the call is unchanged, so the board holds what it held;
    calling attempt_move again with the same input from the state left by
    the rejection gives the same rejection reason and again leaves the board
    as it was.  When it accepts, the side to move changes: it is Black
    after White and White after Black.  On an 8 by 8 board attempt_move
    always reaches a verdict, and the board it hands back is 8 by 8. *)
Theorem C1_rejection_keeps_state st move h :
  wf_board h (board st) ->
  (forall v st' h',
     attempt_move st move h = (Ok (v, st'), h') ->
     match v with
     | Rejected r =>
         st' = st /\ extends h h'
         /\ view h' (board st) = view h (board st)
         /\ exists h'',
              attempt_move st' move h' = (Ok (Rejected r, st'), h'')
              /\ extends h' h''
              /\ view h'' (board st) = view h (board st)
     | Accepted =>
         turn st' <> turn st
         /\ turn st' = match turn st with W => B | B => W end
     end)
  /\ (board8 h (board st) ->
      exists v st' h', attempt_move st move h = (Ok (v, st'), h')
                       /\ board8 h' (board st')).
Proof.
  destruct st as [b side]. simpl. intros Hwf. split.
  - intros v st' h' Hrun.
    destruct (attempt_move_rel b b side move h h Hwf Hwf eq_refl)
      as (r1 & h1' & r2 & h2' & E1 & E2 & X1 & _ & Hm & _).
    rewrite E1 in E2. injection E2 as <- <-.
    rewrite Hrun in E1. injection E1 as <- <-.
    destruct v as [r|].
    2: { destruct Hm as (Ht & _). rewrite Ht. by destruct side. }
    destruct Hm as (_ & -> & _).
    pose proof (view_extends _ _ _ Hwf X1) as Hview.
    pose proof (wf_board_extends _ _ _ Hwf X1) as Hwf'.
    split; [done |]. split; [done |]. split; [done |].
    destruct (attempt_move_rel b b side move h h' Hwf Hwf' (eq_sym Hview))
      as (r1 & h1' & r2 & h2' & E1 & E2 & _ & X2 & Hm & _).
    rewrite Hrun in E1. injection E1 as <- <-.
    destruct r2 as [[[r'|] s2]|e|]; try done.
    destruct Hm as (<- & _ & ->).
    exists h2'. split; [done |]. split; [done |].
    by rewrite (view_extends _ _ _ Hwf' X2).
  - intros H8.
    destruct (attempt_move_rel b b side move h h Hwf Hwf eq_refl)
      as (r1 & h1' & r2 & h2' & E1 & _ & _ & _ & _ & Ht & _).
    destruct (Ht H8) as (v & s & -> & H8'). eauto.
Qed.

(** On a store in which the rows of the board are allocated, every run of
    [attempt_move] is one that Python has: a verdict or an exception. *)
Lemma attempt_move_defined st move h :
  wf_board h (board st) -> (attempt_move st move h).1 <> Undef.
Proof.
  destruct st as [b side]. simpl. intros Hwf.
  destruct (attempt_move_rel b b side move h h Hwf Hwf eq_refl)
    as (r1 & h1' & r2 & h2' & E1 & _ & _ & _ & _ & _ & Hd).
  by rewrite E1.
Qed.

Lemma C1_rejection_keeps_state_witness :
  let st := {| board := start_board; turn := W |} in
  let h' := (attempt_move st "e2d3" pinned_heap).2 in
  (st = st /\ extends pinned_heap h'
   /\ view h' start_board = view pinned_heap start_board
   /\ exists h'',
        attempt_move st "e2d3" h' = (Ok (Rejected LeavesKingInCheck, st), h'')
        /\ extends h' h''
        /\ view h'' start_board = view pinned_heap start_board)
  /\ (turn e4_state <> W /\ turn e4_state = B)
  /\ exists v st' h'', attempt_move st "e2e5" start_heap = (Ok (v, st'), h'')
                       /\ board8 h'' (board st').
Proof.
  intros st h'.
  split; [|split].
  - apply (proj1 (C1_rejection_keeps_state st "e2d3" pinned_heap
                    (board8_wf _ _ pinned_board8))
             (Rejected LeavesKingInCheck) st h').
    vm_compute. reflexivity.
  - apply (proj1 (C1_rejection_keeps_state st "e2e4" start_heap
                    (board8_wf _ _ start_board8))
             Accepted e4_state e4_heap).
    vm_compute. reflexivity.
  - apply (proj2 (C1_rejection_keeps_state st "e2e5" start_heap
                    (board8_wf _ _ start_board8))).
    exact start_board8.
Defined.

(** C5: when attempt_move accepts a move whose moved piece is a pawn and
    whose destination row is 0 or 7, the destination square of the board it
    hands back holds a queen of the pawn's colour ("Q" for White to move,
    "q" for Black) and not the pawn; a white pawn that reaches row 0 is
    shown as "Q". *)
Theorem C5_promotion st move h fx fy tx ty piece :
  wf_board h (board st) ->
  parse_move move = Ok (Some (fx, fy, tx, ty)) ->
  getitem2 (board st) fy fx h = (Ok piece, h) ->
  lower piece = "p" -> ty = 0 \/ ty = 7 ->
  forall st' h',
    attempt_move st move h = (Ok (Accepted, st'), h') ->
    exists q,
      getitem2 (board st') ty tx h' = (Ok q, h')
      /\ q = match turn st with W => "Q" | B => "q" end
      /\ color q = color piece /\ q <> piece
      /\ (piece = "P" -> q = "Q").
Proof.
  destruct st as [b side]. simpl.
  intros Hwf Hparse Hpiece Hlow Hty st' h' Hrun.
  destruct (attempt_move_rel b b side move h h Hwf Hwf eq_refl)
    as (r1 & h1' & r2 & h2' & E1 & E2 & _ & _ & Hm & _).
  rewrite E1 in E2. injection E2 as <- <-.
  rewrite Hrun in E1. injection E1 as <- <-.
  destruct Hm as (_ & _ & _ & _ & _ & _ & fx' & fy' & tx' & ty' & piece'
                  & Hparse' & Hcell & Hcol & Hsim).
  rewrite Hparse in Hparse'. injection Hparse' as <- <- <- <-.
  apply getitem2_cell in Hpiece. rewrite Hpiece in Hcell. injection Hcell as <-.
  unfold simulate in Hsim.
  destruct (vset (view h b) ty tx piece) as [v1| |]; simpl in Hsim; try done.
  destruct (vset v1 fy fx ".") as [v2| |]; simpl in Hsim; try done.
  rewrite Hlow in Hsim.
  assert ((ty =? 0) || (ty =? 7) = true) as Hrow by lia.
  rewrite Hrow in Hsim. simpl in Hsim.
  apply cell_vset_same in Hsim. apply getitem2_cell in Hsim.
  exists (match side with W => "Q" | B => "q" end).
  split; [done |]. split; [done |]. split; [|split].
  - rewrite Hcol. by destruct side.
  - intros <-. by destruct side.
  - intros ->. vm_compute in Hcol. by injection Hcol as <-.
Qed.

Lemma C5_promotion_witness :
  let st := {| board := start_board; turn := W |} in
  let r := attempt_move st "a7a8" promo_heap in
  exists q, getitem2 (board (match r.1 with Ok (_, st') => st' | _ => st end))
              0 0 r.2 = (Ok q, r.2)
            /\ q = "Q" /\ color q = color "P" /\ q <> "P"
            /\ ("P" = "P" -> q = "Q").
Proof.
  intros st r.
  apply (C5_promotion st "a7a8" promo_heap 0 1 0 0 "P").
  - exact (board8_wf _ _ promo_board8).
  - vm_compute. reflexivity.
  - vm_compute. reflexivity.
  - reflexivity.
  - left. reflexivity.
  - vm_compute. reflexivity.
Defined.

(** A pass through the loop of [main] either leaves the loop on a quit
    word or is [attempt_move] on the stripped line. *)
Lemma main_iter_attempt st line h :
  let cmd := lower (strip line) in
  main_iter st line h =
  if String.eqb cmd "q" || String.eqb cmd "quit" || String.eqb cmd "exit"
  then (Ok None, h)
  else match attempt_move st (strip line) h with
       | (Ok r, h') => (Ok (Some r), h')
       | (Raise e, h') => (Raise e, h')
       | (Undef, h') => (Undef, h')
       end.
Proof.
  unfold main_iter. simpl. destruct (_ || _); [done |].
  unfold bind. by destruct (attempt_move st (strip line) h) as [[r|e|] h'].
Qed.

End TurnController.

(** ** The statements at concrete positions *)

Section Positions.

Lemma check_board8 : board8 check_heap start_board.
Proof.
  board8_by_compute.
Qed.

Example start_not_in_check :
  is_in_check start_board W start_heap = (Ok false, start_heap).
Proof. vm_compute. reflexivity. Qed.

Example rook_gives_check :
  is_in_check start_board W check_heap = (Ok true, check_heap)
  /\ moves_for start_board 4 0 check_heap
     = (Ok [(5, 0); (6, 0); (7, 0); (3, 0); (2, 0); (1, 0); (0, 0);
            (4, 1); (4, 2); (4, 3); (4, 4); (4, 5); (4, 6); (4, 7)], check_heap).
Proof. split; vm_compute; reflexivity. Qed.

Example e2e4_accepted :
  attempt_move {| board := start_board; turn := W |} "e2e4" start_heap
  = (Ok (Accepted, e4_state), e4_heap)
  /\ turn e4_state = B
  /\ getitem2 (board e4_state) 6 4 e4_heap = (Ok ".", e4_heap)
  /\ getitem2 (board e4_state) 4 4 e4_heap = (Ok "P", e4_heap).
Proof. repeat split; vm_compute; reflexivity. Qed.

Example e2e5_rejected :
  attempt_move {| board := start_board; turn := W |} "e2e5" start_heap
  = (Ok (Rejected IllegalDestination, {| board := start_board; turn := W |}),
     start_heap).
Proof. vm_compute. reflexivity. Qed.

Example main_init_start :
  main_init ∅ = (Ok {| board := start_board; turn := W |}, start_heap).
Proof. vm_compute. reflexivity. Qed.

Example quit_leaves_loop :
  main_iter {| board := start_board; turn := W |} "  Quit " start_heap
  = (Ok None, start_heap).
Proof. vm_compute. reflexivity. Qed.

Lemma C3_sliding_rays_witness :
  (exists seg, ray (board e4_state) W 5 7 [] (-1) (-1) e4_heap
               = (Ok ([] ++ seg), e4_heap))
  /\ exists segs,
       moves_for (board e4_state) 5 7 e4_heap = (Ok (concat segs), e4_heap)
       /\ length segs = 4%nat.
Proof.
  pose proof (C3_sliding_rays e4_heap (board e4_state) 5 7 "B" W) as H.
  simpl in H. destruct H as [Hray Hmoves].
  - exact e4_board8.
  - reflexivity.
  - vm_compute. reflexivity.
  - reflexivity.
  - split.
    + destruct (Hray [] (-1, -1)) as (seg & E & _); [simpl; lia |].
      exists seg. exact E.
    + destruct Hmoves as (segs & E & HF); [left; reflexivity |].
      exists segs. split; [exact E |].
      apply Forall2_length in HF. rewrite <- HF. reflexivity.
Defined.

Lemma C4_is_in_check_witness :
  exists r, is_in_check start_board W check_heap = (Ok r, check_heap).
Proof.
  destruct (C4_is_in_check check_heap start_board W check_board8)
    as (r & E & _).
  exists r. exact E.
Defined.

Lemma C8_pawn_destinations_witness :
  (exists caps,
     moves_for start_board 4 6 start_heap
     = (Ok ([(4, 5); (4, 4)] ++ caps), start_heap)
     /\ (length caps <= 2)%nat)
  /\ (forall l h', moves_for (board e4_state) 4 4 e4_heap = (Ok l, h') ->
        (length (filter (fun d : Z * Z => (d.1 = 4)%Z) l) <= 1)%nat).
Proof.
  split.
  - destruct (C8_pawn_destinations start_heap start_board 4 6 "P" W)
      as [Hstart _]; [vm_compute; reflexivity | reflexivity | reflexivity |].
    destruct Hstart as (caps & E & Hlen & _);
      [exact start_board8 | reflexivity | reflexivity
      | vm_compute; reflexivity | vm_compute; reflexivity |].
    exists caps. split; [exact E | exact Hlen].
  - destruct (C8_pawn_destinations e4_heap (board e4_state) 4 4 "P" W)
      as [_ Hoff]; [vm_compute; reflexivity | reflexivity | reflexivity |].
    apply Hoff. discriminate.
Defined.

End Positions.

(** ** Further properties of the move generator *)

Section GeneratorMore.

Lemma bind_ret_l {A B} (a : A) (k : A -> M B) h : bind (ret a) k h = k a h.
Proof. reflexivity. Qed.

(** A run of [moves_for] that returns has read the piece of the source
    square. *)
Lemma moves_for_Ok_piece h b x y l h' :
  moves_for b x y h = (Ok l, h') ->
  exists piece, getitem2 b y x h = (Ok piece, h).
Proof.
  unfold moves_for. pose proof (getitem2_view b y x h) as G.
  destruct (cell (view h b) y x) as [piece|e|].
  - eauto.
  - by rewrite (bind_Raise _ _ _ _ _ G).
  - by rewrite (bind_Undef _ _ _ _ G).
Qed.

(** X1: whatever the board and the source square, every destination that
    moves_for returns is a square of [0,8) x [0,8) and is not the source
    square itself. *)
Theorem X1_destinations_on_board h b x y l h' :
  moves_for b x y h = (Ok l, h') ->
  forall nx ny, (nx, ny) ∈ l ->
    in_bounds nx ny = true /\ (nx, ny) <> (x, y).
Proof.
  intros Hrun nx ny Hin.
  destruct (moves_for_Ok_piece _ _ _ _ _ _ Hrun) as [piece Hpiece].
  destruct (moves_for_reads h b x y) as (r & E & HP & _).
  rewrite E in Hrun. injection Hrun as -> <-.
  destruct (color piece) as [c|] eqn:Hc.
  - apply getitem2_cell in Hpiece.
    specialize (HP l eq_refl piece c Hpiece Hc). rewrite Forall_forall in HP.
    destruct (HP _ Hin) as (Hb & t & Ht & Hne). simpl in *.
    split; [done |]. intros [= -> ->]. congruence.
  - rewrite (moves_for_empty _ _ _ _ _ Hpiece Hc) in E.
    injection E as <-. by apply elem_of_nil in Hin.
Qed.

Lemma X1_destinations_on_board_witness :
  in_bounds 2 5 = true /\ (2, 5) <> (1, 7).
Proof.
  apply (X1_destinations_on_board start_heap start_board 1 7
           [(2, 5); (0, 5)] start_heap).
  - vm_compute. reflexivity.
  - apply elem_of_cons. by left.
Defined.

(** What a loop appends when each pass appends the squares its element
    stands for. *)
Lemma for_each_collect {A} h (xs : list A)
    (body : A -> list (Z * Z) -> M (list (Z * Z))) (Q : A -> Z * Z -> Prop) :
  (forall a res, a ∈ xs ->
     exists app, body a res h = (Ok (res ++ app), h) /\
                 forall sq, sq ∈ app <-> Q a sq) ->
  forall res, exists app,
    for_each xs res body h = (Ok (res ++ app), h) /\
    forall sq, sq ∈ app <-> exists a, a ∈ xs /\ Q a sq.
Proof.
  induction xs as [|a xs IH]; intros Hbody res; simpl.
  - exists []. rewrite app_nil_r. split; [done |]. intros sq. split.
    + by intros ?%elem_of_nil.
    + intros (a & Ha & _). by apply elem_of_nil in Ha.
  - destruct (Hbody a res) as (app1 & E1 & H1); [by left |].
    destruct (IH (fun a' res' Ha' => Hbody a' res' (list_elem_of_further _ _ _ Ha'))
                 (res ++ app1)) as (app2 & E2 & H2).
    exists (app1 ++ app2). rewrite (bind_Ok _ _ _ _ _ E1), E2, app_assoc.
    split; [done |]. intros sq. rewrite elem_of_app, H1, H2. split.
    + intros [HQ|(a' & Ha' & HQ)]; [exists a; split; [by left | done] |].
      exists a'. split; [by right | done].
    + intros (a' & [->|Ha']%elem_of_cons & HQ); [by left | right; eauto].
Qed.

(** One call of [add], its flag dropped: the square is appended exactly
    when it is on the board and not held by side [c]. *)
Lemma add_run h b c res nx ny :
  total (view h b) ->
  exists app,
    (r <- add b c res nx ny ;; ret r.1) h = (Ok (res ++ app), h) /\
    forall sq, sq ∈ app <-> sq = (nx, ny) /\ ok_dest (view h b) c sq.
Proof.
  intros Htot. unfold add. destruct (in_bounds nx ny) eqn:Hin; simpl.
  - destruct (Htot _ _ Hin) as [t Ht].
    pose proof (getitem2_view b ny nx h) as G. rewrite Ht in G.
    unfold bind at 1. unfold bind at 1. rewrite G.
    destruct (negb (String.eqb t ".") && bool_decide (color t = Some c)) eqn:Hf.
    + apply friendly_true in Hf as [_ Hf]. exists []. rewrite app_nil_r.
      split; [done |]. intros sq. split; [by intros ?%elem_of_nil |].
      intros (-> & _ & t' & Ht' & Hne). simpl in Ht'. congruence.
    + apply friendly_false in Hf. exists [(nx, ny)]. split; [done |].
      intros sq. rewrite list_elem_of_singleton. split; [|tauto].
      intros ->. split; [done |]. split; [done |]. by exists t.
  - exists []. rewrite app_nil_r. split; [done |]. intros sq.
    split; [by intros ?%elem_of_nil |].
    intros (-> & Hb & _). simpl in Hb. congruence.
Qed.

Lemma knight_offsets_spec (d : Z * Z) :
  d ∈ knight_offsets <-> Z.abs d.1 * Z.abs d.2 = 2.
Proof.
  destruct d as [a b]. simpl. unfold knight_offsets. split.
  - intros H. repeat (apply elem_of_cons in H as [[= -> ->]|H]; [reflexivity |]).
    by apply elem_of_nil in H.
  - intros H.
    pose proof (Z.abs_nonneg a) as Ha0. pose proof (Z.abs_nonneg b) as Hb0.
    assert (Z.abs a <= 2 /\ Z.abs b <= 2) as [Ha Hb].
    { generalize dependent (Z.abs a). generalize dependent (Z.abs b).
      intros B HB A Hprod HA.
      destruct (decide (A = 0)) as [->|]; [lia |].
      destruct (decide (B = 0)) as [->|]; [lia |]. split; nia. }
    assert (a = -2 \/ a = -1 \/ a = 0 \/ a = 1 \/ a = 2) as Ha' by lia.
    assert (b = -2 \/ b = -1 \/ b = 0 \/ b = 1 \/ b = 2) as Hb' by lia.
    destruct Ha' as [->|[->|[->|[->| ->]]]], Hb' as [->|[->|[->|[->| ->]]]];
      simpl in H; try lia; rewrite !elem_of_cons; tauto.
Qed.

Lemma elem_of_steps (d : Z) : d ∈ [-1; 0; 1] <-> -1 <= d <= 1.
Proof. rewrite !elem_of_cons, elem_of_nil. lia. Qed.

(** X2: on an 8 by 8 board, the destinations of a knight of colour c are
    exactly the squares a knight's jump away (one step along one axis and
    two along the other) that are on the board and empty or held by the
    other colour; what stands between does not matter. *)
Theorem X2_knight_moves h b x y piece c :
  board8 h b -> getitem2 b y x h = (Ok piece, h) ->
  lower piece = "n" -> color piece = Some c ->
  exists l, moves_for b x y h = (Ok l, h) /\
    forall nx ny, (nx, ny) ∈ l <->
      Z.abs (nx - x) * Z.abs (ny - y) = 2
      /\ in_bounds nx ny = true
      /\ exists t, getitem2 b ny nx h = (Ok t, h) /\ color t <> Some c.
Proof.
  intros H8 Hpiece Hlow Hc.
  pose proof (board8_total _ _ H8) as Htot.
  unfold moves_for. rewrite (bind_Ok _ _ _ _ _ Hpiece), Hc, Hlow. simpl.
  destruct (for_each_collect h knight_offsets
              (fun d res => r <- add b c res (x + d.1) (y + d.2) ;; ret r.1)
              (fun d sq => sq = (x + d.1, y + d.2) /\ ok_dest (view h b) c sq))
    with (res := @nil (Z * Z)) as (app & E & Happ).
  { intros d res _. by apply add_run. }
  exists app. rewrite (bind_Ok _ _ _ _ _ E). split; [done |].
  intros nx ny. rewrite Happ. split.
  - intros (d & Hd%knight_offsets_spec & [= -> ->] & Hb & t & Ht & Hne).
    simpl in *. split; [|split; [done |]].
    + by replace (x + d.1 - x) with d.1 by lia;
         replace (y + d.2 - y) with d.2 by lia.
    + exists t. by rewrite getitem2_cell.
  - intros (Hjump & Hb & t & Ht & Hne). exists (nx - x, ny - y).
    split; [by apply knight_offsets_spec |]. simpl.
    split; [f_equal; lia |]. split; [done |]. exists t.
    by rewrite <- getitem2_cell.
Qed.

Lemma X2_knight_moves_witness :
  exists l, moves_for start_board 1 7 start_heap = (Ok l, start_heap) /\
    forall nx ny, (nx, ny) ∈ l <->
      Z.abs (nx - 1) * Z.abs (ny - 7) = 2
      /\ in_bounds nx ny = true
      /\ exists t, getitem2 start_board ny nx start_heap = (Ok t, start_heap) /\
                   color t <> Some W.
Proof.
  apply (X2_knight_moves start_heap start_board 1 7 "N" W).
  - exact start_board8.
  - vm_compute. reflexivity.
  - reflexivity.
  - reflexivity.
Defined.

(** X3: on an 8 by 8 board, the destinations of a king of colour c are
    exactly the squares next to it (at most one step along each axis, not
    the square itself) that are on the board and empty or held by the other
    colour; whether the square is attacked plays no part. *)
Theorem X3_king_moves h b x y piece c :
  board8 h b -> getitem2 b y x h = (Ok piece, h) ->
  lower piece = "k" -> color piece = Some c ->
  exists l, moves_for b x y h = (Ok l, h) /\
    forall nx ny, (nx, ny) ∈ l <->
      Z.max (Z.abs (nx - x)) (Z.abs (ny - y)) = 1
      /\ in_bounds nx ny = true
      /\ exists t, getitem2 b ny nx h = (Ok t, h) /\ color t <> Some c.
Proof.
  intros H8 Hpiece Hlow Hc.
  pose proof (board8_total _ _ H8) as Htot.
  unfold moves_for. rewrite (bind_Ok _ _ _ _ _ Hpiece), Hc, Hlow.
  change (String.eqb "k" "p") with false. change (String.eqb "k" "n") with false.
  change (String.eqb "k" "b") with false. change (String.eqb "k" "q") with false.
  change (String.eqb "k" "r") with false. change (String.eqb "k" "k") with true.
  cbv beta iota zeta delta [orb]. rewrite !bind_ret_l.
  destruct (for_each_collect h [-1; 0; 1]
              (fun dx res =>
                 for_each [-1; 0; 1] res (fun dy res =>
                   if (dx =? 0) && (dy =? 0) then ret res
                   else r <- add b c res (x + dx) (y + dy) ;; ret r.1))
              (fun dx sq => exists dy, dy ∈ [-1; 0; 1] /\
                 ((dx =? 0) && (dy =? 0) = false /\
                  sq = (x + dx, y + dy) /\ ok_dest (view h b) c sq)))
    with (res := @nil (Z * Z)) as (app & E & Happ).
  { intros dx res _. apply for_each_collect. intros dy res' _.
    destruct ((dx =? 0) && (dy =? 0)) eqn:Hz.
    - exists []. rewrite app_nil_r. split; [done |]. intros sq.
      split; [by intros ?%elem_of_nil | by intros [? _]].
    - destruct (add_run h b c res' (x + dx) (y + dy) Htot) as (app & E & Happ).
      exists app. split; [done |]. intros sq. rewrite Happ. tauto. }
  exists app. rewrite (bind_Ok _ _ _ _ _ E). split; [done |].
  intros nx ny. rewrite Happ. split.
  - intros (dx & Hdx & dy & Hdy & Hz & [= -> ->] & Hb & t & Ht & Hne).
    simpl in *. split; [|split; [done |]].
    + apply elem_of_steps in Hdx, Hdy. lia.
    + exists t. by rewrite getitem2_cell.
  - intros (Hnear & Hb & t & Ht & Hne).
    exists (nx - x). split; [|exists (ny - y); split; [|split; [|split]]].
    + apply elem_of_steps. lia.
    + apply elem_of_steps. lia.
    + lia.
    + f_equal; lia.
    + split; [done |]. exists t. by rewrite <- getitem2_cell.
Qed.

Lemma X3_king_moves_witness :
  exists l, moves_for start_board 4 7 check_heap = (Ok l, check_heap) /\
    forall nx ny, (nx, ny) ∈ l <->
      Z.max (Z.abs (nx - 4)) (Z.abs (ny - 7)) = 1
      /\ in_bounds nx ny = true
      /\ exists t, getitem2 start_board ny nx check_heap = (Ok t, check_heap) /\
                   color t <> Some W.
Proof.
  apply (X3_king_moves check_heap start_board 4 7 "K" W).
  - exact check_board8.
  - vm_compute. reflexivity.
  - reflexivity.
  - reflexivity.
Defined.

Lemma in_bounds_false x y :
  in_bounds x y = false <-> ~ (0 <= x < 8 /\ 0 <= y < 8).
Proof. unfold in_bounds. lia. Qed.

(** X4: on an 8 by 8 board, the destinations of a pawn of colour c on an
    in-bounds square are exactly: the square one step ahead when it is on
    the board and empty; the square two steps ahead when the pawn is on its
    start row and both squares ahead are empty; and each of the two squares
    diagonally ahead when it is on the board and held by a piece of the
    other colour.  So a pawn never captures straight ahead, never steps
    diagonally onto an empty square, and never jumps over a piece. *)
Theorem X4_pawn_moves h b x y piece c :
  board8 h b -> in_bounds x y = true ->
  getitem2 b y x h = (Ok piece, h) -> lower piece = "p" ->
  color piece = Some c ->
  exists l, moves_for b x y h = (Ok l, h) /\
    forall nx ny, (nx, ny) ∈ l <->
      (nx = x /\ ny = y + pawn_direction c
       /\ in_bounds x (y + pawn_direction c) = true
       /\ getitem2 b (y + pawn_direction c) x h = (Ok ".", h))
      \/ (nx = x /\ ny = y + 2 * pawn_direction c /\ y = pawn_start_row c
          /\ getitem2 b (y + pawn_direction c) x h = (Ok ".", h)
          /\ getitem2 b (y + 2 * pawn_direction c) x h = (Ok ".", h))
      \/ ((nx = x - 1 \/ nx = x + 1) /\ ny = y + pawn_direction c
          /\ in_bounds nx ny = true
          /\ exists t, getitem2 b ny nx h = (Ok t, h) /\ t <> "." /\
                       color t <> Some c).
Proof.
  intros H8 Hxy Hpiece Hlow Hc.
  set (d := pawn_direction c).
  set (D1 := fun sq : Z * Z =>
         sq.1 = x /\ sq.2 = y + d /\ in_bounds x (y + d) = true
         /\ getitem2 b (y + d) x h = (Ok ".", h)).
  set (D2 := fun sq : Z * Z =>
         sq.1 = x /\ sq.2 = y + 2 * d /\ y = pawn_start_row c
         /\ getitem2 b (y + d) x h = (Ok ".", h)
         /\ getitem2 b (y + 2 * d) x h = (Ok ".", h)).
  set (D3 := fun sq : Z * Z =>
         (sq.1 = x - 1 \/ sq.1 = x + 1) /\ sq.2 = y + d
         /\ in_bounds sq.1 sq.2 = true
         /\ exists t, getitem2 b sq.2 sq.1 h = (Ok t, h) /\ t <> "." /\
                      color t <> Some c).
  assert (robust True False h h (moves_for b x y) (moves_for b x y)
            (fun l => forall sq, sq ∈ l <-> D1 sq \/ D2 sq \/ D3 sq)) as Hrob.
  { pose proof (fun _ : True => board8_total _ _ H8) as Htot.
    assert (False -> Forall is_Some (view h b)) as Hal by done.
    pose proof (robust_read h h b b eq_refl True False Htot Hal) as read.
    unfold moves_for.
    eapply robust_bind; [by apply read |]. intros piece' Hp'. simpl in Hp'.
    apply getitem2_cell in Hp'. rewrite Hpiece in Hp'. injection Hp' as <-.
    rewrite Hc, Hlow. simpl.
    fold (pawn_direction c). fold (pawn_start_row c). fold d.
    eapply robust_bind with
      (P := fun res => forall sq, sq ∈ res <-> D1 sq \/ D2 sq).
    { destruct (in_bounds x (y + d)) eqn:Hone.
      2: { apply robust_ret. intros sq. split; [by intros ?%elem_of_nil |].
           intros [(_ & _ & ? & _)|(_ & _ & Hy & _)]; [done |].
           apply in_bounds_spec in Hxy. apply in_bounds_false in Hone.
           subst d. destruct c; simpl in *; lia. }
      eapply robust_bind; [by apply read |]. intros t1 Ht1. simpl in Ht1.
      apply getitem2_cell in Ht1.
      destruct (String.eqb_spec t1 ".") as [->|Hne1].
      2: { apply robust_ret. intros sq. split; [by intros ?%elem_of_nil |].
           intros [(_ & _ & _ & H1)|(_ & _ & _ & H1 & _)]; congruence. }
      destruct (Z.eqb_spec y (pawn_start_row c)) as [Hy|Hy].
      2: { apply robust_ret. intros sq. simpl. rewrite list_elem_of_singleton.
           split.
           - intros ->. left. done.
           - intros [(? & ? & _)|(_ & _ & ? & _)]; [|done].
             destruct sq; simpl in *; congruence. }
      eapply robust_bind.
      { apply robust_getitem2; [done | | done]. intros _. apply Htot; [done |].
        apply in_bounds_spec in Hxy. apply in_bounds_spec.
        subst d. destruct c; simpl in *; lia. }
      intros t2 Ht2. simpl in Ht2. apply getitem2_cell in Ht2.
      destruct (String.eqb_spec t2 ".") as [->|Hne2]; apply robust_ret;
        intros sq; simpl.
      - rewrite elem_of_cons, list_elem_of_singleton. split.
        + intros [->| ->]; [left | right]; done.
        + intros [(? & ? & _)|(? & ? & _)]; destruct sq; simpl in *;
            [left | right]; congruence.
      - rewrite list_elem_of_singleton. split.
        + intros ->. left. done.
        + intros [(? & ? & _)|(_ & _ & _ & _ & H2)]; [|congruence].
          destruct sq; simpl in *; congruence. }
    intros res Hres.
    eapply robust_bind; [|intros res' Hres'; apply robust_ret; exact Hres'].
    eapply robust_bind; [by apply capture_robust |].
    intros res1 (caps1 & -> & Hcaps1).
    eapply robust_bind; [by apply capture_robust |].
    intros res2 (caps2 & -> & Hcaps2). apply robust_ret.
    replace (x + -1) with (x - 1) in * by lia.
    intros sq. rewrite !elem_of_app, Hres.
    assert (sq ∈ caps1 <-> sq.1 = x - 1 /\ D3 sq) as ->.
    { destruct Hcaps1 as [(-> & Hi1 & He1)|[-> Hn1]].
      - rewrite list_elem_of_singleton. split.
        + intros ->. split; [done |]. split; [by left |]. done.
        + intros (? & _ & ? & _). destruct sq; simpl in *; congruence.
      - split; [by intros ?%elem_of_nil |].
        intros (H1 & _ & H2 & Hi & He). exfalso. apply Hn1.
        by rewrite <- H1, <- H2. }
    assert (sq ∈ caps2 <-> sq.1 = x + 1 /\ D3 sq) as ->.
    { destruct Hcaps2 as [(-> & Hi2 & He2)|[-> Hn2]].
      - rewrite list_elem_of_singleton. split.
        + intros ->. split; [done |]. split; [by right |]. done.
        + intros (? & _ & ? & _). destruct sq; simpl in *; congruence.
      - split; [by intros ?%elem_of_nil |].
        intros (H1 & _ & H2 & Hi & He). exfalso. apply Hn2.
        by rewrite <- H1, <- H2. }
    assert (D3 sq -> sq.1 = x - 1 \/ sq.1 = x + 1) by (by intros [? _]).
    tauto. }
  destruct Hrob as (r & E & _ & HP & Ht & _). destruct (Ht I) as [l ->].
  exists l. split; [done |]. intros nx ny. rewrite (HP l eq_refl (nx, ny)).
  unfold D1, D2, D3. simpl. done.
Qed.

Lemma X4_pawn_moves_witness :
  exists l, moves_for (board e4_state) 4 4 e4_heap = (Ok l, e4_heap) /\
            ((4, 3) ∈ l <->
             (4 = 4 /\ 3 = 4 + pawn_direction W
              /\ in_bounds 4 (4 + pawn_direction W) = true
              /\ getitem2 (board e4_state) (4 + pawn_direction W) 4 e4_heap
                 = (Ok ".", e4_heap))
             \/ (4 = 4 /\ 3 = 4 + 2 * pawn_direction W /\ 4 = pawn_start_row W
                 /\ getitem2 (board e4_state) (4 + pawn_direction W) 4 e4_heap
                    = (Ok ".", e4_heap)
                 /\ getitem2 (board e4_state) (4 + 2 * pawn_direction W) 4 e4_heap
                    = (Ok ".", e4_heap))
             \/ ((4 = 4 - 1 \/ 4 = 4 + 1) /\ 3 = 4 + pawn_direction W
                 /\ in_bounds 4 3 = true
                 /\ exists t, getitem2 (board e4_state) 3 4 e4_heap = (Ok t, e4_heap)
                              /\ t <> "." /\ color t <> Some W)).
Proof.
  destruct (X4_pawn_moves e4_heap (board e4_state) 4 4 "P" W)
    as (l & E & Hl).
  - exact e4_board8.
  - reflexivity.
  - vm_compute. reflexivity.
  - reflexivity.
  - reflexivity.
  - exists l. split; [exact E | apply Hl].
Defined.

End GeneratorMore.

(** ** What an accepted move does to the board *)

Section AcceptedMoves.

Lemma grid8_row v y :
  grid8 v -> 0 <= y < 8 ->
  exists cells, v !! Z.to_nat y = Some (Some cells) /\ length cells = 8%nat.
Proof.
  intros [Hlen Hrows] Hy.
  destruct (lookup_lt_is_Some_2 v (Z.to_nat y)) as [o Ho]; [lia |].
  rewrite Forall_lookup in Hrows. destruct (Hrows _ _ Ho) as (cells & -> & Hc).
  eauto.
Qed.

Lemma cell_in v y x cells :
  0 <= y -> 0 <= x -> v !! Z.to_nat y = Some (Some cells) ->
  cell v y x = match cells !! Z.to_nat x with
               | Some t => Ok t
               | None => Raise IndexError
               end.
Proof.
  intros Hy Hx Hrow. unfold cell. rewrite getitem_nonneg, Hrow by done. simpl.
  by rewrite getitem_nonneg.
Qed.

Lemma vset_in v y x t cells :
  in_bounds x y = true ->
  v !! Z.to_nat y = Some (Some cells) -> length cells = 8%nat ->
  vset v y x t = Ok (<[Z.to_nat y := Some (<[Z.to_nat x := t]> cells)]> v).
Proof.
  intros [Hx Hy]%in_bounds_spec Hrow Hlen. unfold vset.
  rewrite getitem_nonneg, Hrow by lia. simpl.
  rewrite setitem_in_range by lia. simpl.
  apply setitem_in_range. apply lookup_lt_Some in Hrow. lia.
Qed.

(** Writing a square of an 8 by 8 board leaves every other square as it
    was. *)
Lemma cell_vset_other v y x t v' y' x' :
  grid8 v -> in_bounds x y = true -> in_bounds x' y' = true ->
  vset v y x t = Ok v' -> (x', y') <> (x, y) ->
  cell v' y' x' = cell v y' x'.
Proof.
  intros H8 Hxy Hxy' Hset Hne.
  pose proof Hxy as [Hx Hy]%in_bounds_spec.
  pose proof Hxy' as [Hx' Hy']%in_bounds_spec.
  destruct (grid8_row v y H8 Hy) as (cells & Hrow & Hlen).
  destruct (grid8_row v y' H8 Hy') as (cells' & Hrow' & Hlen').
  rewrite (vset_in _ _ _ _ _ Hxy Hrow Hlen) in Hset. injection Hset as <-.
  rewrite (cell_in v y' x' cells') by (done || lia).
  destruct (decide (y' = y)) as [->|Hyy].
  - rewrite Hrow in Hrow'. injection Hrow' as <-.
    erewrite cell_in; [| lia | lia |].
    2: { apply list_lookup_insert_eq. by eapply lookup_lt_Some. }
    rewrite list_lookup_insert_ne; [done |]. intros Heq. apply Hne.
    f_equal. lia.
  - erewrite cell_in; [done | lia | lia |].
    rewrite list_lookup_insert_ne; [done | lia].
Qed.

(** What led to an accepted move. *)
Lemma attempt_move_accepted b side move h s h' :
  wf_board h b ->
  attempt_move {| board := b; turn := side |} move h = (Ok (Accepted, s), h') ->
  exists fx fy tx ty piece legal,
    parse_move move = Ok (Some (fx, fy, tx, ty))
    /\ in_bounds fx fy = true /\ in_bounds tx ty = true
    /\ cell (view h b) fy fx = Ok piece /\ color piece = Some side
    /\ moves_for b fx fy h = (Ok legal, h) /\ (tx, ty) ∈ legal
    /\ simulate (view h b) piece side fx fy tx ty = Ok (view h' (board s))
    /\ is_in_check (board s) side h' = (Ok false, h')
    /\ turn s = other side /\ extends h h'.
Proof.
  intros Hwf. rewrite attempt_move_unfold.
  destruct (parse_move_cases move)
    as [Hp | (cx & cy & ctx & cty & fx & ry & tx & rty
              & _ & _ & Hfx & _ & Hry & _ & Htx & _ & Hrty & Hp)].
  { assert (lift (parse_move move) h = (Ok None, h)) as E.
    { unfold lift. by rewrite Hp. }
    rewrite (bind_Ok _ _ _ _ _ E). done. }
  set (fy := 8 - ry) in *. set (ty := 8 - rty) in *.
  assert (in_bounds fx fy = true) as Hfrom by (apply in_bounds_spec; lia).
  assert (in_bounds tx ty = true) as Hto by (apply in_bounds_spec; lia).
  assert (lift (parse_move move) h = (Ok (Some (fx, fy, tx, ty)), h)) as E.
  { unfold lift. by rewrite Hp. }
  rewrite (bind_Ok _ _ _ _ _ E). clear E.
  pose proof (getitem2_view b fy fx h) as G.
  destruct (cell (view h b) fy fx) as [piece|e|] eqn:Hcell.
  2: by rewrite (bind_Raise _ _ _ _ _ G).
  2: by rewrite (bind_Undef _ _ _ _ G).
  rewrite (bind_Ok _ _ _ _ _ G). simpl.
  destruct (String.eqb piece "." || negb (bool_decide (color piece = Some side)))
    eqn:Hown; [done |].
  apply orb_false_elim in Hown as [_ Hown]. apply negb_false_iff in Hown.
  apply bool_decide_eq_true in Hown.
  destruct (moves_for_reads h b fx fy) as (rm & M & _).
  destruct rm as [legal|e|].
  2: by rewrite (bind_Raise _ _ _ _ _ M).
  2: by rewrite (bind_Undef _ _ _ _ M).
  rewrite (bind_Ok _ _ _ _ _ M).
  destruct (bool_decide ((tx, ty) ∈ legal)) eqn:Hleg; simpl; [|done].
  apply bool_decide_eq_true in Hleg.
  destruct (commit_run b side piece fx fy tx ty h Hwf)
    as (b' & h1 & Hnd & Hwf' & Hext & C).
  destruct (simulate (view h b) piece side fx fy tx ty) as [v3|e|] eqn:Hsim.
  2, 3: by rewrite C.
  destruct C as (Hv & rc & K & C). rewrite C.
  destruct rc as [[|]|e|]; simpl; try done.
  intros [= <- <-]. exists fx, fy, tx, ty, piece, legal. simpl.
  rewrite Hv. repeat split; done.
Qed.

(** A destination that [moves_for] returns is not the source square and is
    not held by the side of the moved piece. *)
Lemma legal_destination h b x y piece c l nx ny :
  cell (view h b) y x = Ok piece -> color piece = Some c ->
  moves_for b x y h = (Ok l, h) -> (nx, ny) ∈ l ->
  (nx, ny) <> (x, y) /\ in_bounds nx ny = true
  /\ exists t, cell (view h b) ny nx = Ok t /\ color t <> Some c.
Proof.
  intros Hpiece Hc Hrun Hin.
  destruct (moves_for_reads h b x y) as (r & E & HP & _).
  rewrite E in Hrun. injection Hrun as ->.
  specialize (HP l eq_refl piece c Hpiece Hc). rewrite Forall_forall in HP.
  destruct (HP _ Hin) as (Hb & t & Ht & Hne). simpl in *.
  split; [|split; [done | eauto]]. intros [= -> ->]. congruence.
Qed.

(** X5: when attempt_move accepts a move on an 8 by 8 board, the text
    parses to a source and a destination square that differ; the source
    square held a piece of the side to move and the destination is in the
    list moves_for gives for it; on the board handed back the source square
    is empty, the destination holds the moved piece (the queen of the side
    for a pawn that reaches row 0 or 7), every other square of the board
    holds what it held, and the king of the side that moved is not in
    check; the row objects of the board before the move are untouched. *)
Theorem X5_accepted_move st move h st' h' :
  board8 h (board st) ->
  attempt_move st move h = (Ok (Accepted, st'), h') ->
  exists fx fy tx ty piece,
    parse_move move = Ok (Some (fx, fy, tx, ty))
    /\ (tx, ty) <> (fx, fy)
    /\ getitem2 (board st) fy fx h = (Ok piece, h)
    /\ color piece = Some (turn st)
    /\ (exists legal, moves_for (board st) fx fy h = (Ok legal, h)
                      /\ (tx, ty) ∈ legal)
    /\ getitem2 (board st') fy fx h' = (Ok ".", h')
    /\ getitem2 (board st') ty tx h'
       = (Ok (if String.eqb (lower piece) "p" && ((ty =? 0) || (ty =? 7))
              then match turn st with W => "Q" | B => "q" end
              else piece), h')
    /\ (forall x y, in_bounds x y = true ->
          (x, y) <> (fx, fy) -> (x, y) <> (tx, ty) ->
          exists t, getitem2 (board st) y x h = (Ok t, h)
                    /\ getitem2 (board st') y x h' = (Ok t, h'))
    /\ is_in_check (board st') (turn st) h' = (Ok false, h')
    /\ view h' (board st) = view h (board st).
Proof.
  destruct st as [b side]. simpl. intros H8 Hrun.
  pose proof (board8_wf _ _ H8) as Hwf.
  destruct (attempt_move_accepted _ _ _ _ _ _ Hwf Hrun)
    as (fx & fy & tx & ty & piece & legal & Hparse & Hfrom & Hto & Hpiece
        & Hcol & Hmoves & Hleg & Hsim & Hchk & _ & Hext).
  destruct (legal_destination _ _ _ _ _ _ _ _ _ Hpiece Hcol Hmoves Hleg)
    as (Hne & _).
  exists fx, fy, tx, ty, piece.
  split; [done |]. split; [done |]. split; [by apply getitem2_cell |].
  split; [done |]. split; [eauto |].
  apply board8_grid8 in H8 as G0.
  unfold simulate in Hsim.
  destruct (vset_grid8 (view h b) ty tx piece G0 Hto) as (v1 & Hs1 & G1).
  rewrite Hs1 in Hsim. simpl in Hsim.
  destruct (vset_grid8 v1 fy fx "." G1 Hfrom) as (v2 & Hs2 & G2).
  rewrite Hs2 in Hsim. simpl in Hsim.
  assert (forall x y, in_bounds x y = true -> (x, y) <> (fx, fy) ->
            (x, y) <> (tx, ty) -> cell v2 y x = cell (view h b) y x) as Hrest.
  { intros x y Hxy Hn1 Hn2.
    rewrite (cell_vset_other _ _ _ _ _ _ _ G1 Hfrom Hxy Hs2 Hn1).
    by rewrite (cell_vset_other _ _ _ _ _ _ _ G0 Hto Hxy Hs1 Hn2). }
  assert (cell v2 fy fx = Ok ".") as Hsrc by by eapply cell_vset_same.
  assert (cell v2 ty tx = Ok piece) as Hdst.
  { rewrite (cell_vset_other _ _ _ _ _ _ _ G1 Hfrom Hto Hs2 Hne).
    by eapply cell_vset_same. }
  assert (forall x y, in_bounds x y = true -> (x, y) <> (fx, fy) ->
            (x, y) <> (tx, ty) ->
            exists t, getitem2 b y x h = (Ok t, h) /\ cell v2 y x = Ok t) as Hrest'.
  { intros x y Hxy Hn1 Hn2.
    destruct (board8_total _ _ (proj2 (board8_grid8 _ _) G0) x y Hxy) as [t Ht].
    exists t. split; [by apply getitem2_cell |]. by rewrite Hrest. }
  destruct (String.eqb (lower piece) "p" && ((ty =? 0) || (ty =? 7))).
  - split; [|split; [|split; [|split; [done | by apply view_extends]]]].
    + apply getitem2_cell. rewrite <- Hsrc.
      apply (cell_vset_other v2 ty tx _ _ fy fx G2 Hto Hfrom Hsim).
      intros [= -> ->]. done.
    + apply getitem2_cell. by eapply cell_vset_same.
    + intros x y Hxy Hn1 Hn2. destruct (Hrest' x y Hxy Hn1 Hn2) as (t & Ht & Ht').
      exists t. split; [done |]. apply getitem2_cell. rewrite <- Ht'.
      by apply (cell_vset_other v2 ty tx _ _ y x G2 Hto Hxy Hsim).
  - injection Hsim as Hsim.
    split; [|split; [|split; [|split; [done | by apply view_extends]]]].
    + apply getitem2_cell. by rewrite <- Hsim.
    + apply getitem2_cell. by rewrite <- Hsim.
    + intros x y Hxy Hn1 Hn2. destruct (Hrest' x y Hxy Hn1 Hn2) as (t & Ht & Ht').
      exists t. split; [done |]. apply getitem2_cell. by rewrite <- Hsim.
Qed.

Lemma X5_accepted_move_witness :
  exists fx fy tx ty piece,
    parse_move "e2e4" = Ok (Some (fx, fy, tx, ty))
    /\ (tx, ty) <> (fx, fy)
    /\ getitem2 start_board fy fx start_heap = (Ok piece, start_heap)
    /\ color piece = Some W
    /\ (exists legal, moves_for start_board fx fy start_heap = (Ok legal, start_heap)
                      /\ (tx, ty) ∈ legal)
    /\ getitem2 (board e4_state) fy fx e4_heap = (Ok ".", e4_heap)
    /\ getitem2 (board e4_state) ty tx e4_heap
       = (Ok (if String.eqb (lower piece) "p" && ((ty =? 0) || (ty =? 7))
              then "Q" else piece), e4_heap)
    /\ (forall x y, in_bounds x y = true ->
          (x, y) <> (fx, fy) -> (x, y) <> (tx, ty) ->
          exists t, getitem2 start_board y x start_heap = (Ok t, start_heap)
                    /\ getitem2 (board e4_state) y x e4_heap = (Ok t, e4_heap))
    /\ is_in_check (board e4_state) W e4_heap = (Ok false, e4_heap)
    /\ view e4_heap start_board = view start_heap start_board.
Proof.
  apply (X5_accepted_move {| board := start_board; turn := W |} "e2e4"
           start_heap e4_state e4_heap).
  - exact start_board8.
  - vm_compute. reflexivity.
Defined.

End AcceptedMoves.

(** ** The kings stay on the board *)

Section Kings.

Lemma count_row_insert g cells (i : nat) t old :
  cells !! i = Some old ->
  (count_row g (<[i := t]> cells) + (if decide (old = g) then 1 else 0)
   = count_row g cells + (if decide (t = g) then 1 else 0))%nat.
Proof.
  unfold count_row. revert i.
  induction cells as [|c cells IH]; intros [|i] H; simpl in *; try done.
  - injection H as ->. rewrite !filter_cons.
    repeat case_decide; simpl; lia.
  - rewrite !filter_cons. specialize (IH i H).
    destruct (decide (c = g)); simpl; lia.
Qed.

Lemma count_glyph_insert g v (j : nat) cells cells' :
  v !! j = Some (Some cells) ->
  (count_glyph g (<[j := Some cells']> v) + count_row g cells
   = count_glyph g v + count_row g cells')%nat.
Proof.
  unfold count_glyph. revert j.
  induction v as [|o v IH]; intros [|j] H; simpl in *; try done.
  - injection H as ->. lia.
  - specialize (IH j H). unfold fmap in IH. lia.
Qed.

(** Writing [t] on a square that held [old] moves the number of cells
    that hold [g] by what the two glyphs contribute. *)
Lemma vset_count g v y x t old v' :
  grid8 v -> in_bounds x y = true -> cell v y x = Ok old ->
  vset v y x t = Ok v' ->
  (count_glyph g v' + (if decide (old = g) then 1 else 0)
   = count_glyph g v + (if decide (t = g) then 1 else 0))%nat.
Proof.
  intros H8 Hxy Hold Hset. pose proof Hxy as [Hx Hy]%in_bounds_spec.
  destruct (grid8_row v y H8 Hy) as (cells & Hrow & Hlen).
  rewrite (vset_in _ _ _ _ _ Hxy Hrow Hlen) in Hset. injection Hset as <-.
  rewrite (cell_in v y x cells) in Hold by (done || lia).
  destruct (cells !! Z.to_nat x) as [old'|] eqn:Hc; [|done].
  injection Hold as ->.
  pose proof (count_glyph_insert g v _ cells (<[Z.to_nat x := t]> cells) Hrow).
  pose proof (count_row_insert g cells _ t old Hc). lia.
Qed.

(** A glyph that the board holds once is on one square only. *)
Lemma glyph_unique g v x y x' y' :
  grid8 v -> count_glyph g v = 1%nat -> g <> "." ->
  in_bounds x y = true -> in_bounds x' y' = true ->
  cell v y x = Ok g -> cell v y' x' = Ok g -> (x', y') = (x, y).
Proof.
  intros H8 Hone Hg Hxy Hxy' Hc Hc'.
  destruct (decide ((x', y') = (x, y))) as [|Hne]; [done |]. exfalso.
  destruct (vset_grid8 v y x "." H8 Hxy) as (v1 & Hs1 & H81).
  pose proof (vset_count g _ _ _ _ _ _ H8 Hxy Hc Hs1) as N1.
  rewrite <- (cell_vset_other _ _ _ _ _ _ _ H8 Hxy Hxy' Hs1 Hne) in Hc'.
  destruct (vset_grid8 v1 y' x' "." H81 Hxy') as (v2 & Hs2 & _).
  pose proof (vset_count g _ _ _ _ _ _ H81 Hxy' Hc' Hs2) as N2.
  rewrite decide_True in N1, N2 by done.
  rewrite (decide_False (P := "." = g)) in N1, N2 by done. lia.
Qed.

(** With the king of [side] on one square only, a piece of the other
    side that has this square among its destinations gives check. *)
Lemma is_in_check_attacked h b side kx ky x y t pc l :
  board8 h b -> in_bounds kx ky = true ->
  cell (view h b) ky kx = Ok (king_of side) ->
  (forall x' y', in_bounds x' y' = true ->
     cell (view h b) y' x' = Ok (king_of side) -> (x', y') = (kx, ky)) ->
  in_bounds x y = true -> cell (view h b) y x = Ok t ->
  color t = Some pc -> pc <> side ->
  moves_for b x y h = (Ok l, h) -> (kx, ky) ∈ l ->
  is_in_check b side h = (Ok true, h).
Proof.
  intros H8 Hk Hking Huniq Hxy Ht Hpc Hne Hmoves Hin.
  unfold king_of in *.
  pose proof (fun _ : True => board8_total _ _ H8) as Htot.
  assert (False -> Forall is_Some (view h b)) as Hal by done.
  destruct (is_in_check_robust h h b b eq_refl True False Htot Hal side)
    as (r0 & E & _ & HP & Hr & _).
  destruct (Hr I) as [r ->]. rewrite E. f_equal. f_equal.
  destruct (HP r eq_refl) as (o & Hfind & Ho).
  destruct (find_king_robust h h b b eq_refl True False Htot Hal
              (match side with W => "K" | B => "k" end) _
              squares_in_bounds) as (o' & Hfind' & _ & HPk & _).
  rewrite Hfind in Hfind'. injection Hfind' as <-.
  specialize (HPk o eq_refl). destruct o as [[kx' ky']|].
  - destruct HPk as (Hk' & pre & post & Hsq & _).
    assert (in_bounds kx' ky' = true) as Hin'.
    { apply elem_of_squares. rewrite Hsq. apply elem_of_app. right. by left. }
    injection (Huniq _ _ Hin' Hk') as -> ->.
    apply Ho. exists y, x. split; [by apply elem_of_squares |].
    by exists t, pc, l.
  - exfalso. apply (HPk ky kx); [by apply elem_of_squares | done].
Qed.

Lemma other_other side : other (other side) = side.
Proof. by destruct side. Qed.

Lemma color_king_of side : color (king_of side) = Some side.
Proof. by destruct side. Qed.

(** [kings_safe] is kept by a pass through [attempt_move]: a rejection
    hands back the board it was given, and the square an accepted move
    takes cannot hold a king -- not the mover's, whose squares are no
    destinations, and not the other one, which would have been in check. *)
Lemma attempt_move_keeps_kings st move h v st' h' :
  kings_safe h st ->
  attempt_move st move h = (Ok (v, st'), h') ->
  kings_safe h' st'.
Proof.
  destruct st as [b side]. intros (H8 & HK & Hk & Hsafe) Hrun. simpl in *.
  pose proof (board8_wf _ _ H8) as Hwf.
  destruct v as [r|].
  - (* a rejection hands back the board it was given *)
    destruct (attempt_move_rel b b side move h h Hwf Hwf eq_refl)
      as (r1 & h1' & r2 & h2' & E1 & E2 & Hext & _ & Hm & _).
    rewrite E1 in E2. injection E2 as <- <-.
    rewrite Hrun in E1. injection E1 as <- <-.
    destruct Hm as (_ & -> & _). simpl.
    pose proof (view_extends _ _ _ Hwf Hext) as Hview.
    unfold kings_safe. simpl. rewrite Hview.
    split; [by apply board8_grid8; rewrite Hview; apply board8_grid8 |].
    split; [done |]. split; [done |].
    destruct (is_in_check_robust h h' b b (eq_sym Hview) False False)
      with (side := other side) as (rc & K1 & K2 & _); [done.. |].
    rewrite Hsafe in K1. by injection K1 as <-.
  - destruct (attempt_move_accepted _ _ _ _ _ _ Hwf Hrun)
      as (fx & fy & tx & ty & piece & legal & Hparse & Hfrom & Hto & Hpiece
          & Hcol & Hmoves & Hleg & Hsim & Hchk & Hturn & Hext).
    destruct (legal_destination _ _ _ _ _ _ _ _ _ Hpiece Hcol Hmoves Hleg)
      as (Hne & _ & t & Ht & Htc).
    apply board8_grid8 in H8 as G0.
    (* the square taken holds no king *)
    assert (t <> king_of side) as Hown.
    { intros ->. by rewrite color_king_of in Htc. }
    assert (t <> king_of (other side)) as Hopp.
    { intros ->.
      assert (is_in_check b (other side) h = (Ok true, h)) as Habs.
      { apply (is_in_check_attacked h b (other side) tx ty fx fy piece side legal);
          try done.
        - intros x' y' Hxy' Hc'.
          apply (glyph_unique (king_of (other side)) (view h b)); try done;
            by destruct side.
        - by destruct side. }
      by rewrite Hsafe in Habs. }
    assert (forall g, g = "K" \/ g = "k" -> t <> g) as Htk.
    { intros g [-> | ->]; destruct side; done. }
    (* the glyph counts along the writes *)
    unfold simulate in Hsim.
    destruct (vset_grid8 (view h b) ty tx piece G0 Hto) as (v1 & Hs1 & G1).
    rewrite Hs1 in Hsim. simpl in Hsim.
    destruct (vset_grid8 v1 fy fx "." G1 Hfrom) as (v2 & Hs2 & G2).
    rewrite Hs2 in Hsim. simpl in Hsim.
    assert (cell v1 fy fx = Ok piece) as Hsrc.
    { rewrite <- Hpiece. apply (cell_vset_other _ _ _ _ _ _ _ G0 Hto Hfrom Hs1).
      intros [= -> ->]. done. }
    assert (cell v2 ty tx = Ok piece) as Hdst.
    { rewrite (cell_vset_other _ _ _ _ _ _ _ G1 Hfrom Hto Hs2 Hne).
      by eapply cell_vset_same. }
    assert (forall g, g = "K" \/ g = "k" ->
              count_glyph g v2 = count_glyph g (view h b)) as Hcount2.
    { intros g Hg.
      pose proof (vset_count g _ _ _ _ _ _ G0 Hto Ht Hs1) as N1.
      pose proof (vset_count g _ _ _ _ _ _ G1 Hfrom Hsrc Hs2) as N2.
      rewrite (decide_False (P := t = g)) in N1 by by apply Htk.
      rewrite (decide_False (P := "." = g)) in N2
        by (destruct Hg as [-> | ->]; done).
      lia. }
    assert (grid8 (view h' (board st')) /\
            forall g, g = "K" \/ g = "k" ->
              count_glyph g (view h' (board st')) = count_glyph g (view h b))
      as [G3 Hcount3].
    { destruct (String.eqb (lower piece) "p" && ((ty =? 0) || (ty =? 7)))
        eqn:Hpromo.
      - destruct (vset_grid8 v2 ty tx (match side with W => "Q" | B => "q" end)
                    G2 Hto) as (v3 & Hs3 & G3).
        rewrite Hs3 in Hsim. injection Hsim as <-. split; [done |].
        intros g Hg. rewrite <- (Hcount2 g Hg).
        pose proof (vset_count g _ _ _ _ _ _ G2 Hto Hdst Hs3) as N3.
        apply andb_prop in Hpromo as [Hp%String.eqb_eq _].
        rewrite (decide_False (P := piece = g)) in N3.
        2: { intros ->. destruct Hg as [-> | ->]; vm_compute in Hp; done. }
        rewrite (decide_False (P := _ = g)) in N3.
        2: { destruct Hg as [-> | ->]; by destruct side. }
        lia.
      - injection Hsim as <-. split; [done | exact Hcount2]. }
    unfold kings_safe. rewrite Hturn, other_other.
    split; [by apply board8_grid8 |].
    split; [rewrite Hcount3; [done | by left] |].
    split; [rewrite Hcount3; [done | by right] | done].
Qed.

(** On an 8 by 8 board a pass reaches a verdict and hands back an 8 by 8
    board. *)
Lemma attempt_move_total st move h :
  board8 h (board st) ->
  exists v st' h', attempt_move st move h = (Ok (v, st'), h')
                   /\ board8 h' (board st').
Proof.
  destruct st as [b side]. simpl. intros H8.
  pose proof (board8_wf _ _ H8) as Hwf.
  destruct (attempt_move_rel b b side move h h Hwf Hwf eq_refl)
    as (r1 & h1' & r2 & h2' & E1 & _ & _ & _ & _ & Ht & _).
  destruct (Ht H8) as (v & s & -> & H8'). eauto.
Qed.

(** X6: a pass through attempt_move keeps the kings: from an 8 by 8
    board with one king of each colour on which the side that is not to
    move is not in check, whatever the text, the pass reaches a verdict
    (no exception escapes) and the board handed back is again 8 by 8 with
    one king of each colour, and the side that is not to move is not in
    check.  So no move that is accepted takes a king. *)
Theorem X6_kings_stay st move h :
  kings_safe h st ->
  exists v st' h',
    attempt_move st move h = (Ok (v, st'), h') /\ kings_safe h' st'.
Proof.
  intros Hsafe.
  destruct (attempt_move_total st move h) as (v & st' & h' & Hrun & _).
  { by destruct Hsafe. }
  exists v, st', h'. split; [done |].
  by apply (attempt_move_keeps_kings st move h v).
Qed.

Lemma X6_kings_stay_witness :
  exists v st' h',
    attempt_move {| board := start_board; turn := W |} "e2e4" start_heap
    = (Ok (v, st'), h') /\ kings_safe h' st'.
Proof.
  apply (X6_kings_stay {| board := start_board; turn := W |} "e2e4" start_heap).
  split; [exact start_board8 |].
  split; [vm_compute; reflexivity |].
  split; vm_compute; reflexivity.
Defined.

End Kings.

(** ** The loop of [main] *)

Section MainLoop.

(** [print_board] reads the rows and leaves the store alone. *)
Lemma print_rows_run h b : forall y,
  wf_board h b ->
  exists text, print_rows y b h = (Ok text, h) /\
    length text = length b /\
    forall (j : nat) cells, view h b !! j = Some (Some cells) ->
      text !! j = Some (str_of_int (8 - (y + Z.of_nat j)) ++ " "
                        ++ join " " cells)%string.
Proof.
  induction b as [|l b IH]; intros y Hwf.
  - exists []. repeat split; done.
  - apply Forall_cons in Hwf as [[cells Hl] Hwf].
    destruct (IH (y + 1) Hwf) as (rest & E & Hlen & Hrest).
    exists ((str_of_int (8 - y) ++ " " ++ join " " cells)%string :: rest).
    split; [|split].
    + assert (deref l h = (Ok cells, h)) as E0 by (unfold deref; by rewrite Hl).
      cbn [print_rows]. by rewrite (bind_Ok _ _ _ _ _ E0), (bind_Ok _ _ _ _ _ E).
    + simpl. by rewrite Hlen.
    + intros [|j] cells' Hj; simpl in Hj.
      * rewrite Hl in Hj. injection Hj as <-. simpl. do 3 f_equal. lia.
      * simpl. rewrite (Hrest j cells' Hj). do 4 f_equal. lia.
Qed.

Lemma print_board_run h b :
  wf_board h b ->
  exists rows, print_board b h = (Ok ("  a b c d e f g h" :: rows ++ [""]), h) /\
    length rows = length b /\
    forall (j : nat) cells, view h b !! j = Some (Some cells) ->
      rows !! j = Some (str_of_int (8 - Z.of_nat j) ++ " "
                        ++ join " " cells)%string.
Proof.
  intros Hwf. destruct (print_rows_run h b 0 Hwf) as (rows & E & Hlen & Hrows).
  exists rows. split; [|split; [done |]].
  - unfold print_board. by rewrite (bind_Ok _ _ _ _ _ E).
  - intros j cells Hj. by rewrite (Hrows j cells Hj).
Qed.

Lemma main_loop_nil st out h text :
  print_board (board st) h = (Ok text, h) ->
  main_loop [] st out h =
  {| final := st; printed := out ++ (Print <$> text) ++ [prompt (turn st)];
     store_at_end := h; unread := []; how := RaisedEOFError |}.
Proof. intros E. cbn [main_loop]. by rewrite E. Qed.

Lemma main_loop_quit_line line lines st out h text :
  print_board (board st) h = (Ok text, h) -> is_quit line = true ->
  main_loop (line :: lines) st out h =
  {| final := st; printed := out ++ (Print <$> text) ++ [prompt (turn st)];
     store_at_end := h; unread := lines; how := Quit |}.
Proof.
  intros E Hq. cbn [main_loop]. rewrite E, main_iter_attempt.
  unfold is_quit in Hq. cbv zeta in *. by rewrite Hq.
Qed.

Lemma main_loop_move line lines st out h text v st' h' :
  print_board (board st) h = (Ok text, h) -> is_quit line = false ->
  attempt_move st (strip line) h = (Ok (v, st'), h') ->
  main_loop (line :: lines) st out h =
  main_loop lines st'
    (out ++ (Print <$> text) ++ [prompt (turn st)]
     ++ match v with Rejected r => [Print (message r)] | Accepted => [] end) h'.
Proof.
  intros E Hq Hrun. cbn [main_loop]. rewrite E, main_iter_attempt.
  unfold is_quit in Hq. cbv zeta in *. rewrite Hq, Hrun.
  destruct v as [r|]; [|by rewrite app_nil_r].
  by rewrite <- !app_assoc.
Qed.

Lemma kings_safe_board8 h st : kings_safe h st -> board8 h (board st).
Proof. by intros [? _]. Qed.

(** A run of the loop from a position that keeps its kings: it ends on
    the first quit word, or at the end of the input when there is none. *)
Lemma main_loop_run lines : forall st out h,
  kings_safe h st ->
  let r := main_loop lines st out h in
  kings_safe (store_at_end r) (final r) /\
  ((how r = RaisedEOFError /\ unread r = []
    /\ Forall (fun l => is_quit l = false) lines) \/
   (how r = Quit /\ exists pre line,
      lines = pre ++ line :: unread r
      /\ Forall (fun l => is_quit l = false) pre /\ is_quit line = true)).
Proof.
  induction lines as [|line lines IH]; intros st out h Hsafe.
  - destruct (print_board_run h (board st)) as (rows & E & _);
      [by apply board8_wf, kings_safe_board8 |].
    rewrite (main_loop_nil _ _ _ _ E). simpl. split; [done |]. left. done.
  - destruct (print_board_run h (board st)) as (rows & E & _);
      [by apply board8_wf, kings_safe_board8 |].
    destruct (is_quit line) eqn:Hq.
    + rewrite (main_loop_quit_line _ _ _ _ _ _ E Hq). simpl.
      split; [done |]. right. split; [done |]. by exists [], line.
    + destruct (attempt_move_total st (strip line) h
                  (kings_safe_board8 _ _ Hsafe)) as (v & st' & h' & Hrun & _).
      rewrite (main_loop_move _ _ _ _ _ _ _ _ _ E Hq Hrun).
      pose proof (attempt_move_keeps_kings _ _ _ _ _ _ Hsafe Hrun) as Hsafe'.
      destruct (IH st' (out ++ (Print <$> ("  a b c d e f g h" :: rows ++ [""]))
                          ++ [prompt (turn st)]
                          ++ match v with
                             | Rejected r => [Print (message r)]
                             | Accepted => []
                             end) h' Hsafe') as [Hk Hend].
      split; [exact Hk |].
      destruct Hend as [(He & Hu & Hall)|(He & pre & l & Hl & Hpre & Hlq)].
      * left. repeat split; try done. by apply Forall_cons.
      * right. split; [done |]. exists (line :: pre), l.
        split; [by rewrite Hl at 1 |]. split; [by apply Forall_cons | done].
Qed.

(** A quit word ends the run where the end of the input would have. *)
Lemma main_loop_quit pre : forall st out h line post,
  board8 h (board st) ->
  Forall (fun l => is_quit l = false) pre -> is_quit line = true ->
  main_loop (pre ++ line :: post) st out h =
  {| final := final (main_loop pre st out h);
     printed := printed (main_loop pre st out h);
     store_at_end := store_at_end (main_loop pre st out h);
     unread := post; how := Quit |}.
Proof.
  induction pre as [|l pre IH]; intros st out h line post H8 Hpre Hq.
  - destruct (print_board_run h (board st)) as (rows & E & _);
      [by apply board8_wf |].
    simpl app. by rewrite (main_loop_quit_line _ _ _ _ _ _ E Hq),
      (main_loop_nil _ _ _ _ E).
  - apply Forall_cons in Hpre as [Hl Hpre].
    destruct (print_board_run h (board st)) as (rows & E & _);
      [by apply board8_wf |].
    destruct (attempt_move_total st (strip l) h H8)
      as (v & st' & h' & Hrun & H8').
    simpl app. rewrite !(main_loop_move _ _ _ _ _ _ _ _ _ E Hl Hrun).
    by apply IH.
Qed.

Lemma start_kings_safe :
  kings_safe start_heap {| board := start_board; turn := W |}.
Proof.
  split; [exact start_board8 |].
  split; [vm_compute; reflexivity |].
  split; vm_compute; reflexivity.
Qed.

Lemma main_unfold lines :
  main lines = main_loop lines {| board := start_board; turn := W |} [] start_heap.
Proof. unfold main. by rewrite main_init_start. Qed.

(** Cells stay one-character strings. *)
Lemma one_char_view h b :
  one_char_cells h b <->
  Forall (fun o => match o with
                   | Some cells => Forall (fun t => String.length t = 1%nat) cells
                   | None => True
                   end) (view h b).
Proof.
  unfold one_char_cells, view. rewrite Forall_fmap. apply Forall_proper; [|done].
  intros l. simpl. destruct (h !! l) as [cells|]; split; try done.
  - intros H. by apply H.
  - by intros H cells' [= <-].
Qed.

Lemma cell_one_char v y x t :
  Forall (fun o => match o with
                   | Some cells => Forall (fun t => String.length t = 1%nat) cells
                   | None => True
                   end) v ->
  cell v y x = Ok t -> String.length t = 1%nat.
Proof.
  intros Hv. unfold cell.
  destruct (getitem v y) as [o| |] eqn:Ho; simpl; try done.
  apply getitem_Ok in Ho as (j & Hj & _).
  rewrite Forall_lookup in Hv. specialize (Hv _ _ Hj).
  destruct o as [cells|]; [|done].
  intros (i & Hi & _)%getitem_Ok. rewrite Forall_lookup in Hv. by eapply Hv.
Qed.

Lemma vset_one_char v y x t v' :
  Forall (fun o => match o with
                   | Some cells => Forall (fun t => String.length t = 1%nat) cells
                   | None => True
                   end) v ->
  String.length t = 1%nat -> vset v y x t = Ok v' ->
  Forall (fun o => match o with
                   | Some cells => Forall (fun t => String.length t = 1%nat) cells
                   | None => True
                   end) v'.
Proof.
  intros Hv Ht. unfold vset.
  destruct (getitem v y) as [o| |] eqn:Ho; simpl; try done.
  apply getitem_Ok in Ho as (j & Hj & _).
  pose proof Hv as Hv'. rewrite Forall_lookup in Hv'. specialize (Hv' _ _ Hj).
  destruct o as [cells|]; [|done].
  destruct (setitem cells x t) as [cells'| |] eqn:Hc; simpl; try done.
  apply setitem_Ok in Hc as (i & _ & -> & _).
  intros (j' & _ & -> & _)%setitem_Ok.
  apply Forall_insert; [done |]. by apply Forall_insert.
Qed.

Lemma attempt_move_one_char st move h v st' h' :
  wf_board h (board st) -> one_char_cells h (board st) ->
  attempt_move st move h = (Ok (v, st'), h') ->
  one_char_cells h' (board st').
Proof.
  destruct st as [b side]. simpl. intros Hwf H1 Hrun.
  destruct v as [r|].
  - destruct (attempt_move_rel b b side move h h Hwf Hwf eq_refl)
      as (r1 & h1' & r2 & h2' & E1 & E2 & Hext & _ & Hm & _).
    rewrite E1 in E2. injection E2 as <- <-.
    rewrite Hrun in E1. injection E1 as <- <-.
    destruct Hm as (_ & -> & _). simpl.
    apply one_char_view. rewrite (view_extends _ _ _ Hwf Hext).
    by apply one_char_view.
  - destruct (attempt_move_accepted _ _ _ _ _ _ Hwf Hrun)
      as (fx & fy & tx & ty & piece & legal & _ & _ & _ & Hpiece
          & _ & _ & _ & Hsim & _).
    apply one_char_view in H1. apply one_char_view.
    pose proof (cell_one_char _ _ _ _ H1 Hpiece) as Hlen.
    unfold simulate in Hsim.
    destruct (vset (view h b) ty tx piece) as [v1| |] eqn:Hs1; try done.
    simpl in Hsim.
    destruct (vset v1 fy fx ".") as [v2| |] eqn:Hs2; try done.
    simpl in Hsim.
    pose proof (vset_one_char _ _ _ _ _ H1 Hlen Hs1) as H11.
    pose proof (vset_one_char v1 fy fx "." v2 H11 eq_refl Hs2) as H12.
    destruct (_ && _).
    + eapply vset_one_char; [exact H12 | | exact Hsim]. by destruct side.
    + by injection Hsim as <-.
Qed.

Lemma main_loop_one_char lines : forall st out h,
  board8 h (board st) -> one_char_cells h (board st) ->
  one_char_cells (store_at_end (main_loop lines st out h))
    (board (final (main_loop lines st out h))).
Proof.
  induction lines as [|line lines IH]; intros st out h H8 H1.
  - destruct (print_board_run h (board st) (board8_wf _ _ H8)) as (rows & E & _).
    by rewrite (main_loop_nil _ _ _ _ E).
  - destruct (print_board_run h (board st) (board8_wf _ _ H8)) as (rows & E & _).
    destruct (is_quit line) eqn:Hq.
    + by rewrite (main_loop_quit_line _ _ _ _ _ _ E Hq).
    + destruct (attempt_move_total st (strip line) h H8)
        as (v & st' & h' & Hrun & H8').
      rewrite (main_loop_move _ _ _ _ _ _ _ _ _ E Hq Hrun).
      apply IH; [done |].
      by apply (attempt_move_one_char st (strip line) h v); [apply board8_wf | |].
Qed.

Lemma start_one_char : one_char_cells start_heap start_board.
Proof.
  unfold one_char_cells, start_board.
  repeat (apply Forall_cons; split;
          [intros cells Hc; vm_compute in Hc; injection Hc as <-;
           repeat constructor |]).
  constructor.
Qed.

(** X7: whatever lines the input holds, main ends in one of two ways:
    it leaves its loop on a quit word, or input raises EOFError because
    the lines have run out; no IndexError or ValueError escapes.  It quits
    exactly when a line is a quit word, and otherwise has read every line.
    At the end the board is 8 by 8, every cell is a one-character string,
    and the board holds one white and one black king. *)
Theorem X7_main_never_crashes lines :
  let r := main lines in
  ((how r = Quit /\ Exists (fun l => is_quit l = true) lines)
   \/ (how r = RaisedEOFError /\ unread r = []
       /\ Forall (fun l => is_quit l = false) lines))
  /\ board8 (store_at_end r) (board (final r))
  /\ one_char_cells (store_at_end r) (board (final r))
  /\ count_glyph "K" (view (store_at_end r) (board (final r))) = 1%nat
  /\ count_glyph "k" (view (store_at_end r) (board (final r))) = 1%nat.
Proof.
  rewrite main_unfold.
  destruct (main_loop_run lines _ [] _ start_kings_safe)
    as [(H8 & HK & Hk & _) Hend].
  pose proof (main_loop_one_char lines {| board := start_board; turn := W |} []
                start_heap start_board8 start_one_char) as H1.
  cbv zeta. split; [|done].
  destruct Hend as [?|(He & pre & line & Hl & _ & Hq)]; [by right | left].
  split; [done |]. rewrite Hl. apply Exists_app. right. by left.
Qed.

(** X8: main stops at the first quit word: the lines after it are left
    unread, and the game and what was printed are those of the run on the
    lines before it. *)
Theorem X8_main_stops_at_quit pre line post :
  Forall (fun l => is_quit l = false) pre -> is_quit line = true ->
  let r := main (pre ++ line :: post) in
  how r = Quit /\ unread r = post
  /\ final r = final (main pre)
  /\ printed r = printed (main pre)
  /\ store_at_end r = store_at_end (main pre).
Proof.
  intros Hpre Hq. cbv zeta. rewrite !main_unfold.
  rewrite (main_loop_quit pre {| board := start_board; turn := W |} [] start_heap
             line post start_board8 Hpre Hq).
  done.
Qed.

Lemma X8_main_stops_at_quit_witness :
  let r := main (["e2e4"; "e7e5"] ++ " Quit " :: ["g1f3"]) in
  how r = Quit /\ unread r = ["g1f3"]
  /\ final r = final (main ["e2e4"; "e7e5"])
  /\ printed r = printed (main ["e2e4"; "e7e5"])
  /\ store_at_end r = store_at_end (main ["e2e4"; "e7e5"]).
Proof.
  apply (X8_main_stops_at_quit ["e2e4"; "e7e5"] " Quit " ["g1f3"]).
  - repeat constructor.
  - reflexivity.
Defined.

End MainLoop.

(** ** What [print_board] shows *)

Section Display.

Lemma length_one t : String.length t = 1%nat -> exists c, t = String c "".
Proof. destruct t as [|c [|? ?]]; simpl; try done. eauto. Qed.

Lemma one_char_row h b (j : nat) cells :
  one_char_cells h b -> view h b !! j = Some (Some cells) ->
  Forall (fun t => String.length t = 1%nat) cells.
Proof.
  intros H1 Hj. rewrite view_lookup in Hj.
  destruct (b !! j) as [l|] eqn:Hl; [|done]. simpl in Hj.
  unfold one_char_cells in H1. rewrite Forall_lookup in H1.
  apply (H1 _ _ Hl). by injection Hj.
Qed.

(** The digit that labels row [y], and the letter above column [x]. *)
Lemma rank_label y :
  0 <= y < 8 ->
  str_of_int (8 - y) = String (ascii_of_N (Z.to_N (56 - y))) "".
Proof.
  intros Hy.
  assert (y = 0 \/ y = 1 \/ y = 2 \/ y = 3 \/ y = 4 \/ y = 5 \/ y = 6 \/ y = 7)
    as H by lia.
  repeat destruct H as [->|H]; [..|subst y]; vm_compute; reflexivity.
Qed.

Lemma square_name_parses x y :
  in_bounds x y = true ->
  let fl := ascii_of_N (Z.to_N (97 + x)) in
  let rl := ascii_of_N (Z.to_N (56 - y)) in
  String.get (2 + 2 * Z.to_nat x) "  a b c d e f g h" = Some fl
  /\ parse_move (String fl (String rl (String fl (String rl ""))))
     = Ok (Some (x, y, x, y)).
Proof.
  intros [Hx Hy]%in_bounds_spec.
  assert (y = 0 \/ y = 1 \/ y = 2 \/ y = 3 \/ y = 4 \/ y = 5 \/ y = 6 \/ y = 7)
    as Hy' by lia.
  assert (x = 0 \/ x = 1 \/ x = 2 \/ x = 3 \/ x = 4 \/ x = 5 \/ x = 6 \/ x = 7)
    as Hx' by lia.
  clear Hx Hy.
  repeat destruct Hy' as [->|Hy']; [..|subst y];
    (repeat destruct Hx' as [->|Hx']; [..|subst x];
     (split; vm_compute; reflexivity)).
Qed.

(** X9: on an 8 by 8 board of one-character cells print_board prints the
    header, eight rows and an empty line and leaves the store alone; the
    glyph of the square (x, y) stands in row y of the eight at column
    2 + 2x, under the letter of the header at that column and behind the
    digit that starts the row; and that letter followed by that digit is
    the text parse_move maps back to (x, y).  So the coordinates read off
    the printed board address the square shown there. *)
Theorem X9_print_board_coordinates h b x y :
  board8 h b -> one_char_cells h b -> in_bounds x y = true ->
  exists rows line g fl rl,
    print_board b h = (Ok ("  a b c d e f g h" :: rows ++ [""]), h)
    /\ length rows = 8%nat
    /\ rows !! Z.to_nat y = Some line
    /\ getitem2 b y x h = (Ok (String g ""), h)
    /\ String.get (2 + 2 * Z.to_nat x) line = Some g
    /\ String.get (2 + 2 * Z.to_nat x) "  a b c d e f g h" = Some fl
    /\ String.get 0 line = Some rl
    /\ parse_move (String fl (String rl (String fl (String rl ""))))
       = Ok (Some (x, y, x, y)).
Proof.
  intros H8 H1 Hxy. pose proof Hxy as [Hx Hy]%in_bounds_spec.
  destruct (print_board_run h b (board8_wf _ _ H8)) as (rows & E & Hlen & Hrows).
  apply board8_grid8 in H8 as G0.
  destruct (grid8_row (view h b) y G0 Hy) as (cells & Hrow & Hc).
  pose proof (one_char_row _ _ _ _ H1 Hrow) as Hone.
  specialize (Hrows _ _ Hrow).
  rewrite Z2Nat.id, (rank_label y Hy) in Hrows by lia.
  destruct (square_name_parses x y Hxy) as [Hfl Hparse].
  assert (cell (view h b) y x
          = match cells !! Z.to_nat x with
            | Some t => Ok t
            | None => Raise IndexError
            end) as Hcell by (apply cell_in; (done || lia)).
  do 8 (destruct cells as [|? cells]; [done |]).
  destruct cells; [|done]. clear Hc.
  repeat match goal with
         | H : Forall _ (_ :: _) |- _ =>
             apply Forall_cons in H as [[? ->]%length_one H]
         end.
  exists rows.
  assert (x = 0 \/ x = 1 \/ x = 2 \/ x = 3 \/ x = 4 \/ x = 5 \/ x = 6 \/ x = 7)
    as Hx' by lia.
  clear Hx Hxy.
  repeat destruct Hx' as [->|Hx']; [..|subst x];
    (eexists _, _, _, _; split; [exact E |];
     split; [by rewrite Hlen; apply H8 |];
     split; [exact Hrows |];
     split; [apply getitem2_cell; rewrite Hcell; reflexivity |];
     split; [reflexivity |];
     split; [exact Hfl |];
     split; [reflexivity | exact Hparse]).
Qed.

Lemma X9_print_board_coordinates_witness :
  exists rows line g fl rl,
    print_board (board e4_state) e4_heap
    = (Ok ("  a b c d e f g h" :: rows ++ [""]), e4_heap)
    /\ length rows = 8%nat
    /\ rows !! Z.to_nat 4 = Some line
    /\ getitem2 (board e4_state) 4 4 e4_heap = (Ok (String g ""), e4_heap)
    /\ String.get (2 + 2 * Z.to_nat 4) line = Some g
    /\ String.get (2 + 2 * Z.to_nat 4) "  a b c d e f g h" = Some fl
    /\ String.get 0 line = Some rl
    /\ parse_move (String fl (String rl (String fl (String rl ""))))
       = Ok (Some (4, 4, 4, 4)).
Proof.
  apply (X9_print_board_coordinates e4_heap (board e4_state) 4 4).
  - exact e4_board8.
  - rewrite e4_board. unfold one_char_cells.
    repeat (apply Forall_cons; split;
            [intros cells Hc; vm_compute in Hc; injection Hc as <-;
             repeat constructor |]).
    constructor.
  - reflexivity.
Defined.

End Display.

(** ** How the input lines are read *)

Section InputLines.

Lemma attempt_move_parse st m m' :
  parse_move m = parse_move m' -> attempt_move st m = attempt_move st m'.
Proof. unfold attempt_move. by intros ->. Qed.

Lemma main_iter_same st a b :
  lower (strip a) = lower (strip b) -> main_iter st a = main_iter st b.
Proof.
  intros H. unfold main_iter. cbv zeta. rewrite H.
  rewrite (attempt_move_parse st (strip a) (strip b)); [done |].
  by apply parse_move_normalize, normalize_lower.
Qed.

Lemma main_loop_same l1 l2 :
  Forall2 (fun a b => lower (strip a) = lower (strip b)) l1 l2 ->
  forall st out h,
    let r1 := main_loop l1 st out h in
    let r2 := main_loop l2 st out h in
    final r1 = final r2 /\ printed r1 = printed r2
    /\ store_at_end r1 = store_at_end r2 /\ how r1 = how r2
    /\ Forall2 (fun a b => lower (strip a) = lower (strip b))
         (unread r1) (unread r2).
Proof.
  induction 1 as [|a b l1 l2 Hab Hl IH]; intros st out h; cbn [main_loop].
  - destruct (print_board (board st) h) as [[text|e|] h0]; simpl;
      repeat split; constructor.
  - destruct (print_board (board st) h) as [[text|e|] h0]; simpl.
    2, 3: by (repeat split; try done; constructor).
    rewrite (main_iter_same st a b Hab).
    destruct (main_iter st b h0) as [[[[[r|] st']|]|e|] h1]; simpl;
      try (by repeat split).
    + apply IH.
    + apply IH.
Qed.

(** X10: main reads each line through strip and lower only: two inputs
    whose lines agree once stripped of surrounding whitespace and put in
    lower case give the same run -- the same final position, the same
    output, the same store, the same ending, and as many lines left
    unread. *)
Theorem X10_main_ignores_case_and_padding l1 l2 :
  Forall2 (fun a b => lower (strip a) = lower (strip b)) l1 l2 ->
  let r1 := main l1 in
  let r2 := main l2 in
  final r1 = final r2 /\ printed r1 = printed r2
  /\ store_at_end r1 = store_at_end r2 /\ how r1 = how r2
  /\ length (unread r1) = length (unread r2).
Proof.
  intros H. cbv zeta. rewrite !main_unfold.
  destruct (main_loop_same l1 l2 H {| board := start_board; turn := W |} []
              start_heap) as (? & ? & ? & ? & Hu).
  repeat split; try done. by eapply Forall2_length.
Qed.

Lemma X10_main_ignores_case_and_padding_witness :
  let r1 := main ["  E2E4 "; "e7E5"; "QUIT"; "A2A3"] in
  let r2 := main ["e2e4"; "e7e5"; "quit"; "a2a3"] in
  final r1 = final r2 /\ printed r1 = printed r2
  /\ store_at_end r1 = store_at_end r2 /\ how r1 = how r2
  /\ length (unread r1) = length (unread r2).
Proof.
  apply (X10_main_ignores_case_and_padding
           ["  E2E4 "; "e7E5"; "QUIT"; "A2A3"] ["e2e4"; "e7e5"; "quit"; "a2a3"]).
  repeat (constructor; [vm_compute; reflexivity |]). constructor.
Defined.

Lemma lstrip_spaces ws :
  str_forall isspace ws = true -> lstrip ws = "".
Proof.
  induction ws as [|c ws IH]; simpl; [done |].
  intros [-> Hws]%andb_prop. by apply IH.
Qed.

Lemma rstrip_spaces ws :
  str_forall isspace ws = true -> rstrip ws = "".
Proof.
  induction ws as [|c ws IH]; simpl; [done |].
  intros [-> Hws]%andb_prop. by rewrite IH.
Qed.

Lemma rstrip_app_spaces s ws :
  str_forall isspace ws = true -> rstrip (s ++ ws) = rstrip s.
Proof.
  intros Hws. induction s as [|c s IH]; simpl.
  - by apply rstrip_spaces.
  - by rewrite IH.
Qed.

Lemma strip_app_spaces s ws :
  str_forall isspace ws = true -> strip (s ++ ws) = strip s.
Proof.
  intros Hws. unfold strip. induction s as [|c s IH]; simpl.
  - by rewrite lstrip_spaces.
  - destruct (isspace c); [done |].
    by apply (rstrip_app_spaces (String c s)).
Qed.

Lemma strip_spaces_app ws s :
  str_forall isspace ws = true -> strip (ws ++ s) = strip s.
Proof.
  unfold strip. induction ws as [|c ws IH]; simpl; [done |].
  intros [-> Hws]%andb_prop. by apply IH.
Qed.

(** The white-space characters of the strings of this embedding, by
    code point. *)
Lemma latin1_spaces ws :
  Forall (fun c => let n := Z.of_N (code c) in
                   9 <= n <= 13 \/ 28 <= n <= 32 \/ n = 133 \/ n = 160)
    (list_ascii_of_string ws) ->
  str_forall isspace ws = true.
Proof.
  induction ws as [|c ws IH]; simpl; [done |].
  intros [Hc Hws]%Forall_cons. rewrite (IH Hws), andb_true_r.
  cbv zeta in Hc. unfold isspace, between.
  generalize dependent (code c). intros n Hn.
  rewrite !orb_true_iff, !andb_true_iff, !N.leb_le, !N.eqb_eq. lia.
Qed.

(** X11: for text of code points below 256 (the strings of this
    embedding), the white-space characters among them -- tab, line feed,
    vertical tab, form feed, carriage return (9 to 13), the separators 28
    to 31, the space (32), next line (133) and the no-break space (160) --
    are ignored around the text: parse_move returns the same, and the test
    of main for a quit word answers the same, as for the text without
    them.  White space above code point 255, which str.strip removes too,
    is outside these strings and not covered. *)
Theorem X11_surrounding_whitespace ws1 s ws2 :
  Forall (fun c => let n := Z.of_N (code c) in
                   9 <= n <= 13 \/ 28 <= n <= 32 \/ n = 133 \/ n = 160)
    (list_ascii_of_string ws1) ->
  Forall (fun c => let n := Z.of_N (code c) in
                   9 <= n <= 13 \/ 28 <= n <= 32 \/ n = 133 \/ n = 160)
    (list_ascii_of_string ws2) ->
  parse_move (ws1 ++ s ++ ws2) = parse_move s
  /\ is_quit (ws1 ++ s ++ ws2) = is_quit s.
Proof.
  intros H1%latin1_spaces H2%latin1_spaces.
  assert (strip (ws1 ++ s ++ ws2) = strip s) as Hs.
  { by rewrite strip_spaces_app, strip_app_spaces. }
  split.
  - apply parse_move_normalize. unfold normalize. by rewrite Hs.
  - unfold is_quit. by rewrite Hs.
Qed.

Lemma X11_surrounding_whitespace_witness :
  parse_move (String (ascii_of_N 9) (String (ascii_of_N 160) " ") ++ "exit"
              ++ String (ascii_of_N 133) (String (ascii_of_N 10) ""))
  = parse_move "exit"
  /\ is_quit (String (ascii_of_N 9) (String (ascii_of_N 160) " ") ++ "exit"
              ++ String (ascii_of_N 133) (String (ascii_of_N 10) ""))
     = is_quit "exit".
Proof.
  apply (X11_surrounding_whitespace
           (String (ascii_of_N 9) (String (ascii_of_N 160) " ")) "exit"
           (String (ascii_of_N 133) (String (ascii_of_N 10) "")));
    repeat constructor; simpl; lia.
Defined.

End InputLines.

(** ** Rejected lines leave no trace in the game *)

Section RejectedLines.







End RejectedLines.
